(** * The message-streaming hub of github-mcp, embedded in Rocq

    The development follows the Go package [mcp]:
    - the JSON-RPC envelope [JSONRPCMessage] and its shape tests;
    - [MCPStreamer], which classifies a message, wraps it in an event
      payload and hands it to a [StreamHandlerInterface];
    - [StreamHandler], the registry of SSE connections with broadcast,
      unicast, heartbeat and shutdown;
    - [Handler], which answers the MCP requests and streams the progress
      and the outcome of tool calls.

    Go values of type [interface{}] are modelled by the inductive [value];
    pointers to [ClientConnection] are locations into an explicit heap, so
    that the aliasing between the registry, a snapshot and the goroutine that
    serves a connection is kept.  A Go panic is an explicit outcome. *)

From stdpp Require Import gmap strings list fin_maps pretty.
From Stdlib Require Import Ascii.

#[local] Set Warnings "-register-all".
#[local] Open Scope Z_scope.

(* ===================================================================== *)
(** * Go values and [encoding/json] *)
(* ===================================================================== *)

Module JSON.

(** What an [interface{}] can hold, as far as [encoding/json] can tell:
    the nil interface, the generic JSON shapes, and [VChan] standing for the
    values the encoder refuses (channels, functions, complex numbers). *)
Inductive value : Type :=
| VNil
| VBool (b : bool)
| VInt (n : Z)
| VStr (s : string)
| VList (l : list value)
| VMap (kvs : list (string * value))
| VChan.

(** Go functions returning [(T, error)]. *)
Inductive result (A : Type) : Type :=
| Ok (a : A)
| Err (e : string).
Arguments Ok {A} a.
Arguments Err {A} e.

Definition rbind {A B} (r : result A) (k : A → result B) : result B :=
  match r with
  | Ok a => k a
  | Err e => Err e
  end.

#[global] Instance result_bind : MBind result := λ A B k r, rbind r k.
#[global] Instance result_ret : MRet result := λ A a, Ok a.

(** [v != nil] on an interface value. *)
Definition is_nil (v : value) : bool :=
  match v with
  | VNil => true
  | _ => false
  end.

(** ** Text encoding *)

Definition hex_digit (n : N) : ascii :=
  match n with
  | 0 => "0" | 1 => "1" | 2 => "2" | 3 => "3" | 4 => "4" | 5 => "5"
  | 6 => "6" | 7 => "7" | 8 => "8" | 9 => "9" | 10 => "a" | 11 => "b"
  | 12 => "c" | 13 => "d" | 14 => "e" | _ => "f"
  end%N%char.

Definition backslash : string := String (ascii_of_N 92) "".
Definition dquote : string := String (ascii_of_N 34) "".

Definition unicode_escape (c : ascii) : string :=
  let n := N_of_ascii c in
  backslash +:+ "u00" +:+
  String (hex_digit (n / 16)) (String (hex_digit (n mod 16)) "").

(** The encoder's string escaping: quote and backslash, the short escapes
    for newline, carriage return and tab, [\u00XX] for the other control
    characters and for the HTML-sensitive [<], [>] and [&].  This is the
    encoder up to Go 1.21 (the repository asks for Go 1.20 or later); from
    Go 1.22 backspace and form feed have short escapes of their own.  A
    string is taken byte by byte and bytes from 128 are copied: what the
    encoder does with U+2028, U+2029 and with invalid UTF-8 is not
    modelled. *)
Definition escape_char (c : ascii) : string :=
  let n := N_of_ascii c in
  if (n =? 34)%N then backslash +:+ dquote
  else if (n =? 92)%N then backslash +:+ backslash
  else if (n =? 10)%N then backslash +:+ "n"
  else if (n =? 13)%N then backslash +:+ "r"
  else if (n =? 9)%N then backslash +:+ "t"
  else if (n <? 32)%N then unicode_escape c
  else if (n =? 60)%N || (n =? 62)%N || (n =? 38)%N then unicode_escape c
  else String c "".

Fixpoint escape (s : string) : string :=
  match s with
  | EmptyString => ""
  | String c r => escape_char c +:+ escape r
  end.

Definition quote (s : string) : string := dquote +:+ escape s +:+ dquote.

Fixpoint join (sep : string) (l : list string) : string :=
  match l with
  | [] => ""
  | [s] => s
  | s :: r => s +:+ sep +:+ join sep r
  end.

(** Map keys are written in sorted order. *)
Fixpoint insert_by_key (kv : string * string) (l : list (string * string))
  : list (string * string) :=
  match l with
  | [] => [kv]
  | kv' :: r =>
      if String.leb kv.1 kv'.1 then kv :: l else kv' :: insert_by_key kv r
  end.

Definition sort_by_key (l : list (string * string)) : list (string * string) :=
  foldr insert_by_key [] l.

Definition member (kv : string * string) : string := quote kv.1 +:+ ":" +:+ kv.2.

(** [json.Marshal] on a generic value.  [VChan] is the one value it
    refuses, with the error text of a channel; a value whose own
    [MarshalJSON] or [MarshalText] returns an error, with a text of its
    choice, is not modelled. *)
Fixpoint Marshal (v : value) : result string :=
  match v with
  | VNil => Ok "null"
  | VBool true => Ok "true"
  | VBool false => Ok "false"
  | VInt n => Ok (pretty n)
  | VStr s => Ok (quote s)
  | VList l =>
      items ← (fix go (l : list value) : result (list string) :=
                 match l with
                 | [] => Ok []
                 | x :: r => s ← Marshal x ; ss ← go r ; Ok (s :: ss)
                 end) l ;
      Ok ("[" +:+ join "," items +:+ "]")
  | VMap kvs =>
      items ← (fix go (l : list (string * value)) : result (list (string * string)) :=
                 match l with
                 | [] => Ok []
                 | (k, x) :: r => s ← Marshal x ; ss ← go r ; Ok ((k, s) :: ss)
                 end) kvs ;
      Ok ("{" +:+ join "," (member <$> sort_by_key items) +:+ "}")
  | VChan => Err "json: unsupported type: chan struct {}"
  end.

(** [json.Marshal] followed by [json.Unmarshal] into an [interface{}]: the
    generic form of a value.  It fails exactly where [Marshal] does.
    Numbers are kept as they are; the decoder gives a [float64], which
    rounds integers beyond 2^53, and that rounding is not modelled. *)
Fixpoint generic (v : value) : result value :=
  match v with
  | VList l =>
      l' ← (fix go (l : list value) : result (list value) :=
              match l with
              | [] => Ok []
              | x :: r => x' ← generic x ; r' ← go r ; Ok (x' :: r')
              end) l ;
      Ok (VList l')
  | VMap kvs =>
      kvs' ← (fix go (l : list (string * value)) : result (list (string * value)) :=
                match l with
                | [] => Ok []
                | (k, x) :: r => x' ← generic x ; r' ← go r ; Ok ((k, x') :: r')
                end) kvs ;
      Ok (VMap kvs')
  | VChan => Err "json: unsupported type: chan struct {}"
  | _ => Ok v
  end.

(** Lookup in a [map[string]interface{}]. *)
Fixpoint field (k : string) (kvs : list (string * value)) : option value :=
  match kvs with
  | [] => None
  | (k', v) :: r => if decide (k = k') then Some v else field k r
  end.

Definition get (k : string) (v : value) : option value :=
  match v with
  | VMap kvs => field k kvs
  | _ => None
  end.

(** [m[k] = v] on a map: replaces the entry of an existing key. *)
Fixpoint set_field (k : string) (v : value) (kvs : list (string * value))
  : list (string * value) :=
  match kvs with
  | [] => [(k, v)]
  | (k', v') :: r =>
      if decide (k = k') then (k, v) :: r else (k', v') :: set_field k v r
  end.

(** A value the encoder accepts. *)
Definition marshals (v : value) : Prop := ∃ s, Marshal v = Ok s.

(** ** Lines of text *)

Definition is_newline (c : ascii) : bool := (N_of_ascii c =? 10)%N.

Fixpoint has_newline (s : string) : bool :=
  match s with
  | EmptyString => false
  | String c r => is_newline c || has_newline r
  end.

(** The lines of a text: the pieces between newline characters.  A text
    that ends in a newline has an empty last piece. *)
Fixpoint lines (s : string) : list string :=
  match s with
  | EmptyString => [EmptyString]
  | String c r =>
      if is_newline c then EmptyString :: lines r
      else match lines r with
           | l :: ls => String c l :: ls
           | [] => [String c EmptyString]
           end
  end.

(** The number of newline characters of a text. *)
Fixpoint newlines (s : string) : nat :=
  match s with
  | EmptyString => 0
  | String c r => (if is_newline c then 1 else 0) + newlines r
  end.

(** The two loops of [Marshal] and of [generic], by name. *)
Definition Marshal_items (l : list value) : result (list string) :=
  (fix go (l : list value) : result (list string) :=
     match l with
     | [] => Ok []
     | x :: r => s ← Marshal x ; ss ← go r ; Ok (s :: ss)
     end) l.

Definition Marshal_members (kvs : list (string * value))
  : result (list (string * string)) :=
  (fix go (l : list (string * value)) : result (list (string * string)) :=
     match l with
     | [] => Ok []
     | (k, x) :: r => s ← Marshal x ; ss ← go r ; Ok ((k, s) :: ss)
     end) kvs.

Definition generic_items (l : list value) : result (list value) :=
  (fix go (l : list value) : result (list value) :=
     match l with
     | [] => Ok []
     | x :: r => x' ← generic x ; r' ← go r ; Ok (x' :: r')
     end) l.

Definition generic_members (kvs : list (string * value))
  : result (list (string * value)) :=
  (fix go (l : list (string * value)) : result (list (string * value)) :=
     match l with
     | [] => Ok []
     | (k, x) :: r => x' ← generic x ; r' ← go r ; Ok ((k, x') :: r')
     end) kvs.

End JSON.
Export JSON.

(* ===================================================================== *)
(** * [JSONRPCMessage]: the JSON-RPC envelope *)
(* ===================================================================== *)

Module Types.

(** Message types *)
Definition MessageTypeRequest : string := "request".
Definition MessageTypeResponse : string := "response".
Definition MessageTypeNotification : string := "notification".

(** [RPCError] represents a JSON-RPC error *)
Record RPCError : Type := {
  Code : Z;
  Message : string;
  Data : value;
}.

(** [JSONRPCMessage] represents a JSON-RPC 2.0 message.  [ID], [Params] and
    [Result] are [interface{}] values ([VNil] is the nil interface), [Error]
    is a pointer ([None] is nil). *)
Record JSONRPCMessage : Type := {
  JSONRPC : string;
  ID : value;
  Method : string;
  Params : value;
  Result : value;
  Error : option RPCError;
}.

Definition NewRequest (id : value) (method : string) (params : value)
  : JSONRPCMessage :=
  {| JSONRPC := "2.0"; ID := id; Method := method; Params := params;
     Result := VNil; Error := None |}.

Definition NewResponse (id : value) (result : value) : JSONRPCMessage :=
  {| JSONRPC := "2.0"; ID := id; Method := ""; Params := VNil;
     Result := result; Error := None |}.

Definition NewErrorResponse (id : value) (code : Z) (message : string)
  (data : value) : JSONRPCMessage :=
  {| JSONRPC := "2.0"; ID := id; Method := ""; Params := VNil; Result := VNil;
     Error := Some {| Code := code; Message := message; Data := data |} |}.

Definition NewNotification (method : string) (params : value)
  : JSONRPCMessage :=
  {| JSONRPC := "2.0"; ID := VNil; Method := method; Params := params;
     Result := VNil; Error := None |}.

(** [m.Method != ""] *)
Definition has_method (m : JSONRPCMessage) : bool :=
  negb (bool_decide (Method m = "")).

(** [IsRequest] returns true if the message is a request *)
Definition IsRequest (m : JSONRPCMessage) : bool :=
  has_method m && negb (is_nil (ID m)).

(** [IsResponse] returns true if the message is a response *)
Definition IsResponse (m : JSONRPCMessage) : bool :=
  negb (has_method m) && negb (is_nil (ID m)) &&
  (negb (is_nil (Result m)) || bool_decide (Error m ≠ None)).

(** [IsNotification] returns true if the message is a notification *)
Definition IsNotification (m : JSONRPCMessage) : bool :=
  has_method m && is_nil (ID m).

(** [IsError] returns true if the message is an error response *)
Definition IsError (m : JSONRPCMessage) : bool :=
  bool_decide (Error m ≠ None).

(** A field tagged [omitempty]: left out when the interface is nil. *)
Definition omitempty (k : string) (v : value) : list (string * value) :=
  if is_nil v then [] else [(k, v)].

(** The object [encoding/json] produces for an [RPCError], read back. *)
Definition error_object (e : RPCError) : result value :=
  d ← generic (Data e);
  Ok (VMap ([("code", VInt (Code e)); ("message", VStr (Message e))]
            ++ omitempty "data" d)).

(** [json.Marshal(message)] followed by [json.Unmarshal] into a
    [map[string]interface{}], following the struct tags of
    [JSONRPCMessage]: every field but [jsonrpc] is [omitempty]. *)
Definition message_map (m : JSONRPCMessage) : result value :=
  id ← generic (ID m);
  params ← generic (Params m);
  res ← generic (Result m);
  err ← match Error m with
        | None => Ok []
        | Some e => o ← error_object e; Ok [("error", o)]
        end;
  Ok (VMap ([("jsonrpc", VStr (JSONRPC m))]
            ++ omitempty "id" id
            ++ (if has_method m then [("method", VStr (Method m))] else [])
            ++ omitempty "params" params
            ++ omitempty "result" res
            ++ err)).

End Types.
Export Types.

(* ===================================================================== *)
(** * Go runtime: panics and channels; the logger *)
(* ===================================================================== *)

Module Go.

(** A call either returns or panics. *)
Inductive outcome (A : Type) : Type :=
| Return (a : A)
| Panic (reason : string).
Arguments Return {A} a.
Arguments Panic {A} reason.

#[global] Instance outcome_bind : MBind outcome := λ A B k o,
  match o with
  | Return a => k a
  | Panic r => Panic r
  end.
#[global] Instance outcome_ret : MRet outcome := λ A a, Return a.

(** A [chan struct{}] on which nothing is ever sent: it is open or closed. *)
Inductive chan : Type := Open | Closed.

(** [close(c)]: closing a closed channel panics. *)
Definition close (c : chan) : outcome chan :=
  match c with
  | Open => Return Closed
  | Closed => Panic "close of closed channel"
  end.

(** [select { case <-c: ...; default: ... }]: the receive is ready exactly
    when [c] is closed. *)
Definition ready (c : chan) : bool :=
  match c with
  | Open => false
  | Closed => true
  end.

(** Go's [error]: [None] is nil. *)
Definition error : Type := option string.

(** A [for range] loop over a slice, threading the state. *)
Fixpoint for_each {A S : Type} (f : A → S → outcome S) (l : list A) (s : S)
  : outcome S :=
  match l with
  | [] => Return s
  | x :: r => s' ← f x s; for_each f r s'
  end.

End Go.
Export Go.

Module Logger.

Inductive Level : Type := LevelDebug | LevelInfo | LevelWarn | LevelError.

(** The logger is observed through the lines it has emitted (message only). *)
Definition Logger : Type := list (Level * string).

Definition Debug (msg : string) (l : Logger) : Logger := l ++ [(LevelDebug, msg)].
Definition Info (msg : string) (l : Logger) : Logger := l ++ [(LevelInfo, msg)].
Definition Warn (msg : string) (l : Logger) : Logger := l ++ [(LevelWarn, msg)].
Definition Error (msg : string) (l : Logger) : Logger := l ++ [(LevelError, msg)].

End Logger.

(* ===================================================================== *)
(** * [MCPStreamer]: classification and formatting *)
(* ===================================================================== *)

Module Streamer.

(** [StreamHandlerInterface] defines the interface for stream handler
    operations.  A method that mutates its receiver returns the new state. *)
Class StreamHandlerInterface (H : Type) : Type := {
  BroadcastMessage : string → value → H → outcome H;
  SendToClient : string → string → value → H → outcome H;
  GetConnectedClients : H → Z;
}.

(** [MCPStreamer]: [streamHandler] is [None] for a nil handler, otherwise
    the state of the handler the streamer points to. *)
Record MCPStreamer (H : Type) : Type := {
  logger : Logger.Logger;
  streamHandler : option H;
}.
Arguments logger {H} _.
Arguments streamHandler {H} _.

Definition NewMCPStreamer {H} (logger : Logger.Logger) (streamHandler : option H)
  : MCPStreamer H :=
  {| logger := logger; streamHandler := streamHandler |}.

(** [getCurrentTimestamp] returns the current Unix timestamp.
    The body is the placeholder of the source: it does not read the clock. *)
Definition getCurrentTimestamp : Z := 1640995200.

(** [formatMessageForSSE] formats an MCP message for SSE transmission *)
Definition formatMessageForSSE (message : JSONRPCMessage) : result value :=
  messageMap ← message_map message;
  let eventData :=
    [("mcp_message", messageMap); ("timestamp", VInt getCurrentTimestamp)] in
  let eventData :=
    if IsRequest message then
      set_field "message_type" (VStr "request") eventData
    else if IsResponse message then
      set_field "message_type" (VStr "response") eventData
    else if IsNotification message then
      set_field "message_type" (VStr "notification") eventData
    else eventData in
  Ok (VMap eventData).

(** [getEventType] determines the SSE event type based on the MCP message *)
Definition getEventType (message : JSONRPCMessage) : string :=
  if IsNotification message then "mcp_notification"
  else if IsResponse message then
    if IsError message then "mcp_error" else "mcp_response"
  else if IsRequest message then "mcp_request"
  else "mcp_message".

Section Methods.
Context {H : Type} `{!StreamHandlerInterface H}.

Definition log (f : Logger.Logger → Logger.Logger) (ms : MCPStreamer H)
  : MCPStreamer H :=
  {| logger := f (logger ms); streamHandler := streamHandler ms |}.

(** [StreamMessage] sends an MCP message to all connected clients *)
Definition StreamMessage (message : JSONRPCMessage) (ms : MCPStreamer H)
  : outcome (error * MCPStreamer H) :=
  match streamHandler ms with
  | None =>
      Return (None, log (Logger.Warn "No stream handler available for streaming message") ms)
  | Some h =>
      if GetConnectedClients h =? 0 then
        Return (None, log (Logger.Debug "No connected clients to stream message to") ms)
      else
        match formatMessageForSSE message with
        | Err err =>
            Return (Some err, log (Logger.Error "Failed to format MCP message for SSE") ms)
        | Ok eventData =>
            let eventType := getEventType message in
            h' ← BroadcastMessage eventType eventData h;
            Return (None,
                    {| logger := Logger.Debug "Streamed MCP message to clients" (logger ms);
                       streamHandler := Some h' |})
        end
  end.

(** [StreamMessageToClient] sends an MCP message to a specific client *)
Definition StreamMessageToClient (clientID : string) (message : JSONRPCMessage)
  (ms : MCPStreamer H) : outcome (error * MCPStreamer H) :=
  match streamHandler ms with
  | None =>
      Return (None, log (Logger.Warn "No stream handler available for streaming message") ms)
  | Some h =>
      match formatMessageForSSE message with
      | Err err =>
          Return (Some err, log (Logger.Error "Failed to format MCP message for SSE") ms)
      | Ok eventData =>
          let eventType := getEventType message in
          h' ← SendToClient clientID eventType eventData h;
          Return (None,
                  {| logger := Logger.Debug "Streamed MCP message to specific client" (logger ms);
                     streamHandler := Some h' |})
      end
  end.

(** [StreamNotification] sends a notification message to all connected clients *)
Definition StreamNotification (method : string) (params : value)
  (ms : MCPStreamer H) : outcome (error * MCPStreamer H) :=
  StreamMessage (NewNotification method params) ms.

(** [StreamToolProgress] sends tool execution progress updates to clients *)
Definition StreamToolProgress (toolName : string) (progress : value)
  (ms : MCPStreamer H) : outcome (error * MCPStreamer H) :=
  let progressData := VMap [("tool", VStr toolName); ("progress", progress)] in
  StreamNotification "tools/progress" progressData ms.

(** [StreamError] sends error information to clients *)
Definition StreamError (errorCode : Z) (message : string) (data : value)
  (ms : MCPStreamer H) : outcome (error * MCPStreamer H) :=
  let errorData :=
    VMap [("code", VInt errorCode); ("message", VStr message); ("data", data)] in
  match streamHandler ms with
  | Some h =>
      h' ← BroadcastMessage "error" errorData h;
      Return (None, {| logger := logger ms; streamHandler := Some h' |})
  | None => Return (None, ms)
  end.

(** [GetConnectedClientsCount] returns the number of connected clients *)
Definition GetConnectedClientsCount (ms : MCPStreamer H) : Z :=
  match streamHandler ms with
  | None => 0
  | Some h => GetConnectedClients h
  end.

(** [IsStreamingEnabled] returns true if streaming is available *)
Definition IsStreamingEnabled (ms : MCPStreamer H) : bool :=
  match streamHandler ms with
  | None => false
  | Some h => 0 <? GetConnectedClients h
  end.

End Methods.

End Streamer.

(* ===================================================================== *)
(** * [StreamHandler]: the connection registry *)
(* ===================================================================== *)

Module Handler.

(** The sink of a connection: an [http.ResponseWriter] seen through what was
    done to it.  [written] lists the chunks passed to [Write], oldest first;
    [broken] tells whether [Write] returns an error (the peer is gone);
    [can_flush] whether the writer implements [http.Flusher]. *)
Record ResponseWriter : Type := {
  header : gmap string string;
  status : Z;
  written : list string;
  flushed : bool;
  broken : bool;
  can_flush : bool;
}.

(** [ClientConnection] represents an active SSE client connection.
    [Writer] and [Flusher] are the same object; [LastSeen] is a clock
    reading in nanoseconds. *)
Record ClientConnection : Type := {
  ID : string;
  Writer : ResponseWriter;
  Done : chan;
  LastSeen : Z;
}.

(** A [*ClientConnection]. *)
Definition loc : Type := nat.

(** [StreamHandler] manages SSE connections and handles streaming MCP
    messages to clients.  Next to the fields of the Go struct the state
    holds what the methods reach through them: [heap], the connection
    objects the pointers in [clients] and in snapshots refer to; [now], the
    reading [time.Now().UnixNano()] returns; and [deliveries], a record of
    the calls of [sendEvent] (connection, event type, data), oldest first. *)
Record StreamHandler : Type := {
  logger : Logger.Logger;
  clients : gmap string loc;
  heartbeat : Z;
  stopCh : chan;
  wg : nat;
  heap : gmap loc ClientConnection;
  now : Z;
  deliveries : list (loc * string * value);
}.

Definition second : Z := 1000000000.

(** [NewStreamHandler] creates a new StreamHandler instance *)
Definition NewStreamHandler (logger : Logger.Logger) (now : Z) : StreamHandler :=
  {| logger := logger; clients := ∅; heartbeat := 30 * second;
     stopCh := Open; wg := 0; heap := ∅; now := now; deliveries := [] |}.

Definition set_logger (f : Logger.Logger → Logger.Logger) (sh : StreamHandler)
  : StreamHandler :=
  {| logger := f (logger sh); clients := clients sh; heartbeat := heartbeat sh;
     stopCh := stopCh sh; wg := wg sh; heap := heap sh; now := now sh;
     deliveries := deliveries sh |}.

Definition set_clients (m : gmap string loc) (sh : StreamHandler) : StreamHandler :=
  {| logger := logger sh; clients := m; heartbeat := heartbeat sh;
     stopCh := stopCh sh; wg := wg sh; heap := heap sh; now := now sh;
     deliveries := deliveries sh |}.

Definition set_heap (h : gmap loc ClientConnection) (sh : StreamHandler)
  : StreamHandler :=
  {| logger := logger sh; clients := clients sh; heartbeat := heartbeat sh;
     stopCh := stopCh sh; wg := wg sh; heap := h; now := now sh;
     deliveries := deliveries sh |}.

Definition set_stop (c : chan) (n : nat) (sh : StreamHandler) : StreamHandler :=
  {| logger := logger sh; clients := clients sh; heartbeat := heartbeat sh;
     stopCh := c; wg := n; heap := heap sh; now := now sh;
     deliveries := deliveries sh |}.

Definition set_now (t : Z) (sh : StreamHandler) : StreamHandler :=
  {| logger := logger sh; clients := clients sh; heartbeat := heartbeat sh;
     stopCh := stopCh sh; wg := wg sh; heap := heap sh; now := t;
     deliveries := deliveries sh |}.

Definition record_delivery (d : loc * string * value) (sh : StreamHandler)
  : StreamHandler :=
  {| logger := logger sh; clients := clients sh; heartbeat := heartbeat sh;
     stopCh := stopCh sh; wg := wg sh; heap := heap sh; now := now sh;
     deliveries := deliveries sh ++ [d] |}.

(** Dereferencing a [*ClientConnection]. *)
Definition deref (client : loc) (sh : StreamHandler) : outcome ClientConnection :=
  match heap sh !! client with
  | Some c => Return c
  | None => Panic "invalid memory address or nil pointer dereference"
  end.

Definition store (client : loc) (c : ClientConnection) (sh : StreamHandler)
  : StreamHandler :=
  set_heap (<[client := c]> (heap sh)) sh.

Definition newline : string := String (ascii_of_N 10) "".

(** [formatSSEEvent] formats data as an SSE event *)
Definition formatSSEEvent (eventType : string) (data : value) : string :=
  let jsonData :=
    match Marshal data with
    | Ok jsonData => jsonData
    | Err err =>
        "{" +:+ dquote +:+ "error" +:+ dquote +:+ ": " +:+ dquote +:+
        "failed to marshal data: " +:+ err +:+ dquote +:+ "}"
    end in
  "event: " +:+ eventType +:+ newline +:+ "data: " +:+ jsonData +:+
  newline +:+ newline.

(** The payload [formatSSEEvent] substitutes when the data cannot be
    serialized. *)
Definition marshal_failure (err : string) : string :=
  "{" +:+ dquote +:+ "error" +:+ dquote +:+ ": " +:+ dquote +:+
  "failed to marshal data: " +:+ err +:+ dquote +:+ "}".

(** [fmt.Fprint(w, event)]: one [Write] of the whole event. *)
Definition Write (event : string) (w : ResponseWriter) : result ResponseWriter :=
  if broken w then Err "write: broken pipe"
  else Ok {| header := header w; status := status w;
             written := written w ++ [event]; flushed := flushed w;
             broken := broken w; can_flush := can_flush w |}.

Definition Flush (w : ResponseWriter) : ResponseWriter :=
  {| header := header w; status := status w; written := written w;
     flushed := true; broken := broken w; can_flush := can_flush w |}.

(** [sendEvent] sends an SSE event to a specific client *)
Definition sendEvent (client : loc) (eventType : string) (data : value)
  (sh : StreamHandler) : outcome StreamHandler :=
  let sh := record_delivery (client, eventType, data) sh in
  c ← deref client sh;
  if ready (Done c) then Return sh
  else
    let event := formatSSEEvent eventType data in
    match Write event (Writer c) with
    | Err err =>
        let sh := set_logger (Logger.Error "Failed to write SSE event to client") sh in
        done ← close (Done c);
        Return (store client {| ID := ID c; Writer := Writer c; Done := done;
                                LastSeen := LastSeen c |} sh)
    | Ok w =>
        Return (store client {| ID := ID c; Writer := Flush w; Done := Done c;
                                LastSeen := now sh |} sh)
    end.

(** The slice of clients copied out of the map under the read lock.  Go
    leaves the iteration order of a map unspecified; [map_to_list] fixes
    one. *)
Definition snapshot (sh : StreamHandler) : list loc :=
  (map_to_list (clients sh)).*2.

(** [BroadcastMessage] sends a message to all connected clients *)
Definition BroadcastMessage (eventType : string) (data : value)
  (sh : StreamHandler) : outcome StreamHandler :=
  let clients := snapshot sh in
  for_each (λ client, sendEvent client eventType data) clients sh.

(** [SendToClient] sends a message to a specific client *)
Definition SendToClient (clientID eventType : string) (data : value)
  (sh : StreamHandler) : outcome StreamHandler :=
  match clients sh !! clientID with
  | None =>
      Return (set_logger (Logger.Warn "Attempted to send message to non-existent client") sh)
  | Some client => sendEvent client eventType data sh
  end.

(** [GetConnectedClients] returns the number of connected clients *)
Definition GetConnectedClients (sh : StreamHandler) : Z :=
  Z.of_nat (size (clients sh)).

(** [addClient] adds a new client connection *)
Definition addClient (client : loc) (sh : StreamHandler) : outcome StreamHandler :=
  c ← deref client sh;
  Return (set_clients (<[ID c := client]> (clients sh)) sh).

(** [removeClient] removes a client connection *)
Definition removeClient (clientID : string) (sh : StreamHandler) : StreamHandler :=
  set_clients (delete clientID (clients sh)) sh.

(** [sendHeartbeat] sends heartbeat to all connected clients *)
Definition sendHeartbeat (sh : StreamHandler) : outcome StreamHandler :=
  let clients := snapshot sh in
  sh' ← for_each (λ client sh,
           sendEvent client "heartbeat"
             (VMap [("timestamp", VInt (now sh / second))]) sh) clients sh;
  Return (set_logger (Logger.Debug "Sent heartbeat to clients") sh').

(** [generateClientID] generates a unique client ID *)
Definition generateClientID (sh : StreamHandler) : string :=
  "client_" +:+ pretty (now sh).

(** [Start] begins the background processes for the stream handler *)
Definition Start (sh : StreamHandler) : StreamHandler :=
  set_stop (stopCh sh) (S (wg sh)) sh.

(** [close(client.Done)] on the object behind a pointer. *)
Definition close_done (client : loc) (sh : StreamHandler) : outcome StreamHandler :=
  c ← deref client sh;
  done ← close (Done c);
  Return (store client {| ID := ID c; Writer := Writer c; Done := done;
                          LastSeen := LastSeen c |} sh).

(** [Stop] gracefully stops the stream handler.  Closing [stopCh] makes
    the heartbeat loops return, so [wg.Wait()] finds the counter at zero. *)
Definition Stop (sh : StreamHandler) : outcome StreamHandler :=
  stop ← close (stopCh sh);
  let sh := set_stop stop 0 sh in
  sh ← for_each close_done (snapshot sh) sh;
  Return (set_clients ∅ sh).

(** [http.Error(w, msg, code)] *)
Definition http_Error (msg : string) (code : Z) (w : ResponseWriter)
  : ResponseWriter :=
  {| header := <["X-Content-Type-Options" := "nosniff"]>
                 (<["Content-Type" := "text/plain; charset=utf-8"]> (header w));
     status := code;
     written := if broken w then written w else written w ++ [msg +:+ newline];
     flushed := flushed w; broken := broken w; can_flush := can_flush w |}.

Definition sse_headers (w : ResponseWriter) : ResponseWriter :=
  {| header := <["Access-Control-Allow-Headers" := "Cache-Control"]>
                 (<["Access-Control-Allow-Origin" := "*"]>
                 (<["Connection" := "keep-alive"]>
                 (<["Cache-Control" := "no-cache"]>
                 (<["Content-Type" := "text/event-stream"]> (header w)))));
     status := status w; written := written w; flushed := flushed w;
     broken := broken w; can_flush := can_flush w |}.

(** [&ClientConnection{...}]: a fresh object. *)
Definition alloc (c : ClientConnection) (sh : StreamHandler) : loc * StreamHandler :=
  let client := fresh (dom (heap sh)) in
  (client, store client c sh).

(** [HandleSSE] handles incoming SSE connection requests.  This is the part
    up to the blocking [select]: it returns the writer when the request is
    refused, and the registered connection otherwise. *)
Definition HandleSSE (w : ResponseWriter) (sh : StreamHandler)
  : outcome ((ResponseWriter + loc) * StreamHandler) :=
  if negb (can_flush w) then
    let sh :=
      set_logger
        (Logger.Error "SSE not supported: ResponseWriter does not support flushing")
        sh in
    Return (inl (http_Error "SSE not supported" 500 w), sh)
  else
    let w := sse_headers w in
    let clientID := generateClientID sh in
    let '(client, sh) :=
      alloc {| ID := clientID; Writer := w; Done := Open; LastSeen := now sh |} sh in
    sh ← addClient client sh;
    let sh := set_logger (Logger.Info "SSE client connected") sh in
    sh ← sendEvent client "connected"
           (VMap [("clientId", VStr clientID);
                  ("message", VStr "Connected to MCP stream")]) sh;
    Return (inr client, sh).

(** The rest of [HandleSSE]: once the request context is done or
    [client.Done] is closed the [select] returns and the deferred
    [removeClient(clientID)] runs. *)
Definition HandleSSE_return (client : loc) (sh : StreamHandler)
  : outcome StreamHandler :=
  c ← deref client sh;
  let sh :=
    if ready (Done c) then
      set_logger (Logger.Info "SSE client disconnected (connection closed)") sh
    else
      set_logger (Logger.Info "SSE client disconnected (context cancelled)") sh in
  Return (removeClient (ID c) sh).

(** [*StreamHandler] implements [StreamHandlerInterface]. *)
#[global] Instance StreamHandler_interface
  : Streamer.StreamHandlerInterface StreamHandler := {|
  Streamer.BroadcastMessage := BroadcastMessage;
  Streamer.SendToClient := SendToClient;
  Streamer.GetConnectedClients := GetConnectedClients;
|}.

(** [GetStreamer] returns the MCPStreamer instance: the streamer created by
    [NewStreamHandler], which points back to this handler. *)
Definition GetStreamer (sh : StreamHandler) : Streamer.MCPStreamer StreamHandler :=
  Streamer.NewMCPStreamer (logger sh) (Some sh).

End Handler.

(* ===================================================================== *)
(** * The hub as a machine: its entry points, one call at a time *)
(* ===================================================================== *)

Module Hub.
Import Handler.

(** The calls the rest of the server and the HTTP front end make on a
    [StreamHandler] and on its streamer, plus the passing of time. *)
Inductive op : Type :=
| Start_
| Stop_
| HandleSSE_ (w : ResponseWriter)
| HandleSSE_return_ (client : loc)
| BroadcastMessage_ (eventType : string) (data : value)
| SendToClient_ (clientID eventType : string) (data : value)
| sendHeartbeat_
| StreamMessage_ (message : JSONRPCMessage)
| StreamMessageToClient_ (clientID : string) (message : JSONRPCMessage)
| StreamError_ (errorCode : Z) (message : string) (data : value)
| Clock_ (t : Z).

(** The handler a call on its streamer leaves behind.  The streamer logs
    to the logger of the handler: the lines it added follow those the
    handler wrote during the call. *)
Definition handler_after (sh : StreamHandler)
  (r : outcome (error * Streamer.MCPStreamer StreamHandler)) : outcome StreamHandler :=
  r ← r;
  let lines := drop (length (logger sh)) (Streamer.logger r.2) in
  Return (set_logger (λ l, l ++ lines) (default sh (Streamer.streamHandler r.2))).

Definition run_op (o : op) (sh : StreamHandler) : outcome StreamHandler :=
  match o with
  | Start_ => Return (Start sh)
  | Stop_ => Stop sh
  | HandleSSE_ w => r ← HandleSSE w sh; Return r.2
  | HandleSSE_return_ client => HandleSSE_return client sh
  | BroadcastMessage_ eventType data => BroadcastMessage eventType data sh
  | SendToClient_ clientID eventType data => SendToClient clientID eventType data sh
  | sendHeartbeat_ => sendHeartbeat sh
  | StreamMessage_ message =>
      handler_after sh (Streamer.StreamMessage message (GetStreamer sh))
  | StreamMessageToClient_ clientID message =>
      handler_after sh (Streamer.StreamMessageToClient clientID message (GetStreamer sh))
  | StreamError_ errorCode message data =>
      handler_after sh (Streamer.StreamError errorCode message data (GetStreamer sh))
  | Clock_ t => Return (set_now t sh)
  end.

Definition run (ops : list op) (sh : StreamHandler) : outcome StreamHandler :=
  for_each run_op ops sh.

(** Every pointer in the registry leads to a connection filed under its own
    [ID]. *)
Definition wf (sh : StreamHandler) : Prop :=
  ∀ id client, clients sh !! id = Some client →
    ∃ c, heap sh !! client = Some c ∧ ID c = id.

(** What one call of [sendEvent] at clock reading [t] does to a connection. *)
Definition delivered (eventType : string) (data : value) (t : Z)
  (c : ClientConnection) : ClientConnection :=
  if ready (Done c) then c
  else
    match Write (formatSSEEvent eventType data) (Writer c) with
    | Err _ =>
        {| ID := ID c; Writer := Writer c; Done := Closed; LastSeen := LastSeen c |}
    | Ok w =>
        {| ID := ID c; Writer := Flush w; Done := Done c; LastSeen := t |}
    end.

(** [deliver_all f ps h]: the heap after each connection of [ps] went
    through [f] once. *)
Definition deliver_all (f : ClientConnection → ClientConnection)
  (ps : list loc) (h : gmap loc ClientConnection) : gmap loc ClientConnection :=
  foldl (λ h p, alter f p h) h ps.

(** [sh'] differs from [sh] in its connection objects, now [h'], in the
    deliveries [ds] it made, and in its log. *)
Definition delivers (sh sh' : StreamHandler) (h' : gmap loc ClientConnection)
  (ds : list (loc * string * value)) : Prop :=
  clients sh' = clients sh ∧ stopCh sh' = stopCh sh ∧ wg sh' = wg sh ∧
  heartbeat sh' = heartbeat sh ∧ now sh' = now sh ∧
  heap sh' = h' ∧ deliveries sh' = deliveries sh ++ ds.

(** A connection whose [Done] channel has been closed. *)
Definition fired (c : ClientConnection) : ClientConnection :=
  {| ID := ID c; Writer := Writer c; Done := Closed; LastSeen := LastSeen c |}.

(** What the calls of the hub can do to one connection object: nothing, one
    delivery, or the closing of its open [Done] channel. *)
Inductive conn_step (c : ClientConnection) : ClientConnection → Prop :=
| conn_same : conn_step c c
| conn_delivered eventType data t : conn_step c (delivered eventType data t c)
| conn_fired : Done c = Open → conn_step c (fired c).

(** A connection the call could reach: registered before the call, or
    allocated by it. *)
Definition reachable (sh : StreamHandler) (p : loc) : Prop :=
  (∃ id, clients sh !! id = Some p) ∨ heap sh !! p = None.

(** One call seen from the connection objects: each object takes a
    [conn_step], an object no id leads to stays as it is, an id of the
    new registry leads where it led before or to an object allocated by the
    call, and the deliveries made went to reachable connections. *)
Definition hub_step (sh sh' : StreamHandler) : Prop :=
  (∀ p c, heap sh !! p = Some c →
     ∃ c', heap sh' !! p = Some c' ∧ conn_step c c' ∧
       ((∀ id, clients sh !! id ≠ Some p) → c' = c)) ∧
  (∀ id p, clients sh' !! id = Some p →
     clients sh !! id = Some p ∨ heap sh !! p = None) ∧
  (∃ ds, deliveries sh' = deliveries sh ++ ds ∧
     ∀ d, d ∈ ds → reachable sh d.1.1).

(** [wf], as a test. *)
Definition wf_check (sh : StreamHandler) : bool :=
  forallb (λ e : string * loc,
             match heap sh !! e.2 with
             | Some c => bool_decide (ID c = e.1)
             | None => false
             end) (map_to_list (clients sh)).

(** A connection that can take a frame: signal not fired, sink accepting. *)
Definition live (c : ClientConnection) : bool :=
  negb (ready (Done c)) && negb (broken (Writer c)).

(** The frames of the deliveries of [ds] that went to connection [p],
    oldest first. *)
Definition frames_for (p : loc) (ds : list (loc * string * value)) : list string :=
  (λ d, formatSSEEvent d.1.2 d.2) <$> filter (λ d, d.1.1 = p) ds.

(** From [sh] to [sh'] the deliveries [ds] were made, every connection
    object is still there, and a connection that can still take a frame
    could take one before and has been written the frames of its
    deliveries, nothing else. *)
Definition receives (sh sh' : StreamHandler) (ds : list (loc * string * value))
  : Prop :=
  deliveries sh' = deliveries sh ++ ds ∧
  ∀ p c, heap sh !! p = Some c →
    ∃ c', heap sh' !! p = Some c' ∧
      (live c' = true →
         live c = true ∧
         written (Writer c') = written (Writer c) ++ frames_for p ds).

End Hub.

(* ===================================================================== *)
(** * The shapes of a message, as the design document words them *)
(* ===================================================================== *)

Module Shapes.

Inductive category : Type :=
| Notification
| Request
| ErrorResponse
| SuccessResponse
| Malformed.

Definition has_id (m : JSONRPCMessage) : bool := negb (is_nil (ID m)).
Definition has_result (m : JSONRPCMessage) : bool := negb (is_nil (Result m)).
Definition has_error (m : JSONRPCMessage) : bool := bool_decide (Error m ≠ None).

(** The precedence list as it is worded: notification (method present, no
    correlation id), then request (method and correlation id present), then
    error response (no method, error field present), then success response
    (no method, result field present, no error); anything else is
    malformed. *)
Definition precedence_as_worded (m : JSONRPCMessage) : category :=
  if has_method m && negb (has_id m) then Notification
  else if has_method m && has_id m then Request
  else if negb (has_method m) && has_error m then ErrorResponse
  else if negb (has_method m) && has_result m && negb (has_error m) then SuccessResponse
  else Malformed.

(** The same list with the correlation id required of both response
    shapes. *)
Definition precedence_with_id (m : JSONRPCMessage) : category :=
  if has_method m && negb (has_id m) then Notification
  else if has_method m && has_id m then Request
  else if negb (has_method m) && has_id m && has_error m then ErrorResponse
  else if negb (has_method m) && has_id m && has_result m && negb (has_error m)
       then SuccessResponse
  else Malformed.

(** The event type a category is delivered under. *)
Definition event_type (c : category) : string :=
  match c with
  | Notification => "mcp_notification"
  | Request => "mcp_request"
  | ErrorResponse => "mcp_error"
  | SuccessResponse => "mcp_response"
  | Malformed => "mcp_message"
  end.

(** The message-type string a payload restates, if any. *)
Definition message_type (m : JSONRPCMessage) : option string :=
  if IsRequest m then Some MessageTypeRequest
  else if IsResponse m then Some MessageTypeResponse
  else if IsNotification m then Some MessageTypeNotification
  else None.

(** A message matching none of the shapes. *)
Definition malformed (m : JSONRPCMessage) : bool :=
  negb (IsRequest m) && negb (IsResponse m) && negb (IsNotification m).


End Shapes.

(* ===================================================================== *)
(** * [mcp_streamer_test.go]: the recording test double *)
(* ===================================================================== *)

Module Mock.

Record broadcastCall : Type := {
  bc_eventType : string;
  bc_data : value;
}.

Record clientCall : Type := {
  cc_clientID : string;
  cc_eventType : string;
  cc_data : value;
}.

(** [mockStreamHandler] implements StreamHandlerInterface for testing *)
Record mockStreamHandler : Type := {
  broadcastCalls : list broadcastCall;
  clientCalls : list clientCall;
  clientCount : Z;
}.

Definition newMockStreamHandler : mockStreamHandler :=
  {| broadcastCalls := []; clientCalls := []; clientCount := 0 |}.

Definition BroadcastMessage (eventType : string) (data : value)
  (m : mockStreamHandler) : outcome mockStreamHandler :=
  Return {| broadcastCalls :=
              broadcastCalls m ++ [{| bc_eventType := eventType; bc_data := data |}];
            clientCalls := clientCalls m; clientCount := clientCount m |}.

Definition SendToClient (clientID eventType : string) (data : value)
  (m : mockStreamHandler) : outcome mockStreamHandler :=
  Return {| broadcastCalls := broadcastCalls m;
            clientCalls :=
              clientCalls m ++ [{| cc_clientID := clientID;
                                   cc_eventType := eventType; cc_data := data |}];
            clientCount := clientCount m |}.

Definition GetConnectedClients (m : mockStreamHandler) : Z := clientCount m.

Definition SetConnectedClients (count : Z) (m : mockStreamHandler)
  : mockStreamHandler :=
  {| broadcastCalls := broadcastCalls m; clientCalls := clientCalls m;
     clientCount := count |}.

#[global] Instance mockStreamHandler_interface
  : Streamer.StreamHandlerInterface mockStreamHandler := {|
  Streamer.BroadcastMessage := BroadcastMessage;
  Streamer.SendToClient := SendToClient;
  Streamer.GetConnectedClients := GetConnectedClients;
|}.

End Mock.

(* ===================================================================== *)
(** * Goroutines: the delivery paths one statement at a time *)
(* ===================================================================== *)

Module Concurrent.
Import Handler.

(** The calls that run concurrently against one [StreamHandler]. *)
Inductive call : Type :=
| Broadcast (eventType : string) (data : value)
| Unicast (clientID eventType : string) (data : value)
| Heartbeat
| Remove (clientID : string)
| Connect (clientID : string) (client : loc).

(** Where a goroutine stands.  For a delivering call: the three statements
    under [clientsMux.RLock], the loop over the copied clients, and the
    statements of [sendEvent], with the call of [Writer.Write] split into
    its entry and its return.  For [removeClient]: the three statements
    under [clientsMux.Lock].  [Connect clientID client] is [HandleSSE] from
    [sh.addClient(client)] to the end of its [sendEvent]: the three
    statements of [addClient] under [clientsMux.Lock], [AtDelete] being the
    one that changes the map, then the statements of [sendEvent] for the
    [connected] event; [client] is the object [HandleSSE] has built and
    [clientID] its local variable. *)
Inductive pc : Type :=
| AtRLock
| AtCopy
| AtRUnlock (todo : list loc)
| AtLoop (todo : list loc)
| AtSelect (client : loc) (todo : list loc)
| AtFprint (client : loc) (todo : list loc)
| InWrite (client : loc) (todo : list loc)
| AtClose (client : loc) (todo : list loc)
| AtFlush (client : loc) (todo : list loc)
| AtLastSeen (client : loc) (todo : list loc)
| AtLock
| AtDelete
| AtUnlock
| Finished
| Panicked.

Definition goroutine : Type := call * pc.

(** [clientsMux] is [mux_readers] and [mux_writer]; the connection objects
    are those of [Handler]. *)
Record config : Type := {
  registry : gmap string loc;
  objects : gmap loc ClientConnection;
  mux_readers : nat;
  mux_writer : bool;
  clock : Z;
  goroutines : list goroutine;
  crashed : bool;
}.

Definition start (c : call) : goroutine :=
  match c with
  | Remove _ => (c, AtLock)
  | Connect _ _ => (c, AtLock)
  | _ => (c, AtRLock)
  end.

Definition spawn (registry : gmap string loc)
  (objects : gmap loc ClientConnection) (clock : Z) (calls : list call) : config :=
  {| registry := registry; objects := objects; mux_readers := 0;
     mux_writer := false; clock := clock; goroutines := start <$> calls;
     crashed := false |}.

(** The event a delivering call sends. *)
Definition event (c : call) (clock : Z) : string :=
  match c with
  | Broadcast eventType data => formatSSEEvent eventType data
  | Unicast _ eventType data => formatSSEEvent eventType data
  | Heartbeat =>
      formatSSEEvent "heartbeat" (VMap [("timestamp", VInt (clock / second))])
  | Remove _ => ""
  | Connect clientID _ =>
      formatSSEEvent "connected"
        (VMap [("clientId", VStr clientID);
               ("message", VStr "Connected to MCP stream")])
  end.

(** The clients a delivering call copies out of the map. *)
Definition targets (c : call) (registry : gmap string loc) : list loc :=
  match c with
  | Unicast clientID _ _ =>
      match registry !! clientID with
      | Some client => [client]
      | None => []
      end
  | Remove _ => []
  | Connect _ _ => []
  | _ => (map_to_list registry).*2
  end.

Definition move (i : nat) (g : goroutine) (cfg : config) : config :=
  {| registry := registry cfg; objects := objects cfg;
     mux_readers := mux_readers cfg; mux_writer := mux_writer cfg;
     clock := clock cfg; goroutines := <[i := g]> (goroutines cfg);
     crashed := crashed cfg |}.

Definition set_mux (readers : nat) (writer : bool) (cfg : config) : config :=
  {| registry := registry cfg; objects := objects cfg;
     mux_readers := readers; mux_writer := writer;
     clock := clock cfg; goroutines := goroutines cfg; crashed := crashed cfg |}.

Definition set_object (client : loc) (c : ClientConnection) (cfg : config) : config :=
  {| registry := registry cfg; objects := <[client := c]> (objects cfg);
     mux_readers := mux_readers cfg; mux_writer := mux_writer cfg;
     clock := clock cfg; goroutines := goroutines cfg; crashed := crashed cfg |}.

Definition set_registry (m : gmap string loc) (cfg : config) : config :=
  {| registry := m; objects := objects cfg;
     mux_readers := mux_readers cfg; mux_writer := mux_writer cfg;
     clock := clock cfg; goroutines := goroutines cfg; crashed := crashed cfg |}.

Definition set_crashed (cfg : config) : config :=
  {| registry := registry cfg; objects := objects cfg;
     mux_readers := mux_readers cfg; mux_writer := mux_writer cfg;
     clock := clock cfg; goroutines := goroutines cfg; crashed := true |}.

(** A panic in goroutine [i] takes the process down. *)
Definition crash (i : nat) (c : call) (cfg : config) : config :=
  set_crashed (move i (c, Panicked) cfg).

(** One statement of goroutine [i]; [None] when it cannot run: the process
    has crashed, the goroutine has returned, or it waits for the lock. *)
Definition step (i : nat) (cfg : config) : option config :=
  if crashed cfg then None else
  match goroutines cfg !! i with
  | None => None
  | Some (c, at_) =>
      match at_ with
      | AtRLock =>
          if mux_writer cfg then None
          else Some (move i (c, AtCopy) (set_mux (S (mux_readers cfg)) false cfg))
      | AtCopy => Some (move i (c, AtRUnlock (targets c (registry cfg))) cfg)
      | AtRUnlock todo =>
          Some (move i (c, AtLoop todo)
                  (set_mux (pred (mux_readers cfg)) (mux_writer cfg) cfg))
      | AtLoop [] => Some (move i (c, Finished) cfg)
      | AtLoop (client :: todo) => Some (move i (c, AtSelect client todo) cfg)
      | AtSelect client todo =>
          match objects cfg !! client with
          | None => Some (crash i c cfg)
          | Some o =>
              if ready (Done o) then Some (move i (c, AtLoop todo) cfg)
              else Some (move i (c, AtFprint client todo) cfg)
          end
      | AtFprint client todo => Some (move i (c, InWrite client todo) cfg)
      | InWrite client todo =>
          match objects cfg !! client with
          | None => Some (crash i c cfg)
          | Some o =>
              match Write (event c (clock cfg)) (Writer o) with
              | Err _ => Some (move i (c, AtClose client todo) cfg)
              | Ok w =>
                  Some (move i (c, AtFlush client todo)
                          (set_object client
                             {| ID := ID o; Writer := w; Done := Done o;
                                LastSeen := LastSeen o |} cfg))
              end
          end
      | AtClose client todo =>
          match objects cfg !! client with
          | None => Some (crash i c cfg)
          | Some o =>
              match close (Done o) with
              | Panic _ => Some (crash i c cfg)
              | Return done =>
                  Some (move i (c, AtLoop todo)
                          (set_object client
                             {| ID := ID o; Writer := Writer o; Done := done;
                                LastSeen := LastSeen o |} cfg))
              end
          end
      | AtFlush client todo =>
          match objects cfg !! client with
          | None => Some (crash i c cfg)
          | Some o =>
              Some (move i (c, AtLastSeen client todo)
                      (set_object client
                         {| ID := ID o; Writer := Flush (Writer o);
                            Done := Done o; LastSeen := LastSeen o |} cfg))
          end
      | AtLastSeen client todo =>
          match objects cfg !! client with
          | None => Some (crash i c cfg)
          | Some o =>
              Some (move i (c, AtLoop todo)
                      (set_object client
                         {| ID := ID o; Writer := Writer o; Done := Done o;
                            LastSeen := clock cfg |} cfg))
          end
      | AtLock =>
          if mux_writer cfg || negb (Nat.eqb (mux_readers cfg) 0) then None
          else Some (move i (c, AtDelete) (set_mux 0 true cfg))
      | AtDelete =>
          match c with
          | Remove clientID =>
              Some (move i (c, AtUnlock)
                      (set_registry (delete clientID (registry cfg)) cfg))
          | Connect _ client =>
              match objects cfg !! client with
              | None =>
                  (* the deferred [Unlock] runs while the panic unwinds *)
                  Some (crash i c (set_mux (mux_readers cfg) false cfg))
              | Some o =>
                  Some (move i (c, AtUnlock)
                          (set_registry (<[ID o := client]> (registry cfg)) cfg))
              end
          | _ => Some (move i (c, AtUnlock) cfg)
          end
      | AtUnlock =>
          let next :=
            match c with
            | Connect _ client => AtSelect client []
            | _ => Finished
            end in
          Some (move i (c, next) (set_mux (mux_readers cfg) false cfg))
      | Finished => None
      | Panicked => None
      end
  end.

(** A schedule names the goroutine that runs next. *)
Fixpoint exec (schedule : list nat) (cfg : config) : option config :=
  match schedule with
  | [] => Some cfg
  | i :: rest =>
      match step i cfg with
      | Some cfg' => exec rest cfg'
      | None => None
      end
  end.

Definition holds_read (g : goroutine) : bool :=
  match g.2 with
  | AtCopy | AtRUnlock _ => true
  | _ => false
  end.

Definition holds_write (g : goroutine) : bool :=
  match g.2 with
  | AtDelete | AtUnlock => true
  | _ => false
  end.

Definition writing_to (client : loc) (g : goroutine) : bool :=
  match g.2 with
  | InWrite client' _ => bool_decide (client' = client)
  | _ => false
  end.

Fixpoint count (f : goroutine → bool) (gs : list goroutine) : nat :=
  match gs with
  | [] => 0
  | g :: r => (if f g then 1 else 0) + count f r
  end.

(** The bookkeeping of [clientsMux]: as many readers as goroutines between
    [RLock] and [RUnlock], a writer exactly when one goroutine is between
    [Lock] and [Unlock], and then no reader. *)
Definition mux_consistent (cfg : config) : Prop :=
  mux_readers cfg = count holds_read (goroutines cfg) ∧
  count holds_write (goroutines cfg) = (if mux_writer cfg then 1 else 0)%nat ∧
  (mux_writer cfg = true → mux_readers cfg = 0%nat).

(** Mutual exclusion of the writes to one sink. *)
Definition write_exclusive (cfg : config) : Prop :=
  ∀ client, (count (writing_to client) (goroutines cfg) ≤ 1)%nat.

(** A goroutine at [at_] holds the pointer [p]: it is delivering to [p] or
    has [p] among the clients it copied and has not served yet. *)
Definition holds (p : loc) (at_ : pc) : bool :=
  match at_ with
  | AtRUnlock todo | AtLoop todo => bool_decide (p ∈ todo)
  | AtSelect client todo | AtFprint client todo | InWrite client todo
  | AtClose client todo | AtFlush client todo | AtLastSeen client todo =>
      bool_decide (client = p) || bool_decide (p ∈ todo)
  | _ => false
  end.

(** No goroutine can get at the connection [p]: no id of the registry
    leads to it, no goroutine holds it, and none is the [HandleSSE] that
    built it. *)
Definition out_of_reach (p : loc) (cfg : config) : Prop :=
  (∀ id, registry cfg !! id ≠ Some p) ∧
  ∀ i c at_, goroutines cfg !! i = Some (c, at_) →
    holds p at_ = false ∧ ∀ id, c ≠ Connect id p.

End Concurrent.

(* ===================================================================== *)
(** * [Handler]: the MCP requests and their answers *)
(* ===================================================================== *)

Module Protocol.
Import Handler.

(** Protocol version constants *)
Definition MCPVersion : string := "2024-11-05".

(** Standard MCP methods *)
Definition MethodInitialize : string := "initialize".
Definition MethodInitialized : string := "initialized".
Definition MethodListTools : string := "tools/list".
Definition MethodCallTool : string := "tools/call".
Definition MethodListResources : string := "resources/list".
Definition MethodReadResource : string := "resources/read".
Definition MethodListResourceTemplates : string := "resources/templates/list".
Definition MethodPing : string := "ping".

(** Standard JSON-RPC error codes *)
Definition ErrorCodeParseError : Z := -32700.
Definition ErrorCodeInvalidRequest : Z := -32600.
Definition ErrorCodeMethodNotFound : Z := -32601.
Definition ErrorCodeInvalidParams : Z := -32602.
Definition ErrorCodeInternalError : Z := -32603.

(** MCP-specific error codes *)
Definition ErrorCodeResourceNotFound : Z := -32001.
Definition ErrorCodeToolNotFound : Z := -32002.
Definition ErrorCodeInvalidTool : Z := -32003.

(** [ClientInfo] represents client information *)
Record ClientInfo : Type := {
  ClientInfo_Name : string;
  ClientInfo_Version : string;
}.

(** [InitializeRequest] represents the initialize request; the two
    capability maps and [Meta] are kept as values. *)
Record InitializeRequest : Type := {
  ProtocolVersion : string;
  Capabilities : value;
  clientInfo : ClientInfo;
  Meta : value;
}.

(** [Tool] represents an MCP tool *)
Record Tool : Type := {
  Name : string;
  Description : string;
  InputSchema : value;
}.

(** [CallToolRequest] represents a tool call request *)
Record CallToolRequest : Type := {
  CallToolRequest_Name : string;
  Arguments : value;
}.

(** [Content] represents content in MCP responses *)
Record Content : Type := {
  Content_Type : string;
  Content_Text : string;
  Content_Data : string;
  Content_MimeType : string;
}.

(** [CallToolResult] represents the result of a tool call *)
Record CallToolResult : Type := {
  CallToolResult_Content : list Content;
  CallToolResult_IsError : bool;
}.

(** [Resource] represents an MCP resource *)
Record Resource : Type := {
  URI : string;
  Resource_Name : string;
  Resource_Description : string;
  MimeType : string;
}.

(** [ReadResourceRequest] represents a resource read request *)
Record ReadResourceRequest : Type := {
  ReadResourceRequest_URI : string;
}.

(** [ResourceContent] represents resource content *)
Record ResourceContent : Type := {
  ResourceContent_URI : string;
  ResourceContent_MimeType : string;
  Text : string;
  Blob : string;
}.

(** [ReadResourceResult] represents the result of reading a resource *)
Record ReadResourceResult : Type := {
  Contents : list ResourceContent;
}.

(** ** Results as [interface{}] values

    A struct stored in [Result] is seen only by [encoding/json]; it is
    represented by the object the encoder makes of it, following the tags
    of the struct: a string field tagged [omitempty] is left out when
    empty, a [bool] tagged [omitempty] when false. *)

Definition omitempty_string (k s : string) : list (string * value) :=
  if bool_decide (s = "") then [] else [(k, VStr s)].

Definition omitempty_bool (k : string) (b : bool) : list (string * value) :=
  if b then [(k, VBool true)] else [].

Definition Tool_object (t : Tool) : value :=
  VMap ([("name", VStr (Name t))]
        ++ omitempty_string "description" (Description t)
        ++ [("inputSchema", InputSchema t)]).

Definition Resource_object (r : Resource) : value :=
  VMap ([("uri", VStr (URI r)); ("name", VStr (Resource_Name r))]
        ++ omitempty_string "description" (Resource_Description r)
        ++ omitempty_string "mimeType" (MimeType r)).

Definition Content_object (c : Content) : value :=
  VMap ([("type", VStr (Content_Type c))]
        ++ omitempty_string "text" (Content_Text c)
        ++ omitempty_string "data" (Content_Data c)
        ++ omitempty_string "mimeType" (Content_MimeType c)).

Definition CallToolResult_object (r : CallToolResult) : value :=
  VMap ([("content", VList (Content_object <$> CallToolResult_Content r))]
        ++ omitempty_bool "isError" (CallToolResult_IsError r)).

Definition ResourceContent_object (c : ResourceContent) : value :=
  VMap ([("uri", VStr (ResourceContent_URI c))]
        ++ omitempty_string "mimeType" (ResourceContent_MimeType c)
        ++ omitempty_string "text" (Text c)
        ++ omitempty_string "blob" (Blob c)).

Definition ReadResourceResult_object (r : ReadResourceResult) : value :=
  VMap [("contents", VList (ResourceContent_object <$> Contents r))].

(** [ToolsListResult{Tools: tools}] *)
Definition ToolsListResult (tools : list Tool) : value :=
  VMap [("tools", VList (Tool_object <$> tools))].

(** [ResourcesListResult{Resources: resources}] *)
Definition ResourcesListResult (resources : list Resource) : value :=
  VMap [("resources", VList (Resource_object <$> resources))].

(** [ResourceTemplatesListResult{ResourceTemplates: []ResourceTemplate{}}] *)
Definition ResourceTemplatesListResult : value :=
  VMap [("resourceTemplates", VList [])].

(** The [InitializeResult] of [handleInitialize]: both capabilities are
    present with every flag false, hence empty objects. *)
Definition InitializeResult : value :=
  VMap [("protocolVersion", VStr MCPVersion);
        ("capabilities", VMap [("tools", VMap []); ("resources", VMap [])]);
        ("serverInfo",
         VMap [("name", VStr "github-mcp-server"); ("version", VStr "1.0.0")]);
        ("instructions",
         VStr "GitHub MCP Server - Provides access to GitHub API through MCP protocol")].

(** ** Outside the handler *)

(** What the handler calls and this development does not open: the
    decoders of [encoding/json], its encoder applied to a whole message,
    and the bodies of the tools, which call the GitHub API.  [execute] is
    one run of the function [executeTool] selects. *)
Class Backend : Type := {
  Unmarshal_JSONRPCMessage : string → result JSONRPCMessage;
  Unmarshal_InitializeRequest : string → result InitializeRequest;
  Unmarshal_CallToolRequest : string → result CallToolRequest;
  Unmarshal_ReadResourceRequest : string → result ReadResourceRequest;
  Marshal_JSONRPCMessage : JSONRPCMessage → result string;
  execute : string → value → result CallToolResult;
}.

(** [ToJSON] converts the message to JSON *)
Definition ToJSON `{Backend} (m : JSONRPCMessage) : result string :=
  Marshal_JSONRPCMessage m.

(** [FromJSON] parses a JSON-RPC message from JSON *)
Definition FromJSON `{Backend} (data : string) : result JSONRPCMessage :=
  match Unmarshal_JSONRPCMessage data with
  | Err err => Err ("failed to parse JSON-RPC message: " +:+ err)
  | Ok msg =>
      if bool_decide (JSONRPC msg ≠ "2.0") then
        Err ("invalid JSON-RPC version: " +:+ JSONRPC msg)
      else Ok msg
  end.

(** [GetParams] unmarshals the params into the provided interface *)
Definition GetParams {A} (Unmarshal : string → result A) (m : JSONRPCMessage)
  : result A :=
  if is_nil (Params m) then Err "no params in message"
  else
    match Marshal (Params m) with
    | Err err => Err ("failed to marshal params: " +:+ err)
    | Ok data =>
        match Unmarshal data with
        | Err err => Err ("failed to unmarshal params: " +:+ err)
        | Ok v => Ok v
        end
    end.

(** ** The handler *)

(** [Handler] handles MCP protocol requests.  [streamer] is [None] for a
    nil pointer; the GitHub client is behind [execute]. *)
Record Handler : Type := {
  logger : Logger.Logger;
  initialized : bool;
  tools : list Tool;
  resources : list Resource;
  streamer : option (Streamer.MCPStreamer StreamHandler);
}.

Definition log (f : Logger.Logger → Logger.Logger) (h : Handler) : Handler :=
  {| logger := f (logger h); initialized := initialized h; tools := tools h;
     resources := resources h; streamer := streamer h |}.

Definition set_initialized (b : bool) (h : Handler) : Handler :=
  {| logger := logger h; initialized := b; tools := tools h;
     resources := resources h; streamer := streamer h |}.

(** [SetStreamer] sets the MCP streamer for this handler *)
Definition SetStreamer (streamer : option (Streamer.MCPStreamer StreamHandler))
  (h : Handler) : Handler :=
  {| logger := logger h; initialized := initialized h; tools := tools h;
     resources := resources h; streamer := streamer |}.

(** [initializeTools] initializes the available tools *)
Definition initializeTools : list Tool := [
  {| Name := "get_user";
     Description := "Get information about a GitHub user by username";
     InputSchema :=
       VMap [
         ("type", VStr "object");
         ("properties",
          VMap [
            ("username",
             VMap [("type", VStr "string"); ("description", VStr "GitHub username")])]);
         ("required", VList [VStr "username"])] |};
  {| Name := "get_authenticated_user";
     Description := "Get information about the authenticated user";
     InputSchema :=
       VMap [
         ("type", VStr "object");
         ("properties", VMap [])] |};
  {| Name := "update_authenticated_user";
     Description := "Update the authenticated user's profile";
     InputSchema :=
       VMap [
         ("type", VStr "object");
         ("properties",
          VMap [
            ("name",
             VMap [
               ("type", VStr "string");
               ("description", VStr "The new name of the user")]);
            ("email",
             VMap [
               ("type", VStr "string");
               ("description", VStr "The publicly visible email address of the user")]);
            ("blog",
             VMap [
               ("type", VStr "string");
               ("description", VStr "The new blog URL of the user")]);
            ("company",
             VMap [
               ("type", VStr "string");
               ("description", VStr "The new company of the user")]);
            ("location",
             VMap [
               ("type", VStr "string");
               ("description", VStr "The new location of the user")]);
            ("hireable",
             VMap [
               ("type", VStr "boolean");
               ("description", VStr "The new hiring availability of the user")]);
            ("bio",
             VMap [
               ("type", VStr "string");
               ("description", VStr "The new short biography of the user")]);
            ("twitter_username",
             VMap [
               ("type", VStr "string");
               ("description", VStr "The new Twitter username of the user")])])] |};
  {| Name := "list_users";
     Description := "List all GitHub users";
     InputSchema :=
       VMap [
         ("type", VStr "object");
         ("properties",
          VMap [
            ("since",
             VMap [
               ("type", VStr "integer");
               ("description", VStr "A user ID. Only return users with an ID greater than this ID");
               ("minimum", VInt 0)]);
            ("per_page",
             VMap [
               ("type", VStr "integer");
               ("description", VStr "The number of results per page (max 100)");
               ("minimum", VInt 1);
               ("maximum", VInt 100);
               ("default", VInt 30)])])] |};
  {| Name := "list_user_followers";
     Description := "List followers of a user";
     InputSchema :=
       VMap [
         ("type", VStr "object");
         ("properties",
          VMap [
            ("username",
             VMap [("type", VStr "string"); ("description", VStr "GitHub username")]);
            ("page",
             VMap [
               ("type", VStr "integer");
               ("description", VStr "Page number of the results to fetch");
               ("minimum", VInt 1);
               ("default", VInt 1)]);
            ("per_page",
             VMap [
               ("type", VStr "integer");
               ("description", VStr "The number of results per page (max 100)");
               ("minimum", VInt 1);
               ("maximum", VInt 100);
               ("default", VInt 30)])]);
         ("required", VList [VStr "username"])] |};
  {| Name := "list_user_following";
     Description := "List users followed by a user";
     InputSchema :=
       VMap [
         ("type", VStr "object");
         ("properties",
          VMap [
            ("username",
             VMap [("type", VStr "string"); ("description", VStr "GitHub username")]);
            ("page",
             VMap [
               ("type", VStr "integer");
               ("description", VStr "Page number of the results to fetch");
               ("minimum", VInt 1);
               ("default", VInt 1)]);
            ("per_page",
             VMap [
               ("type", VStr "integer");
               ("description", VStr "The number of results per page (max 100)");
               ("minimum", VInt 1);
               ("maximum", VInt 100);
               ("default", VInt 30)])]);
         ("required", VList [VStr "username"])] |};
  {| Name := "check_user_following";
     Description := "Check if the authenticated user follows another user";
     InputSchema :=
       VMap [
         ("type", VStr "object");
         ("properties",
          VMap [
            ("username",
             VMap [
               ("type", VStr "string");
               ("description", VStr "GitHub username to check")])]);
         ("required", VList [VStr "username"])] |};
  {| Name := "follow_user";
     Description := "Follow a user";
     InputSchema :=
       VMap [
         ("type", VStr "object");
         ("properties",
          VMap [
            ("username",
             VMap [
               ("type", VStr "string");
               ("description", VStr "GitHub username to follow")])]);
         ("required", VList [VStr "username"])] |};
  {| Name := "unfollow_user";
     Description := "Unfollow a user";
     InputSchema :=
       VMap [
         ("type", VStr "object");
         ("properties",
          VMap [
            ("username",
             VMap [
               ("type", VStr "string");
               ("description", VStr "GitHub username to unfollow")])]);
         ("required", VList [VStr "username"])] |};
  {| Name := "list_repositories";
     Description := "List repositories for a user or organization";
     InputSchema :=
       VMap [
         ("type", VStr "object");
         ("properties",
          VMap [
            ("owner",
             VMap [
               ("type", VStr "string");
               ("description", VStr "Repository owner (username or organization)")]);
            ("type",
             VMap [
               ("type", VStr "string");
               ("description", VStr "Repository type (all, owner, member)");
               ("enum", VList [VStr "all"; VStr "owner"; VStr "member"]);
               ("default", VStr "owner")])]);
         ("required", VList [VStr "owner"])] |};
  {| Name := "get_organization";
     Description := "Get information about a GitHub organization";
     InputSchema :=
       VMap [
         ("type", VStr "object");
         ("properties",
          VMap [
            ("org",
             VMap [("type", VStr "string"); ("description", VStr "Organization name")])]);
         ("required", VList [VStr "org"])] |};
  {| Name := "update_organization";
     Description := "Update an organization's profile";
     InputSchema :=
       VMap [
         ("type", VStr "object");
         ("properties",
          VMap [
            ("org",
             VMap [("type", VStr "string"); ("description", VStr "Organization name")]);
            ("name",
             VMap [
               ("type", VStr "string");
               ("description", VStr "The organization's display name")]);
            ("description",
             VMap [
               ("type", VStr "string");
               ("description", VStr "The organization's description")]);
            ("company",
             VMap [
               ("type", VStr "string");
               ("description", VStr "The organization's company name")]);
            ("blog",
             VMap [
               ("type", VStr "string");
               ("description", VStr "The organization's blog URL")]);
            ("location",
             VMap [
               ("type", VStr "string");
               ("description", VStr "The organization's location")]);
            ("email",
             VMap [
               ("type", VStr "string");
               ("description", VStr "The organization's email")]);
            ("twitter_username",
             VMap [
               ("type", VStr "string");
               ("description", VStr "The organization's Twitter username")]);
            ("billing_email",
             VMap [
               ("type", VStr "string");
               ("description", VStr "The organization's billing email")]);
            ("has_organization_projects",
             VMap [
               ("type", VStr "boolean");
               ("description", VStr "Whether organization projects are enabled")]);
            ("has_repository_projects",
             VMap [
               ("type", VStr "boolean");
               ("description", VStr "Whether repository projects are enabled")]);
            ("default_repository_permission",
             VMap [
               ("type", VStr "string");
               ("description", VStr "Default permission level members have for organization repositories");
               ("enum", VList [VStr "read"; VStr "write"; VStr "admin"; VStr "none"])]);
            ("members_can_create_repositories",
             VMap [
               ("type", VStr "boolean");
               ("description", VStr "Whether members can create repositories")])]);
         ("required", VList [VStr "org"])] |};
  {| Name := "list_organizations";
     Description := "List all GitHub organizations";
     InputSchema :=
       VMap [
         ("type", VStr "object");
         ("properties",
          VMap [
            ("since",
             VMap [
               ("type", VStr "integer");
               ("description", VStr "An organization ID. Only return organizations with an ID greater than this ID");
               ("minimum", VInt 0)]);
            ("per_page",
             VMap [
               ("type", VStr "integer");
               ("description", VStr "The number of results per page (max 100)");
               ("minimum", VInt 1);
               ("maximum", VInt 100);
               ("default", VInt 30)])])] |};
  {| Name := "list_user_organizations";
     Description := "List organizations for a user";
     InputSchema :=
       VMap [
         ("type", VStr "object");
         ("properties",
          VMap [
            ("username",
             VMap [("type", VStr "string"); ("description", VStr "GitHub username")]);
            ("page",
             VMap [
               ("type", VStr "integer");
               ("description", VStr "Page number of the results to fetch");
               ("minimum", VInt 1);
               ("default", VInt 1)]);
            ("per_page",
             VMap [
               ("type", VStr "integer");
               ("description", VStr "The number of results per page (max 100)");
               ("minimum", VInt 1);
               ("maximum", VInt 100);
               ("default", VInt 30)])]);
         ("required", VList [VStr "username"])] |};
  {| Name := "list_authenticated_user_organizations";
     Description := "List organizations for the authenticated user";
     InputSchema :=
       VMap [
         ("type", VStr "object");
         ("properties",
          VMap [
            ("page",
             VMap [
               ("type", VStr "integer");
               ("description", VStr "Page number of the results to fetch");
               ("minimum", VInt 1);
               ("default", VInt 1)]);
            ("per_page",
             VMap [
               ("type", VStr "integer");
               ("description", VStr "The number of results per page (max 100)");
               ("minimum", VInt 1);
               ("maximum", VInt 100);
               ("default", VInt 30)])])] |};
  {| Name := "list_organization_members";
     Description := "List members of an organization";
     InputSchema :=
       VMap [
         ("type", VStr "object");
         ("properties",
          VMap [
            ("org",
             VMap [("type", VStr "string"); ("description", VStr "Organization name")]);
            ("filter",
             VMap [
               ("type", VStr "string");
               ("description", VStr "Filter members returned in the list");
               ("enum", VList [VStr "2fa_disabled"; VStr "all"]);
               ("default", VStr "all")]);
            ("role",
             VMap [
               ("type", VStr "string");
               ("description", VStr "Filter members returned by their role");
               ("enum", VList [VStr "all"; VStr "admin"; VStr "member"]);
               ("default", VStr "all")]);
            ("page",
             VMap [
               ("type", VStr "integer");
               ("description", VStr "Page number of the results to fetch");
               ("minimum", VInt 1);
               ("default", VInt 1)]);
            ("per_page",
             VMap [
               ("type", VStr "integer");
               ("description", VStr "The number of results per page (max 100)");
               ("minimum", VInt 1);
               ("maximum", VInt 100);
               ("default", VInt 30)])]);
         ("required", VList [VStr "org"])] |};
  {| Name := "check_organization_membership";
     Description := "Check if a user is a member of an organization";
     InputSchema :=
       VMap [
         ("type", VStr "object");
         ("properties",
          VMap [
            ("org",
             VMap [("type", VStr "string"); ("description", VStr "Organization name")]);
            ("username",
             VMap [
               ("type", VStr "string");
               ("description", VStr "GitHub username to check")])]);
         ("required", VList [VStr "org"; VStr "username"])] |};
  {| Name := "check_public_organization_membership";
     Description := "Check if a user is a public member of an organization";
     InputSchema :=
       VMap [
         ("type", VStr "object");
         ("properties",
          VMap [
            ("org",
             VMap [("type", VStr "string"); ("description", VStr "Organization name")]);
            ("username",
             VMap [
               ("type", VStr "string");
               ("description", VStr "GitHub username to check")])]);
         ("required", VList [VStr "org"; VStr "username"])] |};
  {| Name := "list_teams";
     Description := "List teams in an organization";
     InputSchema :=
       VMap [
         ("type", VStr "object");
         ("properties",
          VMap [
            ("org",
             VMap [("type", VStr "string"); ("description", VStr "Organization name")]);
            ("page",
             VMap [
               ("type", VStr "integer");
               ("description", VStr "Page number of the results to fetch");
               ("minimum", VInt 1);
               ("default", VInt 1)]);
            ("per_page",
             VMap [
               ("type", VStr "integer");
               ("description", VStr "The number of results per page (max 100)");
               ("minimum", VInt 1);
               ("maximum", VInt 100);
               ("default", VInt 30)])]);
         ("required", VList [VStr "org"])] |};
  {| Name := "get_team";
     Description := "Get a team by organization and team slug";
     InputSchema :=
       VMap [
         ("type", VStr "object");
         ("properties",
          VMap [
            ("org",
             VMap [("type", VStr "string"); ("description", VStr "Organization name")]);
            ("team_slug",
             VMap [("type", VStr "string"); ("description", VStr "Team slug")])]);
         ("required", VList [VStr "org"; VStr "team_slug"])] |};
  {| Name := "create_team";
     Description := "Create a new team in an organization";
     InputSchema :=
       VMap [
         ("type", VStr "object");
         ("properties",
          VMap [
            ("org",
             VMap [("type", VStr "string"); ("description", VStr "Organization name")]);
            ("name",
             VMap [
               ("type", VStr "string");
               ("description", VStr "The name of the team")]);
            ("description",
             VMap [
               ("type", VStr "string");
               ("description", VStr "The description of the team")]);
            ("privacy",
             VMap [
               ("type", VStr "string");
               ("description", VStr "The level of privacy this team should have");
               ("enum", VList [VStr "secret"; VStr "closed"]);
               ("default", VStr "secret")]);
            ("permission",
             VMap [
               ("type", VStr "string");
               ("description", VStr "The permission that new repositories will be added to the team with");
               ("enum", VList [VStr "pull"; VStr "push"; VStr "admin"]);
               ("default", VStr "pull")]);
            ("parent_team_id",
             VMap [
               ("type", VStr "integer");
               ("description", VStr "The ID of a team to set as the parent team")])]);
         ("required", VList [VStr "org"; VStr "name"])] |};
  {| Name := "update_team";
     Description := "Update a team";
     InputSchema :=
       VMap [
         ("type", VStr "object");
         ("properties",
          VMap [
            ("org",
             VMap [("type", VStr "string"); ("description", VStr "Organization name")]);
            ("team_slug",
             VMap [("type", VStr "string"); ("description", VStr "Team slug")]);
            ("name",
             VMap [
               ("type", VStr "string");
               ("description", VStr "The name of the team")]);
            ("description",
             VMap [
               ("type", VStr "string");
               ("description", VStr "The description of the team")]);
            ("privacy",
             VMap [
               ("type", VStr "string");
               ("description", VStr "The level of privacy this team should have");
               ("enum", VList [VStr "secret"; VStr "closed"])]);
            ("permission",
             VMap [
               ("type", VStr "string");
               ("description", VStr "The permission that new repositories will be added to the team with");
               ("enum", VList [VStr "pull"; VStr "push"; VStr "admin"])]);
            ("parent_team_id",
             VMap [
               ("type", VStr "integer");
               ("description", VStr "The ID of a team to set as the parent team")])]);
         ("required", VList [VStr "org"; VStr "team_slug"])] |};
  {| Name := "delete_team";
     Description := "Delete a team";
     InputSchema :=
       VMap [
         ("type", VStr "object");
         ("properties",
          VMap [
            ("org",
             VMap [("type", VStr "string"); ("description", VStr "Organization name")]);
            ("team_slug",
             VMap [("type", VStr "string"); ("description", VStr "Team slug")])]);
         ("required", VList [VStr "org"; VStr "team_slug"])] |};
  {| Name := "list_team_members";
     Description := "List members of a team";
     InputSchema :=
       VMap [
         ("type", VStr "object");
         ("properties",
          VMap [
            ("org",
             VMap [("type", VStr "string"); ("description", VStr "Organization name")]);
            ("team_slug",
             VMap [("type", VStr "string"); ("description", VStr "Team slug")]);
            ("role",
             VMap [
               ("type", VStr "string");
               ("description", VStr "Filter members returned by their role");
               ("enum", VList [VStr "member"; VStr "maintainer"; VStr "all"]);
               ("default", VStr "all")]);
            ("page",
             VMap [
               ("type", VStr "integer");
               ("description", VStr "Page number of the results to fetch");
               ("minimum", VInt 1);
               ("default", VInt 1)]);
            ("per_page",
             VMap [
               ("type", VStr "integer");
               ("description", VStr "The number of results per page (max 100)");
               ("minimum", VInt 1);
               ("maximum", VInt 100);
               ("default", VInt 30)])]);
         ("required", VList [VStr "org"; VStr "team_slug"])] |};
  {| Name := "get_team_membership";
     Description := "Get team membership for a user";
     InputSchema :=
       VMap [
         ("type", VStr "object");
         ("properties",
          VMap [
            ("org",
             VMap [("type", VStr "string"); ("description", VStr "Organization name")]);
            ("team_slug",
             VMap [("type", VStr "string"); ("description", VStr "Team slug")]);
            ("username",
             VMap [("type", VStr "string"); ("description", VStr "GitHub username")])]);
         ("required", VList [VStr "org"; VStr "team_slug"; VStr "username"])] |};
  {| Name := "add_team_membership";
     Description := "Add or update team membership for a user";
     InputSchema :=
       VMap [
         ("type", VStr "object");
         ("properties",
          VMap [
            ("org",
             VMap [("type", VStr "string"); ("description", VStr "Organization name")]);
            ("team_slug",
             VMap [("type", VStr "string"); ("description", VStr "Team slug")]);
            ("username",
             VMap [("type", VStr "string"); ("description", VStr "GitHub username")]);
            ("role",
             VMap [
               ("type", VStr "string");
               ("description", VStr "The role to give the user in the team");
               ("enum", VList [VStr "member"; VStr "maintainer"]);
               ("default", VStr "member")])]);
         ("required", VList [VStr "org"; VStr "team_slug"; VStr "username"])] |};
  {| Name := "remove_team_membership";
     Description := "Remove a user from a team";
     InputSchema :=
       VMap [
         ("type", VStr "object");
         ("properties",
          VMap [
            ("org",
             VMap [("type", VStr "string"); ("description", VStr "Organization name")]);
            ("team_slug",
             VMap [("type", VStr "string"); ("description", VStr "Team slug")]);
            ("username",
             VMap [("type", VStr "string"); ("description", VStr "GitHub username")])]);
         ("required", VList [VStr "org"; VStr "team_slug"; VStr "username"])] |};
  {| Name := "list_team_repositories";
     Description := "List repositories for a team";
     InputSchema :=
       VMap [
         ("type", VStr "object");
         ("properties",
          VMap [
            ("org",
             VMap [("type", VStr "string"); ("description", VStr "Organization name")]);
            ("team_slug",
             VMap [("type", VStr "string"); ("description", VStr "Team slug")]);
            ("page",
             VMap [
               ("type", VStr "integer");
               ("description", VStr "Page number of the results to fetch");
               ("minimum", VInt 1);
               ("default", VInt 1)]);
            ("per_page",
             VMap [
               ("type", VStr "integer");
               ("description", VStr "The number of results per page (max 100)");
               ("minimum", VInt 1);
               ("maximum", VInt 100);
               ("default", VInt 30)])]);
         ("required", VList [VStr "org"; VStr "team_slug"])] |};
  {| Name := "check_team_repository";
     Description := "Check if a team has access to a repository";
     InputSchema :=
       VMap [
         ("type", VStr "object");
         ("properties",
          VMap [
            ("org",
             VMap [("type", VStr "string"); ("description", VStr "Organization name")]);
            ("team_slug",
             VMap [("type", VStr "string"); ("description", VStr "Team slug")]);
            ("owner",
             VMap [("type", VStr "string"); ("description", VStr "Repository owner")]);
            ("repo",
             VMap [("type", VStr "string"); ("description", VStr "Repository name")])]);
         ("required", VList [VStr "org"; VStr "team_slug"; VStr "owner"; VStr "repo"])] |};
  {| Name := "add_team_repository";
     Description := "Add a repository to a team";
     InputSchema :=
       VMap [
         ("type", VStr "object");
         ("properties",
          VMap [
            ("org",
             VMap [("type", VStr "string"); ("description", VStr "Organization name")]);
            ("team_slug",
             VMap [("type", VStr "string"); ("description", VStr "Team slug")]);
            ("owner",
             VMap [("type", VStr "string"); ("description", VStr "Repository owner")]);
            ("repo",
             VMap [("type", VStr "string"); ("description", VStr "Repository name")]);
            ("permission",
             VMap [
               ("type", VStr "string");
               ("description", VStr "The permission to grant the team on this repository");
               ("enum", VList [VStr "pull"; VStr "triage"; VStr "push"; VStr "maintain"; VStr "admin"]);
               ("default", VStr "pull")])]);
         ("required", VList [VStr "org"; VStr "team_slug"; VStr "owner"; VStr "repo"])] |};
  {| Name := "remove_team_repository";
     Description := "Remove a repository from a team";
     InputSchema :=
       VMap [
         ("type", VStr "object");
         ("properties",
          VMap [
            ("org",
             VMap [("type", VStr "string"); ("description", VStr "Organization name")]);
            ("team_slug",
             VMap [("type", VStr "string"); ("description", VStr "Team slug")]);
            ("owner",
             VMap [("type", VStr "string"); ("description", VStr "Repository owner")]);
            ("repo",
             VMap [("type", VStr "string"); ("description", VStr "Repository name")])]);
         ("required", VList [VStr "org"; VStr "team_slug"; VStr "owner"; VStr "repo"])] |}
].

(** [initializeResources] initializes the available resources *)
Definition initializeResources : list Resource := [
  {| URI := "github://user/{username}";
     Resource_Name := "GitHub User";
     Resource_Description := "GitHub user information";
     MimeType := "application/json" |};
  {| URI := "github://repos/{owner}";
     Resource_Name := "GitHub Repositories";
     Resource_Description := "List of GitHub repositories";
     MimeType := "application/json" |};
  {| URI := "github://org/{org}";
     Resource_Name := "GitHub Organization";
     Resource_Description := "GitHub organization information";
     MimeType := "application/json" |};
  {| URI := "github://org/{org}/members";
     Resource_Name := "GitHub Organization Members";
     Resource_Description := "List of GitHub organization members";
     MimeType := "application/json" |};
  {| URI := "github://organizations";
     Resource_Name := "GitHub Organizations";
     Resource_Description := "List of all GitHub organizations";
     MimeType := "application/json" |};
  {| URI := "github://user/{username}/orgs";
     Resource_Name := "User Organizations";
     Resource_Description := "List of organizations for a specific user";
     MimeType := "application/json" |}
].

(** [NewHandler] creates a new MCP handler *)
Definition NewHandler (logger : Logger.Logger) : Handler :=
  {| logger := logger; initialized := false; tools := initializeTools;
     resources := initializeResources; streamer := None |}.

(** The case labels of the [switch] in [executeTool], in order. *)
Definition executeTool_cases : list string := [
  "get_user"; "get_authenticated_user"; "update_authenticated_user";
  "list_users"; "list_user_followers"; "list_user_following";
  "check_user_following"; "follow_user"; "unfollow_user"; "list_repositories";
  "get_organization"; "update_organization"; "list_organizations";
  "list_user_organizations"; "list_authenticated_user_organizations";
  "list_organization_members"; "check_organization_membership";
  "check_public_organization_membership";
  "list_teams"; "get_team"; "create_team"; "update_team"; "delete_team";
  "list_team_members"; "get_team_membership"; "add_team_membership";
  "remove_team_membership"; "list_team_repositories"; "check_team_repository";
  "add_team_repository"; "remove_team_repository"
].

(** [executeTool] executes a tool with the given arguments *)
Definition executeTool `{Backend} (toolName : string) (args : value)
  : result CallToolResult :=
  if bool_decide (toolName ∈ executeTool_cases) then execute toolName args
  else Err ("unknown tool: " +:+ toolName).

(** [readResource] reads a resource by URI *)
Definition readResource (uri : string) : result ReadResourceResult :=
  let content :=
    [{| ResourceContent_URI := uri;
        ResourceContent_MimeType := "application/json";
        Text := "Resource content for " +:+ uri +:+ " - implementation coming soon";
        Blob := "" |}] in
  Ok {| Contents := content |}.

(** [if h.streamer != nil && h.streamer.IsStreamingEnabled() { call }];
    the error the call returns is dropped. *)
Definition when_streaming
  (call : Streamer.MCPStreamer StreamHandler
          → outcome (error * Streamer.MCPStreamer StreamHandler))
  (h : Handler) : outcome Handler :=
  match streamer h with
  | None => Return h
  | Some ms =>
      if Streamer.IsStreamingEnabled ms then
        r ← call ms; Return (SetStreamer (Some r.2) h)
      else Return h
  end.

(** [handleInitialize] handles the initialize request *)
Definition handleInitialize `{Backend} (msg : JSONRPCMessage) (h : Handler)
  : JSONRPCMessage * Handler :=
  match GetParams Unmarshal_InitializeRequest msg with
  | Err err =>
      (NewErrorResponse (Types.ID msg) ErrorCodeInvalidParams "Invalid params" VNil,
       log (Logger.Error "Failed to parse initialize request") h)
  | Ok req =>
      (NewResponse (Types.ID msg) InitializeResult,
       log (Logger.Info "Initializing MCP server") h)
  end.

(** [handleInitialized] handles the initialized notification *)
Definition handleInitialized (msg : JSONRPCMessage) (h : Handler) : Handler :=
  log (Logger.Info "MCP server initialized successfully") (set_initialized true h).

(** [handleListTools] handles the tools/list request *)
Definition handleListTools (msg : JSONRPCMessage) (h : Handler) : JSONRPCMessage :=
  if negb (initialized h) then
    NewErrorResponse (Types.ID msg) ErrorCodeInternalError "Server not initialized" VNil
  else NewResponse (Types.ID msg) (ToolsListResult (tools h)).

(** [handleCallTool] handles the tools/call request *)
Definition handleCallTool `{Backend} (msg : JSONRPCMessage) (h : Handler)
  : outcome (JSONRPCMessage * Handler) :=
  if negb (initialized h) then
    Return (NewErrorResponse (Types.ID msg) ErrorCodeInternalError
              "Server not initialized" VNil, h)
  else
    match GetParams Unmarshal_CallToolRequest msg with
    | Err err =>
        Return (NewErrorResponse (Types.ID msg) ErrorCodeInvalidParams
                  "Invalid params" VNil,
                log (Logger.Error "Failed to parse call tool request") h)
    | Ok req =>
        let h := log (Logger.Info "Calling tool") h in
        h ← when_streaming
              (Streamer.StreamToolProgress (CallToolRequest_Name req)
                 (VMap [("status", VStr "started"); ("toolId", Types.ID msg)])) h;
        match find (λ t, bool_decide (Name t = CallToolRequest_Name req)) (tools h) with
        | None =>
            let errorResp :=
              NewErrorResponse (Types.ID msg) ErrorCodeToolNotFound
                ("Tool not found: " +:+ CallToolRequest_Name req) VNil in
            h ← when_streaming (Streamer.StreamMessage errorResp) h;
            Return (errorResp, h)
        | Some tool =>
            match executeTool (CallToolRequest_Name req) (Arguments req) with
            | Err err =>
                let h := log (Logger.Error "Tool execution failed") h in
                let errorResp :=
                  NewErrorResponse (Types.ID msg) ErrorCodeInvalidTool
                    ("Tool execution failed: " +:+ err) VNil in
                h ← when_streaming (Streamer.StreamMessage errorResp) h;
                Return (errorResp, h)
            | Ok result =>
                h ← when_streaming
                      (Streamer.StreamToolProgress (CallToolRequest_Name req)
                         (VMap [("status", VStr "completed");
                                ("toolId", Types.ID msg)])) h;
                let response :=
                  NewResponse (Types.ID msg) (CallToolResult_object result) in
                h ← when_streaming (Streamer.StreamMessage response) h;
                Return (response, h)
            end
        end
    end.

(** [handleListResources] handles the resources/list request *)
Definition handleListResources (msg : JSONRPCMessage) (h : Handler)
  : JSONRPCMessage :=
  if negb (initialized h) then
    NewErrorResponse (Types.ID msg) ErrorCodeInternalError "Server not initialized" VNil
  else NewResponse (Types.ID msg) (ResourcesListResult (resources h)).

(** [handleReadResource] handles the resources/read request *)
Definition handleReadResource `{Backend} (msg : JSONRPCMessage) (h : Handler)
  : JSONRPCMessage * Handler :=
  if negb (initialized h) then
    (NewErrorResponse (Types.ID msg) ErrorCodeInternalError
       "Server not initialized" VNil, h)
  else
    match GetParams Unmarshal_ReadResourceRequest msg with
    | Err err =>
        (NewErrorResponse (Types.ID msg) ErrorCodeInvalidParams "Invalid params" VNil,
         log (Logger.Error "Failed to parse read resource request") h)
    | Ok req =>
        let h := log (Logger.Info "Reading resource") h in
        match readResource (ReadResourceRequest_URI req) with
        | Err err =>
            (NewErrorResponse (Types.ID msg) ErrorCodeResourceNotFound
               ("Resource read failed: " +:+ err) VNil,
             log (Logger.Error "Resource read failed") h)
        | Ok result =>
            (NewResponse (Types.ID msg) (ReadResourceResult_object result), h)
        end
    end.

(** [handleListResourceTemplates] handles the resources/templates/list
    request *)
Definition handleListResourceTemplates (msg : JSONRPCMessage) (h : Handler)
  : JSONRPCMessage :=
  if negb (initialized h) then
    NewErrorResponse (Types.ID msg) ErrorCodeInternalError "Server not initialized" VNil
  else NewResponse (Types.ID msg) ResourceTemplatesListResult.

(** [handlePing] handles the ping request *)
Definition handlePing (msg : JSONRPCMessage) : JSONRPCMessage :=
  NewResponse (Types.ID msg) (VMap [("status", VStr "pong")]).

(** [response.ToJSON()] as the pair [([]byte, error)] a handler returns;
    [Ok None] is [(nil, nil)]. *)
Definition bytes (r : result string) : result (option string) :=
  match r with
  | Ok data => Ok (Some data)
  | Err err => Err err
  end.

(** [handleRequest] handles JSON-RPC requests *)
Definition handleRequest `{Backend} (msg : JSONRPCMessage) (h : Handler)
  : outcome (result (option string) * Handler) :=
  r ← (if decide (Method msg = MethodInitialize) then
         Return (handleInitialize msg h)
       else if decide (Method msg = MethodListTools) then
         Return (handleListTools msg h, h)
       else if decide (Method msg = MethodCallTool) then
         handleCallTool msg h
       else if decide (Method msg = MethodListResources) then
         Return (handleListResources msg h, h)
       else if decide (Method msg = MethodReadResource) then
         Return (handleReadResource msg h)
       else if decide (Method msg = MethodListResourceTemplates) then
         Return (handleListResourceTemplates msg h, h)
       else if decide (Method msg = MethodPing) then
         Return (handlePing msg, h)
       else
         Return (NewErrorResponse (Types.ID msg) ErrorCodeMethodNotFound
                   ("Method not found: " +:+ Method msg) VNil, h));
  Return (bytes (ToJSON r.1), r.2).

(** [handleNotification] handles JSON-RPC notifications *)
Definition handleNotification (msg : JSONRPCMessage) (h : Handler)
  : result (option string) * Handler :=
  let h :=
    if decide (Method msg = MethodInitialized) then handleInitialized msg h
    else log (Logger.Warn "Unknown notification method") h in
  (Ok None, h).

(** [HandleMessage] processes an MCP message *)
Definition HandleMessage `{Backend} (data : string) (h : Handler)
  : outcome (result (option string) * Handler) :=
  match FromJSON data with
  | Err err =>
      let h := log (Logger.Error "Failed to parse MCP message") h in
      let errorResp := NewErrorResponse VNil ErrorCodeParseError "Parse error" VNil in
      Return (bytes (ToJSON errorResp), h)
  | Ok msg =>
      let h := log (Logger.Debug "Received MCP message") h in
      if IsRequest msg then handleRequest msg h
      else if IsNotification msg then Return (handleNotification msg h)
      else
        let h := log (Logger.Warn "Received unexpected message type") h in
        let errorResp :=
          NewErrorResponse (Types.ID msg) ErrorCodeInvalidRequest
            "Invalid request" VNil in
        Return (bytes (ToJSON errorResp), h)
  end.

(** The deliveries [StreamMessage] makes for a message on a stream
    handler: one per registered connection, none when the message cannot
    be formatted. *)
Definition streamed (m : JSONRPCMessage) (sh : StreamHandler)
  : list (loc * string * value) :=
  match Streamer.formatMessageForSSE m with
  | Ok data => (λ p, (p, Streamer.getEventType m, data)) <$> snapshot sh
  | Err _ => []
  end.

(** The frame a message is streamed as. *)
Definition frame_of (m : JSONRPCMessage) : list string :=
  match Streamer.formatMessageForSSE m with
  | Ok data => [formatSSEEvent (Streamer.getEventType m) data]
  | Err _ => []
  end.

(** The stream handler behind the streamer of a handler, if any, has a
    well-formed registry. *)
Definition streamer_wf (h : Handler) : Prop :=
  ∀ ms sh, streamer h = Some ms → Streamer.streamHandler ms = Some sh → Hub.wf sh.

(** The [tools/progress] notification [StreamToolProgress] sends from
    [handleCallTool]. *)
Definition progress_message (toolName status : string) (id : value)
  : JSONRPCMessage :=
  NewNotification "tools/progress"
    (VMap [("tool", VStr toolName);
           ("progress", VMap [("status", VStr status); ("toolId", id)])]).

(** From [h] to [h'] the messages of [trace] were streamed, in order:
    nothing of the handler changed but its log and the state behind its
    streamer, where the registry is the same and the connections received
    what [StreamMessage] delivers for each message. *)
Definition streams_to (h h' : Handler) (trace : list JSONRPCMessage) : Prop :=
  initialized h' = initialized h ∧ tools h' = tools h ∧
  resources h' = resources h ∧ streamer_wf h' ∧
  ∀ ms sh, streamer h = Some ms → Streamer.streamHandler ms = Some sh →
    ∃ ms' sh', streamer h' = Some ms' ∧ Streamer.streamHandler ms' = Some sh' ∧
      clients sh' = clients sh ∧
      Hub.receives sh sh' (concat ((λ m, streamed m sh) <$> trace)).

(** [response] is an answer to [msg]: a message of version 2.0 with the id
    of [msg], no method, and either a result or an error. *)
Definition answers (msg response : JSONRPCMessage) : Prop :=
  JSONRPC response = "2.0" ∧ Types.ID response = Types.ID msg ∧
  Method response = "" ∧
  (Error response = None ↔ is_nil (Result response) = false).

(** The methods answered only after the [initialized] notification. *)
Definition gated_methods : list string :=
  [MethodListTools; MethodCallTool; MethodListResources; MethodReadResource;
   MethodListResourceTemplates].

(** The handler after a run of messages, with the answers, oldest first. *)
Fixpoint serve `{Backend} (inbox : list string) (h : Handler)
  : outcome (list (result (option string)) * Handler) :=
  match inbox with
  | [] => Return ([], h)
  | data :: rest =>
      r ← HandleMessage data h;
      rs ← serve rest r.2;
      Return (r.1 :: rs.1, rs.2)
  end.

End Protocol.

(* ===================================================================== *)
(** * Sample data: the messages and connections of the test files *)
(* ===================================================================== *)

Module Samples.
Import Handler.

(** [NewRequest(1, "tools/list", nil)] *)
Definition list_tools_request : JSONRPCMessage :=
  NewRequest (VInt 1) "tools/list" VNil.

(** [NewResponse(1, map[string]interface{}{})] *)
Definition empty_response : JSONRPCMessage := NewResponse (VInt 1) (VMap []).

(** [NewNotification("tools/progress", {"tool": "x", "progress": 50})] *)
Definition progress_notification : JSONRPCMessage :=
  NewNotification "tools/progress"
    (VMap [("tool", VStr "x"); ("progress", VInt 50)]).

(** [NewErrorResponse(nil, ErrorCodeToolNotFound, "Tool not found: x", nil)]:
    an error response built with a nil id. *)
Definition error_without_id : JSONRPCMessage :=
  NewErrorResponse VNil (-32002) "Tool not found: x" VNil.

(** What [FromJSON] returns for an object with an id, a result and an error. *)
Definition result_and_error : JSONRPCMessage :=
  {| JSONRPC := "2.0"; Types.ID := VInt 1; Method := ""; Params := VNil;
     Result := VMap [];
     Error := Some {| Code := -32603; Message := "Internal error"; Data := VNil |} |}.

(** A message with none of the shapes: only the version tag. *)
Definition bare_message : JSONRPCMessage :=
  {| JSONRPC := "2.0"; Types.ID := VNil; Method := ""; Params := VNil;
     Result := VNil; Error := None |}.

(** A request whose parameters cannot be serialized. *)
Definition unserializable_request : JSONRPCMessage :=
  NewRequest (VInt 1) "tools/list" VChan.

(** [newMockResponseWriter()]: accepts every write, can flush. *)
Definition newMockResponseWriter : ResponseWriter :=
  {| header := ∅; status := 200; written := []; flushed := false;
     broken := false; can_flush := true |}.

(** A writer whose peer is gone: every write fails. *)
Definition brokenResponseWriter : ResponseWriter :=
  {| header := ∅; status := 200; written := []; flushed := false;
     broken := true; can_flush := true |}.

(** The handler after a run of calls on a new one. *)
Definition hub_after (ops : list Hub.op) : StreamHandler :=
  match Hub.run ops (NewStreamHandler [] 0) with
  | Return sh => sh
  | Panic _ => NewStreamHandler [] 0
  end.

(** Two clients, connected at clock readings 1 and 2. *)
Definition two_clients : StreamHandler :=
  hub_after [Hub.Clock_ 1; Hub.HandleSSE_ newMockResponseWriter;
             Hub.Clock_ 2; Hub.HandleSSE_ newMockResponseWriter].

(** One client whose peer went away before the first frame. *)
Definition one_broken_client : StreamHandler :=
  hub_after [Hub.Clock_ 1; Hub.HandleSSE_ brokenResponseWriter].

(** [two_clients] after [Stop]. *)
Definition two_clients_stopped : StreamHandler :=
  hub_after [Hub.Clock_ 1; Hub.HandleSSE_ newMockResponseWriter;
             Hub.Clock_ 2; Hub.HandleSSE_ newMockResponseWriter; Hub.Stop_].

(** [two_clients] with a third connection object carrying the id of the
    first, not yet registered. *)
Definition two_clients_and_twin : loc * StreamHandler :=
  alloc {| Handler.ID := "client_1"; Writer := newMockResponseWriter;
           Done := Open; LastSeen := 3 |} two_clients.

(** One registered client with a working sink, and a broadcast and a
    heartbeat started at once. *)
Definition two_broadcasts : Concurrent.config :=
  Concurrent.spawn {["client_1" := 0%nat]}
    {[0%nat := {| Handler.ID := "client_1"; Writer := newMockResponseWriter;
                  Done := Open; LastSeen := 1 |}]} 2
    [Concurrent.Broadcast "test" (VStr "a"); Concurrent.Heartbeat].

(** The same with a sink that fails. *)
Definition two_broadcasts_broken : Concurrent.config :=
  Concurrent.spawn {["client_1" := 0%nat]}
    {[0%nat := {| Handler.ID := "client_1"; Writer := brokenResponseWriter;
                  Done := Open; LastSeen := 1 |}]} 2
    [Concurrent.Broadcast "test" (VStr "a"); Concurrent.Heartbeat].

(** One client, connected on 2023-11-14 at 22:13:20 UTC. *)
Definition late_hub : StreamHandler :=
  hub_after [Hub.Clock_ (1700000000 * second);
             Hub.HandleSSE_ newMockResponseWriter].

(** Two [HandleSSE] calls that read the same clock: both connections carry
    the id [client_1], and the sink of the first rejects every write. *)
Definition two_connects_broken : Concurrent.config :=
  Concurrent.spawn ∅
    {[0%nat := {| Handler.ID := "client_1";
                  Writer := sse_headers brokenResponseWriter;
                  Done := Open; LastSeen := 1 |};
      1%nat := {| Handler.ID := "client_1";
                  Writer := sse_headers newMockResponseWriter;
                  Done := Open; LastSeen := 1 |}]} 1
    [Concurrent.Connect "client_1" 0%nat; Concurrent.Connect "client_1" 1%nat].

(** One registered client with a working sink, a broadcast, and a
    [HandleSSE] call that has built a second connection under the same id. *)
Definition broadcast_and_connect : Concurrent.config :=
  Concurrent.spawn {["client_1" := 0%nat]}
    {[0%nat := {| Handler.ID := "client_1"; Writer := newMockResponseWriter;
                  Done := Open; LastSeen := 1 |};
      1%nat := {| Handler.ID := "client_1";
                  Writer := sse_headers newMockResponseWriter;
                  Done := Open; LastSeen := 1 |}]} 2
    [Concurrent.Broadcast "test" (VStr "a"); Concurrent.Connect "client_1" 1%nat].

(** One client, connected at clock reading 1. *)
Definition one_client : StreamHandler :=
  hub_after [Hub.Clock_ 1; Hub.HandleSSE_ newMockResponseWriter].

End Samples.
Import Samples.

(** ** A backend for the examples of requests *)

Module Requests.
Import Handler Protocol.

(** The JSON text of a message. *)
Definition encode (m : JSONRPCMessage) : result string :=
  v ← message_map m; Marshal v.

(** A decoder that knows the texts of a list of samples. *)
Definition table {A} (encode : A → result string) (samples : list A)
  (data : string) : result A :=
  match find (λ a, match encode a with
                   | Ok s => bool_decide (s = data)
                   | Err _ => false
                   end) samples with
  | Some a => Ok a
  | None => Err "unexpected end of JSON input"
  end.

Definition ping_request : JSONRPCMessage := NewRequest (VInt 1) "ping" VNil.

Definition initialized_notification : JSONRPCMessage :=
  NewNotification "initialized" VNil.

Definition get_user_request : JSONRPCMessage :=
  NewRequest (VInt 2) "tools/call"
    (VMap [("name", VStr "get_user");
           ("arguments", VMap [("username", VStr "octocat")])]).

Definition no_such_tool_request : JSONRPCMessage :=
  NewRequest (VInt 3) "tools/call" (VMap [("name", VStr "no_such_tool")]).

Definition text (r : result string) : string :=
  match r with
  | Ok s => s
  | Err _ => ""
  end.

Definition CallToolRequest_text (r : CallToolRequest) : result string :=
  Marshal (VMap ([("name", VStr (CallToolRequest_Name r))]
                 ++ omitempty "arguments" (Arguments r))).

#[global] Instance sample_backend : Backend := {|
  Unmarshal_JSONRPCMessage :=
    table encode [ping_request; initialized_notification; list_tools_request;
                  get_user_request; no_such_tool_request];
  Unmarshal_InitializeRequest := table (λ _, Err "") [];
  Unmarshal_CallToolRequest :=
    table CallToolRequest_text
      [{| CallToolRequest_Name := "get_user";
          Arguments := VMap [("username", VStr "octocat")] |};
       {| CallToolRequest_Name := "no_such_tool"; Arguments := VNil |}];
  Unmarshal_ReadResourceRequest := table (λ _, Err "") [];
  Marshal_JSONRPCMessage := encode;
  execute := λ toolName args,
    match get "username" args with
    | Some (VStr username) =>
        Ok {| CallToolResult_Content :=
                [{| Content_Type := "text"; Content_Text := "login: " +:+ username;
                    Content_Data := ""; Content_MimeType := "" |}];
              CallToolResult_IsError := false |}
    | _ => Err "username is required"
    end;
|}.

(** A handler wired to the hub with two clients, after the [initialized]
    notification. *)
Definition ready_handler : Handler :=
  set_initialized true (SetStreamer (Some (GetStreamer two_clients)) (NewHandler [])).

End Requests.

(* ===================================================================== *)
(** * Classification *)
(* ===================================================================== *)

Import Shapes.

Section Classification.
Implicit Types m : JSONRPCMessage.

(** The three shape tests exclude one another. *)
Lemma shapes_exclusive m :
  (IsRequest m → ¬ IsResponse m ∧ ¬ IsNotification m) ∧
  (IsResponse m → ¬ IsRequest m ∧ ¬ IsNotification m) ∧
  (IsNotification m → ¬ IsRequest m ∧ ¬ IsResponse m).
Proof.
  unfold IsRequest, IsResponse, IsNotification.
  destruct (has_method m), (is_nil (ID m)); simpl; naive_solver.
Qed.

Lemma getEventType_cases m :
  Streamer.getEventType m =
    if IsNotification m then "mcp_notification"
    else if IsRequest m then "mcp_request"
    else if IsResponse m then (if IsError m then "mcp_error" else "mcp_response")
    else "mcp_message".
Proof.
  unfold Streamer.getEventType, IsRequest, IsResponse, IsNotification.
  destruct (has_method m), (is_nil (ID m)); reflexivity.
Qed.

Lemma malformed_event_type m :
  malformed m = true → Streamer.getEventType m = "mcp_message".
Proof.
  unfold malformed. rewrite getEventType_cases.
  destruct (IsNotification m), (IsRequest m), (IsResponse m); simpl; congruence.
Qed.

End Classification.

(** The table of [TestEventTypeDetection]. *)
Example event_type_request :
  Streamer.getEventType list_tools_request = "mcp_request".
Proof. reflexivity. Qed.

Example event_type_response :
  Streamer.getEventType empty_response = "mcp_response".
Proof. reflexivity. Qed.

Example event_type_error :
  Streamer.getEventType (NewErrorResponse (VInt 1) (-1) "error" VNil) = "mcp_error".
Proof. reflexivity. Qed.

Example event_type_notification :
  Streamer.getEventType (NewNotification "notifications/initialized" VNil)
  = "mcp_notification".
Proof. reflexivity. Qed.

(** [TestStreamMessage_Request], [TestStreamMessage_NoClients],
    [TestStreamError] and [TestNilStreamHandler], on the recording double. *)
Example stream_request_to_mock :
  ∃ ms' h data,
    Streamer.StreamMessage list_tools_request
      (Streamer.NewMCPStreamer []
         (Some (Mock.SetConnectedClients 1 Mock.newMockStreamHandler)))
    = Return (None, ms') ∧
    Streamer.streamHandler ms' = Some h ∧
    Mock.broadcastCalls h
    = [{| Mock.bc_eventType := "mcp_request"; Mock.bc_data := data |}].
Proof. eexists _, _, _. split; [reflexivity|]. split; reflexivity. Qed.

Example stream_to_mock_without_clients :
  ∃ ms',
    Streamer.StreamMessage list_tools_request
      (Streamer.NewMCPStreamer [] (Some Mock.newMockStreamHandler))
    = Return (None, ms') ∧
    Streamer.streamHandler ms' = Some Mock.newMockStreamHandler.
Proof. eexists. split; reflexivity. Qed.

Example stream_error_to_mock :
  ∃ ms' h data,
    Streamer.StreamError (-32601) "Method not found" VNil
      (Streamer.NewMCPStreamer []
         (Some (Mock.SetConnectedClients 1 Mock.newMockStreamHandler)))
    = Return (None, ms') ∧
    Streamer.streamHandler ms' = Some h ∧
    Mock.broadcastCalls h
    = [{| Mock.bc_eventType := "error"; Mock.bc_data := data |}].
Proof. eexists _, _, _. split; [reflexivity|]. split; reflexivity. Qed.

Example stream_with_nil_handler :
  (∃ ms', Streamer.StreamMessage list_tools_request
            (Streamer.NewMCPStreamer [] (None : option Mock.mockStreamHandler))
          = Return (None, ms')) ∧
  (∃ ms', Streamer.StreamMessageToClient "test" list_tools_request
            (Streamer.NewMCPStreamer [] (None : option Mock.mockStreamHandler))
          = Return (None, ms')).
Proof. split; eexists; reflexivity. Qed.

(** A request that cannot be serialized is an error for the caller once
    somebody is connected, and goes unnoticed when nobody is. *)
Example unserializable_request_streamed :
  (∃ ms' err,
     Streamer.StreamMessage unserializable_request
       (Streamer.NewMCPStreamer []
          (Some (Mock.SetConnectedClients 1 Mock.newMockStreamHandler)))
     = Return (Some err, ms') ∧
     Streamer.streamHandler ms'
     = Some (Mock.SetConnectedClients 1 Mock.newMockStreamHandler)) ∧
  (∃ ms',
     Streamer.StreamMessage unserializable_request
       (Streamer.NewMCPStreamer [] (Some Mock.newMockStreamHandler))
     = Return (None, ms')).
Proof. split; [eexists _, _; split; reflexivity|eexists; reflexivity]. Qed.

(** C1, as worded, fails: an error response built without a correlation id
    ([NewErrorResponse(nil, ...)], which the exported [StreamMessage] takes
    like any message) has no method
    and an error field, so the worded precedence makes it an error response;
    [getEventType] gives it the generic event type.  And a message with
    result and id and no method is not under the response event type when
    it carries an error as well. *)
Lemma precedence_as_worded_counterexample :
  (precedence_as_worded error_without_id = ErrorResponse ∧
   Streamer.getEventType error_without_id ≠ event_type ErrorResponse ∧
   Streamer.getEventType error_without_id = "mcp_message") ∧
  (has_method result_and_error = false ∧ has_id result_and_error = true ∧
   has_result result_and_error = true ∧
   Streamer.getEventType result_and_error ≠ "mcp_response").
Proof.
  split.
  - split; [reflexivity|]. split; [discriminate|reflexivity].
  - repeat split; discriminate.
Qed.

(** C1, amended: [getEventType] is the precedence list with the correlation
    id required of both response shapes - notification (method, no id), then
    request (method and id), then error response (no method, id, error),
    then success response (no method, id, result, no error) - and in
    particular: method and id give the request event type; result and id
    without method the response event type; error and id without method the
    error event type; method without id the notification event type. *)
Theorem getEventType_precedence m :
  Streamer.getEventType m = event_type (precedence_with_id m) ∧
  (has_method m = true → has_id m = true →
     Streamer.getEventType m = "mcp_request") ∧
  (has_method m = false → has_id m = true → has_result m = true →
   has_error m = false →
     Streamer.getEventType m = "mcp_response") ∧
  (has_method m = false → has_id m = true → has_error m = true →
     Streamer.getEventType m = "mcp_error") ∧
  (has_method m = true → has_id m = false →
     Streamer.getEventType m = "mcp_notification").
Proof.
  unfold Streamer.getEventType, precedence_with_id, IsRequest, IsResponse,
    IsNotification, IsError, has_id, has_result, has_error.
  destruct (has_method m), (is_nil (ID m)), (is_nil (Result m)),
    (bool_decide (Error m ≠ None)); simpl; repeat split; congruence.
Qed.

Lemma getEventType_precedence_witness :
  has_method list_tools_request = true ∧ has_id list_tools_request = true ∧
  Streamer.getEventType list_tools_request = "mcp_request".
Proof.
  split; [reflexivity|]. split; [reflexivity|].
  apply (getEventType_precedence list_tools_request); reflexivity.
Defined.

(* ===================================================================== *)
(** * The registry: snapshots and deliveries *)
(* ===================================================================== *)

Import Handler Hub.

Section Registry.
Implicit Types (sh : StreamHandler) (p q : loc) (c : ClientConnection).
Implicit Types (ps : list loc) (h : gmap loc ClientConnection).

Lemma snapshot_length sh : length (snapshot sh) = size (clients sh).
Proof. unfold snapshot. by rewrite length_fmap, length_map_to_list. Qed.

Lemma elem_of_snapshot sh p :
  p ∈ snapshot sh ↔ ∃ id, clients sh !! id = Some p.
Proof.
  unfold snapshot. rewrite list_elem_of_fmap. split.
  - intros [[id q] [-> Hin]]. exists id. by apply elem_of_map_to_list.
  - intros [id Hid]. exists (id, p). split; [done|]. by apply elem_of_map_to_list.
Qed.

Lemma snapshot_NoDup sh : wf sh → NoDup (snapshot sh).
Proof.
  intros Hwf. unfold snapshot.
  apply NoDup_fmap_2_strong; [|apply NoDup_map_to_list].
  intros [id1 p1] [id2 p2] H1%elem_of_map_to_list H2%elem_of_map_to_list Heq.
  simpl in Heq. subst p2.
  destruct (Hwf _ _ H1) as (c1 & Hc1 & <-).
  destruct (Hwf _ _ H2) as (c2 & Hc2 & <-).
  congruence.
Qed.

Lemma snapshot_in_heap sh p :
  wf sh → p ∈ snapshot sh → is_Some (heap sh !! p).
Proof.
  intros Hwf [id Hid]%elem_of_snapshot.
  destruct (Hwf _ _ Hid) as (c & Hc & _). eauto.
Qed.

Lemma snapshot_empty sh : size (clients sh) = 0%nat → snapshot sh = [].
Proof.
  intros H%map_size_empty_inv. unfold snapshot. rewrite H.
  by rewrite map_to_list_empty.
Qed.

(** ** [deliver_all] *)

Lemma deliver_all_notin f ps h q :
  q ∉ ps → deliver_all f ps h !! q = h !! q.
Proof.
  revert h. induction ps as [|p ps IH]; intros h Hq; [done|].
  apply not_elem_of_cons in Hq as [Hne Hq]. simpl.
  fold (deliver_all f ps (alter f p h)).
  rewrite IH by done. by rewrite lookup_alter_ne.
Qed.

Lemma deliver_all_in f ps h q :
  NoDup ps → q ∈ ps → deliver_all f ps h !! q = f <$> h !! q.
Proof.
  revert h. induction ps as [|p ps IH]; intros h Hnd Hq.
  - by apply elem_of_nil in Hq.
  - apply NoDup_cons in Hnd as [Hp Hnd]. simpl.
    fold (deliver_all f ps (alter f p h)).
    apply elem_of_cons in Hq as [->|Hq].
    + rewrite deliver_all_notin by done. by rewrite lookup_alter_eq.
    + rewrite IH by done.
      rewrite lookup_alter_ne; [done|]. intros ->. contradiction.
Qed.

Lemma deliver_all_lookup f ps h q :
  NoDup ps →
  deliver_all f ps h !! q = if decide (q ∈ ps) then f <$> h !! q else h !! q.
Proof.
  intros Hnd. case_decide.
  - by apply deliver_all_in.
  - by apply deliver_all_notin.
Qed.

Lemma deliver_all_id f ps h :
  (∀ p c, p ∈ ps → h !! p = Some c → f c = c) → deliver_all f ps h = h.
Proof.
  revert h. induction ps as [|p ps IH]; intros h Hf; [done|]. simpl.
  fold (deliver_all f ps (alter f p h)).
  assert (alter f p h = h) as ->.
  { apply map_eq. intros q. destruct (decide (p = q)) as [->|Hne].
    - rewrite lookup_alter_eq. destruct (h !! q) as [c|] eqn:Hc; [|done].
      simpl. f_equal. eapply Hf; [left|done].
    - by rewrite lookup_alter_ne. }
  apply IH. intros q c Hq. apply Hf. by right.
Qed.

(** ** [sendEvent] *)

(** [sendEvent] never panics on a valid pointer: it records the call and
    puts the connection through [delivered]. *)
Lemma sendEvent_spec p eventType data sh c :
  heap sh !! p = Some c →
  ∃ sh', sendEvent p eventType data sh = Return sh' ∧
    delivers sh sh' (alter (delivered eventType data (now sh)) p (heap sh))
      [(p, eventType, data)].
Proof.
  intros Hc. unfold sendEvent, deref. simpl. rewrite Hc. simpl.
  assert (∀ c', alter (λ _, c') p (heap sh) = <[p := c']> (heap sh)) as Hins.
  { intros c'. apply map_eq. intros q. destruct (decide (p = q)) as [->|Hne].
    - by rewrite lookup_alter_eq, lookup_insert_eq, Hc.
    - by rewrite lookup_alter_ne, lookup_insert_ne. }
  assert (∀ g, alter g p (heap sh) = <[p := g c]> (heap sh)) as Halt.
  { intros g. rewrite <- Hins. apply map_eq. intros q.
    destruct (decide (p = q)) as [->|Hne].
    - by rewrite !lookup_alter_eq, Hc.
    - by rewrite !lookup_alter_ne. }
  rewrite Halt. unfold delivered.
  destruct (Done c) eqn:Hd; simpl.
  - unfold Write. destruct (broken (Writer c)) eqn:Hb; simpl.
    + eexists. split; [reflexivity|]. repeat split.
    + eexists. split; [reflexivity|]. repeat split.
  - eexists. split; [reflexivity|]. repeat split; simpl.
    symmetry. by apply insert_id.
Qed.

Lemma delivers_trans sh sh1 sh2 h1 h2 ds1 ds2 :
  delivers sh sh1 h1 ds1 → delivers sh1 sh2 h2 ds2 →
  delivers sh sh2 h2 (ds1 ++ ds2).
Proof.
  intros (?&?&?&?&?&?&Hd1) (?&?&?&?&?&?&Hd2).
  repeat split; try congruence. by rewrite Hd2, Hd1, <- app_assoc.
Qed.

Lemma delivers_set_logger f sh sh' h ds :
  delivers sh sh' h ds → delivers sh (set_logger f sh') h ds.
Proof. intros (?&?&?&?&?&?&?). by repeat split. Qed.

(** ** The delivery loop shared by broadcast and heartbeat *)

Lemma for_each_sendEvent eventType (g : Z → value) ps sh :
  (∀ p, p ∈ ps → is_Some (heap sh !! p)) →
  ∃ sh',
    for_each (λ client sh, sendEvent client eventType (g (now sh)) sh) ps sh
    = Return sh' ∧
    delivers sh sh'
      (deliver_all (delivered eventType (g (now sh)) (now sh)) ps (heap sh))
      ((λ p, (p, eventType, g (now sh))) <$> ps).
Proof.
  revert sh. induction ps as [|p ps IH]; intros sh Hps.
  - exists sh. split; [done|]. repeat split. simpl. by rewrite app_nil_r.
  - destruct (Hps p) as [c Hc]; [left|].
    destruct (sendEvent_spec p eventType (g (now sh)) sh c Hc)
      as (sh1 & Hrun1 & Hd1).
    pose proof Hd1 as (_&_&_&_&Hnow&Hheap&_).
    destruct (IH sh1) as (sh2 & Hrun2 & Hd2).
    { intros q Hq. rewrite Hheap.
      destruct (Hps q) as [cq Hcq]; [by right|].
      destruct (decide (p = q)) as [->|Hne].
      - rewrite lookup_alter_eq, Hcq. eauto.
      - rewrite lookup_alter_ne by done. eauto. }
    exists sh2. split.
    + simpl. rewrite Hrun1. simpl. exact Hrun2.
    + rewrite Hnow, Hheap in Hd2. simpl.
      apply (delivers_trans sh sh1 sh2 _ _ [_] _ Hd1 Hd2).
Qed.

(** [BroadcastMessage] returns, having called [sendEvent] once for each
    connection of the snapshot, with the same event type and data. *)
Lemma BroadcastMessage_spec eventType data sh :
  wf sh →
  ∃ sh', BroadcastMessage eventType data sh = Return sh' ∧
    delivers sh sh'
      (deliver_all (delivered eventType data (now sh)) (snapshot sh) (heap sh))
      ((λ p, (p, eventType, data)) <$> snapshot sh).
Proof.
  intros Hwf. unfold BroadcastMessage.
  apply (for_each_sendEvent eventType (λ _, data) (snapshot sh) sh).
  intros p Hp. by apply snapshot_in_heap.
Qed.

Lemma sendHeartbeat_spec sh :
  wf sh →
  let data := VMap [("timestamp", VInt (now sh / second))] in
  ∃ sh', sendHeartbeat sh = Return sh' ∧
    delivers sh sh'
      (deliver_all (delivered "heartbeat" data (now sh)) (snapshot sh) (heap sh))
      ((λ p, (p, "heartbeat", data)) <$> snapshot sh).
Proof.
  intros Hwf data. unfold sendHeartbeat.
  destruct (for_each_sendEvent "heartbeat"
              (λ t, VMap [("timestamp", VInt (t / second))]) (snapshot sh) sh)
    as (sh' & Hrun & Hd).
  { intros p Hp. by apply snapshot_in_heap. }
  rewrite Hrun. simpl. eexists. split; [reflexivity|].
  by apply delivers_set_logger.
Qed.

Lemma SendToClient_missing clientID eventType data sh :
  clients sh !! clientID = None →
  ∃ sh', SendToClient clientID eventType data sh = Return sh' ∧
    delivers sh sh' (heap sh) [] ∧
    logger sh' = Logger.Warn "Attempted to send message to non-existent client" (logger sh).
Proof.
  intros Hid. unfold SendToClient. rewrite Hid.
  eexists. split; [reflexivity|]. split; [|done].
  repeat split. simpl. by rewrite app_nil_r.
Qed.

Lemma SendToClient_found clientID eventType data sh p :
  wf sh → clients sh !! clientID = Some p →
  ∃ sh', SendToClient clientID eventType data sh = Return sh' ∧
    delivers sh sh' (alter (delivered eventType data (now sh)) p (heap sh))
      [(p, eventType, data)].
Proof.
  intros Hwf Hid. unfold SendToClient. rewrite Hid.
  destruct (Hwf _ _ Hid) as (c & Hc & _).
  by apply (sendEvent_spec p eventType data sh c).
Qed.

End Registry.

(* ===================================================================== *)
(** * The payload *)
(* ===================================================================== *)

Section Payload.
Implicit Types (m : JSONRPCMessage) (d : value).

Lemma formatMessageForSSE_Ok m body :
  message_map m = Ok body →
  ∃ d, Streamer.formatMessageForSSE m = Ok d ∧
    get "mcp_message" d = Some body ∧
    get "timestamp" d = Some (VInt Streamer.getCurrentTimestamp) ∧
    get "message_type" d = VStr <$> message_type m.
Proof.
  intros Hb. unfold Streamer.formatMessageForSSE, message_type. rewrite Hb. simpl.
  destruct (IsRequest m), (IsResponse m), (IsNotification m);
    eexists; (split; [reflexivity|]); by repeat split.
Qed.

Lemma formatMessageForSSE_Err m e :
  message_map m = Err e → Streamer.formatMessageForSSE m = Err e.
Proof. intros Hb. unfold Streamer.formatMessageForSSE. by rewrite Hb. Qed.

Lemma formatMessageForSSE_inv m d :
  Streamer.formatMessageForSSE m = Ok d →
  ∃ body, message_map m = Ok body ∧
    get "mcp_message" d = Some body ∧
    get "timestamp" d = Some (VInt Streamer.getCurrentTimestamp) ∧
    get "message_type" d = VStr <$> message_type m.
Proof.
  intros Hd. destruct (message_map m) as [body|e] eqn:Hb.
  - exists body. split; [done|].
    destruct (formatMessageForSSE_Ok m body Hb) as (d' & Hd' & ?).
    rewrite Hd in Hd'. by injection Hd' as <-.
  - by rewrite (formatMessageForSSE_Err m e Hb) in Hd.
Qed.


Lemma malformed_message_type m : malformed m = true → message_type m = None.
Proof.
  unfold malformed, message_type.
  destruct (IsRequest m), (IsResponse m), (IsNotification m); simpl; congruence.
Qed.

Lemma classified_message_type m :
  malformed m = false → is_Some (message_type m).
Proof.
  unfold malformed, message_type.
  destruct (IsRequest m), (IsResponse m), (IsNotification m); simpl; eauto;
    discriminate.
Qed.

End Payload.

(** ** What [delivered] does, case by case *)

Section Delivered.
Implicit Types (c : ClientConnection).

Lemma delivered_closed eventType data t c :
  Done c = Closed → delivered eventType data t c = c.
Proof. intros Hd. unfold delivered. by rewrite Hd. Qed.

Lemma delivered_live eventType data t c :
  live c = true →
  written (Writer (delivered eventType data t c))
    = written (Writer c) ++ [formatSSEEvent eventType data] ∧
  flushed (Writer (delivered eventType data t c)) = true ∧
  Done (delivered eventType data t c) = Open ∧
  LastSeen (delivered eventType data t c) = t.
Proof.
  unfold live, delivered, Write.
  destruct (Done c), (broken (Writer c)); simpl; try discriminate. done.
Qed.

Lemma delivered_broken eventType data t c :
  broken (Writer c) = true →
  written (Writer (delivered eventType data t c)) = written (Writer c) ∧
  Done (delivered eventType data t c) = Closed.
Proof.
  intros Hb. unfold delivered, Write. rewrite Hb.
  by destruct (Done c) eqn:Hd.
Qed.

(** A delivery never removes what was written, and never reopens a signal. *)
Lemma delivered_ID eventType data t c :
  ID (delivered eventType data t c) = ID c.
Proof.
  unfold delivered, Write. by destruct (Done c), (broken (Writer c)).
Qed.

End Delivered.

(* ===================================================================== *)
(** * Streaming through the registry *)
(* ===================================================================== *)

Section Streaming.
Implicit Types (sh : StreamHandler) (m : JSONRPCMessage) (p : loc).

Lemma GetConnectedClients_zero sh :
  GetConnectedClients sh = 0 ↔ size (clients sh) = 0%nat.
Proof. unfold GetConnectedClients. lia. Qed.


(** With somebody connected, a message that formats is broadcast under its
    event type, whatever its shape. *)
Lemma StreamMessage_broadcasts m data sh :
  wf sh → size (clients sh) ≠ 0%nat →
  Streamer.formatMessageForSSE m = Ok data →
  ∃ ms' sh',
    Streamer.StreamMessage m (GetStreamer sh) = Return (None, ms') ∧
    Streamer.streamHandler ms' = Some sh' ∧
    delivers sh sh'
      (deliver_all (delivered (Streamer.getEventType m) data (now sh))
         (snapshot sh) (heap sh))
      ((λ p, (p, Streamer.getEventType m, data)) <$> snapshot sh).
Proof.
  intros Hwf Hn Hd. unfold Streamer.StreamMessage. simpl.
  destruct (GetConnectedClients sh =? 0) eqn:Hz.
  { apply Z.eqb_eq, GetConnectedClients_zero in Hz. contradiction. }
  rewrite Hd.
  destruct (BroadcastMessage_spec (Streamer.getEventType m) data sh Hwf)
    as (sh' & Hrun & Hdel).
  rewrite Hrun. simpl. eauto.
Qed.

(** A message that formats is handed to [SendToClient] under its event
    type, whatever its shape. *)
Lemma StreamMessageToClient_sends clientID m data sh :
  Streamer.formatMessageForSSE m = Ok data →
  Streamer.StreamMessageToClient clientID m (GetStreamer sh)
  = (sh' ← SendToClient clientID (Streamer.getEventType m) data sh;
     Return (None,
             {| Streamer.logger :=
                  Logger.Debug "Streamed MCP message to specific client" (logger sh);
                Streamer.streamHandler := Some sh' |})).
Proof. intros Hd. unfold Streamer.StreamMessageToClient. simpl. by rewrite Hd. Qed.



End Streaming.

(* ===================================================================== *)
(** * Shutdown *)
(* ===================================================================== *)

Section Shutdown.
Implicit Types (sh : StreamHandler) (p q : loc) (c : ClientConnection).
Implicit Types (ps : list loc).

Lemma wf_check_sound sh : wf_check sh = true → wf sh.
Proof.
  unfold wf_check, wf. intros Hall id p Hid.
  rewrite forallb_forall in Hall.
  specialize (Hall (id, p)). simpl in Hall.
  destruct (heap sh !! p) as [c|].
  - exists c. split; [done|]. eapply bool_decide_eq_true_1.
    apply Hall. apply list_elem_of_In. by apply elem_of_map_to_list.
  - exfalso. apply Bool.diff_false_true, Hall.
    apply list_elem_of_In. by apply elem_of_map_to_list.
Qed.

Lemma close_done_open p sh c :
  heap sh !! p = Some c → Done c = Open →
  close_done p sh = Return (store p (fired c) sh).
Proof. intros Hc Hd. unfold close_done, deref. rewrite Hc. simpl. by rewrite Hd. Qed.

Lemma close_done_closed p sh c :
  heap sh !! p = Some c → Done c = Closed →
  close_done p sh = Panic "close of closed channel".
Proof. intros Hc Hd. unfold close_done, deref. rewrite Hc. simpl. by rewrite Hd. Qed.

Lemma store_alter p sh c f :
  heap sh !! p = Some c → heap (store p (f c) sh) = alter f p (heap sh).
Proof.
  intros Hc. simpl. apply map_eq. intros q. destruct (decide (p = q)) as [->|Hne].
  - by rewrite lookup_insert_eq, lookup_alter_eq, Hc.
  - by rewrite lookup_insert_ne, lookup_alter_ne.
Qed.

(** The closing loop of [Stop] returns when every connection it meets is
    still open... *)
Lemma for_each_close_done ps sh :
  NoDup ps →
  (∀ p, p ∈ ps → ∃ c, heap sh !! p = Some c ∧ Done c = Open) →
  ∃ sh', for_each close_done ps sh = Return sh' ∧
    delivers sh sh' (deliver_all fired ps (heap sh)) [] ∧
    logger sh' = logger sh.
Proof.
  revert sh. induction ps as [|p ps IH]; intros sh Hnd Hps.
  - exists sh. split; [done|]. split; [|done]. repeat split. simpl.
    by rewrite app_nil_r.
  - apply NoDup_cons in Hnd as [Hp Hnd].
    destruct (Hps p) as (c & Hc & Hd); [left|].
    destruct (IH (store p (fired c) sh) Hnd) as (sh' & Hrun & Hdel & Hlog).
    { intros q Hq. destruct (Hps q) as (cq & Hcq & Hdq); [by right|].
      exists cq. split; [|done]. simpl. rewrite lookup_insert_ne; [done|].
      intros ->. contradiction. }
    exists sh'. split.
    + simpl. rewrite (close_done_open p sh c Hc Hd). simpl. exact Hrun.
    + split; [|done]. rewrite (store_alter p sh c fired Hc) in Hdel.
      destruct Hdel as (?&?&?&?&?&?&?). by repeat split.
Qed.

(** ... and panics as soon as one of them was closed before. *)
Lemma for_each_close_done_panics ps sh :
  (∀ p, p ∈ ps → is_Some (heap sh !! p)) →
  (∃ p c, p ∈ ps ∧ heap sh !! p = Some c ∧ Done c = Closed) →
  for_each close_done ps sh = Panic "close of closed channel".
Proof.
  revert sh. induction ps as [|p ps IH]; intros sh Hps (q & cq & Hq & Hcq & Hdq).
  - by apply elem_of_nil in Hq.
  - destruct (Hps p) as [c Hc]; [left|]. simpl.
    destruct (Done c) eqn:Hd.
    + rewrite (close_done_open p sh c Hc Hd). simpl. apply IH.
      * intros r Hr. simpl. destruct (decide (p = r)) as [->|Hne].
        -- rewrite lookup_insert_eq. eauto.
        -- rewrite lookup_insert_ne by done. apply Hps. by right.
      * apply elem_of_cons in Hq as [->|Hq]; [congruence|].
        destruct (decide (p = q)) as [->|Hne]; [congruence|].
        exists q, cq. split; [done|]. split; [|done].
        simpl. by rewrite lookup_insert_ne.
    + by rewrite (close_done_closed p sh c Hc Hd).
Qed.

(** [Stop] returns exactly when the handler was not stopped before and no
    registered connection has a closed [Done] channel. *)
Lemma Stop_returns sh :
  wf sh → stopCh sh = Open →
  (∀ id p c, clients sh !! id = Some p → heap sh !! p = Some c → Done c = Open) →
  ∃ sh', Stop sh = Return sh' ∧
    clients sh' = ∅ ∧ stopCh sh' = Closed ∧ wg sh' = 0%nat ∧ now sh' = now sh ∧
    heap sh' = deliver_all fired (snapshot sh) (heap sh) ∧
    deliveries sh' = deliveries sh.
Proof.
  intros Hwf Hstop Hopen. unfold Stop. rewrite Hstop. simpl.
  destruct (for_each_close_done (snapshot (set_stop Closed 0 sh)) (set_stop Closed 0 sh))
    as (sh' & Hrun & (Hcl & Hst & Hwg & Hhb & Hnow & Hheap & Hdel) & Hlog).
  { by apply (snapshot_NoDup sh). }
  { intros p Hp. pose proof Hp as [id Hid]%(elem_of_snapshot sh).
    destruct (Hwf _ _ Hid) as (c & Hc & _). exists c. split; [done|]. eauto. }
  rewrite Hrun. simpl. eexists. split; [reflexivity|]. simpl.
  rewrite app_nil_r in Hdel. by repeat split.
Qed.

Lemma Stop_twice_panics sh :
  stopCh sh = Closed → Stop sh = Panic "close of closed channel".
Proof. intros Hstop. unfold Stop. by rewrite Hstop. Qed.

Lemma Stop_fired_panics sh id p c :
  wf sh → stopCh sh = Open →
  clients sh !! id = Some p → heap sh !! p = Some c → Done c = Closed →
  Stop sh = Panic "close of closed channel".
Proof.
  intros Hwf Hstop Hid Hc Hd. unfold Stop. rewrite Hstop. simpl.
  rewrite for_each_close_done_panics; [done| |].
  - intros q Hq. by apply (snapshot_in_heap sh).
  - exists p, c. split; [|done]. apply (elem_of_snapshot sh). eauto.
Qed.

Lemma Stop_inv sh sh' :
  wf sh → Stop sh = Return sh' →
  stopCh sh = Open ∧
  (∀ id p c, clients sh !! id = Some p → heap sh !! p = Some c → Done c = Open) ∧
  clients sh' = ∅ ∧ stopCh sh' = Closed ∧ now sh' = now sh ∧
  heap sh' = deliver_all fired (snapshot sh) (heap sh) ∧
  deliveries sh' = deliveries sh.
Proof.
  intros Hwf Hrun.
  destruct (stopCh sh) eqn:Hstop;
    [|by rewrite (Stop_twice_panics sh Hstop) in Hrun].
  assert (∀ id p c, clients sh !! id = Some p → heap sh !! p = Some c →
            Done c = Open) as Hopen.
  { intros id p c Hid Hc. destruct (Done c) eqn:Hd; [done|].
    by rewrite (Stop_fired_panics sh id p c Hwf Hstop Hid Hc Hd) in Hrun. }
  destruct (Stop_returns sh Hwf Hstop Hopen) as (sh2 & Hrun2 & ?&?&?&?&?&?).
  rewrite Hrun in Hrun2. injection Hrun2 as <-. by repeat split.
Qed.

End Shutdown.

(* ===================================================================== *)
(** * One call at a time: what any call can do to a connection *)
(* ===================================================================== *)

Section Steps.
Implicit Types (sh : StreamHandler) (p q : loc) (c : ClientConnection).
Implicit Types (ps : list loc).

Lemma hub_step_refl sh sh' :
  heap sh' = heap sh → clients sh' = clients sh →
  deliveries sh' = deliveries sh → hub_step sh sh'.
Proof.
  intros Hh Hc Hd. split; [|split].
  - intros p c Hp. exists c. rewrite Hh. split; [done|]. split; [constructor|done].
  - intros id p. rewrite Hc. by left.
  - exists []. rewrite app_nil_r. split; [done|]. by intros d ?%elem_of_nil.
Qed.

Lemma wf_same sh sh' :
  heap sh' = heap sh → clients sh' = clients sh → wf sh → wf sh'.
Proof. unfold wf. intros -> ->. done. Qed.

(** Objects reached through the registry go through [f]; the others stay. *)
Lemma deliver_all_step f ps sh sh' :
  heap sh' = deliver_all f ps (heap sh) →
  NoDup ps →
  (∀ p, p ∈ ps → ∃ id, clients sh !! id = Some p) →
  (∀ p c, p ∈ ps → heap sh !! p = Some c → conn_step c (f c)) →
  ∀ p c, heap sh !! p = Some c →
    ∃ c', heap sh' !! p = Some c' ∧ conn_step c c' ∧
      ((∀ id, clients sh !! id ≠ Some p) → c' = c).
Proof.
  intros Hh Hnd Hreg Hf p c Hc. rewrite Hh, deliver_all_lookup by done.
  case_decide as Hp.
  - exists (f c). rewrite Hc. split; [done|]. split; [by apply (Hf p)|].
    intros Hno. destruct (Hreg p Hp) as [id Hid]. by destruct (Hno id).
  - exists c. split; [done|]. split; [constructor|done].
Qed.

Lemma deliver_all_wf f ps sh sh' :
  heap sh' = deliver_all f ps (heap sh) → clients sh' = clients sh →
  NoDup ps → (∀ c, ID (f c) = ID c) → wf sh → wf sh'.
Proof.
  intros Hh Hcl Hnd Hf Hwf id p. rewrite Hcl. intros Hid.
  destruct (Hwf _ _ Hid) as (c & Hc & HID).
  rewrite Hh, deliver_all_lookup, Hc by done.
  case_decide; eexists; (split; [reflexivity|]); [by rewrite Hf|done].
Qed.

Lemma delivers_step eventType data data' t ps sh sh' :
  delivers sh sh' (deliver_all (delivered eventType data t) ps (heap sh))
    ((λ p, (p, eventType, data')) <$> ps) →
  NoDup ps → (∀ p, p ∈ ps → ∃ id, clients sh !! id = Some p) →
  wf sh → wf sh' ∧ hub_step sh sh'.
Proof.
  intros (Hcl & _ & _ & _ & _ & Hh & Hd) Hnd Hreg Hwf. split.
  - eapply deliver_all_wf; eauto using delivered_ID.
  - split; [|split].
    + eapply deliver_all_step; eauto. intros. constructor.
    + intros id p. rewrite Hcl. by left.
    + eexists. split; [exact Hd|].
      intros d [p [-> Hp]]%list_elem_of_fmap. left. by apply Hreg.
Qed.

Lemma BroadcastMessage_step eventType data sh sh' :
  wf sh → BroadcastMessage eventType data sh = Return sh' →
  wf sh' ∧ hub_step sh sh'.
Proof.
  intros Hwf Hrun.
  destruct (BroadcastMessage_spec eventType data sh Hwf) as (sh2 & Hrun2 & Hdel).
  rewrite Hrun in Hrun2. injection Hrun2 as <-.
  eapply delivers_step; eauto using snapshot_NoDup.
  intros p. apply elem_of_snapshot.
Qed.

Lemma SendToClient_step clientID eventType data sh sh' :
  wf sh → SendToClient clientID eventType data sh = Return sh' →
  wf sh' ∧ hub_step sh sh'.
Proof.
  intros Hwf Hrun. destruct (clients sh !! clientID) as [p|] eqn:Hid.
  - destruct (SendToClient_found clientID eventType data sh p Hwf Hid)
      as (sh2 & Hrun2 & Hdel).
    rewrite Hrun in Hrun2. injection Hrun2 as <-.
    apply (delivers_step eventType data data (now sh) [p] sh sh' Hdel); [| |done].
    { apply NoDup_singleton. }
    intros q ->%list_elem_of_singleton. eauto.
  - destruct (SendToClient_missing clientID eventType data sh Hid)
      as (sh2 & Hrun2 & (Hcl & _ & _ & _ & _ & Hh & Hd) & _).
    rewrite Hrun in Hrun2. injection Hrun2 as <-. rewrite app_nil_r in Hd.
    split; [by eapply wf_same|by apply hub_step_refl].
Qed.

Lemma sendHeartbeat_step sh sh' :
  wf sh → sendHeartbeat sh = Return sh' → wf sh' ∧ hub_step sh sh'.
Proof.
  intros Hwf Hrun.
  destruct (sendHeartbeat_spec sh Hwf) as (sh2 & Hrun2 & Hdel).
  rewrite Hrun in Hrun2. injection Hrun2 as <-.
  eapply delivers_step; eauto using snapshot_NoDup.
  intros p. apply elem_of_snapshot.
Qed.

Lemma Stop_step sh sh' :
  wf sh → Stop sh = Return sh' → wf sh' ∧ hub_step sh sh'.
Proof.
  intros Hwf Hrun.
  destruct (Stop_inv sh sh' Hwf Hrun) as (_ & Hopen & Hcl & _ & _ & Hh & Hd).
  split.
  - intros id p. by rewrite Hcl, lookup_empty.
  - split; [|split].
    + eapply deliver_all_step; eauto using snapshot_NoDup.
      * intros p. apply elem_of_snapshot.
      * intros p c [id Hid]%elem_of_snapshot Hc. constructor. eauto.
    + intros id p. by rewrite Hcl, lookup_empty.
    + exists []. rewrite app_nil_r. split; [done|]. by intros d ?%elem_of_nil.
Qed.

(** [HandleSSE] on a writer that can flush: a new object, filed under the
    id made from the clock, and the [connected] event sent to it. *)
Lemma HandleSSE_spec w sh :
  can_flush w = true →
  let clientID := generateClientID sh in
  let data := VMap [("clientId", VStr clientID);
                    ("message", VStr "Connected to MCP stream")] in
  let c := {| ID := clientID; Writer := sse_headers w; Done := Open;
              LastSeen := now sh |} in
  ∃ p sh', HandleSSE w sh = Return (inr p, sh') ∧
    heap sh !! p = None ∧
    clients sh' = <[clientID := p]> (clients sh) ∧
    heap sh' = <[p := delivered "connected" data (now sh) c]> (heap sh) ∧
    now sh' = now sh ∧ stopCh sh' = stopCh sh ∧
    deliveries sh' = deliveries sh ++ [(p, "connected", data)].
Proof.
  intros Hw clientID data c. unfold HandleSSE, alloc. rewrite Hw. simpl.
  set (p := fresh (dom (heap sh))).
  assert (heap sh !! p = None) as Hfresh.
  { apply not_elem_of_dom. apply is_fresh. }
  unfold addClient, deref. simpl. rewrite lookup_insert_eq. simpl.
  match goal with |- context [sendEvent p "connected" ?d ?s] =>
    destruct (sendEvent_spec p "connected" d s c) as (sh' & Hrun & Hdel)
  end.
  { simpl. by rewrite lookup_insert_eq. }
  rewrite Hrun. simpl. exists p, sh'. split; [done|]. split; [done|].
  destruct Hdel as (Hcl & Hst & _ & _ & Hnow & Hh & Hd). simpl in *.
  repeat split; try done.
  rewrite Hh. apply map_eq. intros q. destruct (decide (p = q)) as [->|Hne].
  - by rewrite lookup_alter_eq, !lookup_insert_eq.
  - by rewrite lookup_alter_ne, !lookup_insert_ne.
Qed.

Lemma HandleSSE_refused w sh :
  can_flush w = false →
  HandleSSE w sh
  = Return (inl (http_Error "SSE not supported" 500 w),
            set_logger
              (Logger.Error "SSE not supported: ResponseWriter does not support flushing")
              sh).
Proof. intros Hw. unfold HandleSSE. by rewrite Hw. Qed.

Lemma HandleSSE_step w sh sh' r :
  wf sh → HandleSSE w sh = Return (r, sh') → wf sh' ∧ hub_step sh sh'.
Proof.
  intros Hwf Hrun. destruct (can_flush w) eqn:Hw.
  2:{ rewrite (HandleSSE_refused w sh Hw) in Hrun. injection Hrun as <- <-.
      split; [done|by apply hub_step_refl]. }
  destruct (HandleSSE_spec w sh Hw)
    as (p2 & sh2 & Hrun2 & Hfresh & Hcl & Hh & _ & _ & Hd).
  rewrite Hrun in Hrun2. injection Hrun2 as -> <-. split.
  - intros id q. rewrite Hcl, Hh.
    destruct (decide (generateClientID sh = id)) as [<-|Hne].
    + rewrite lookup_insert_eq. intros [= <-]. rewrite lookup_insert_eq.
      eexists. split; [done|]. by rewrite delivered_ID.
    + rewrite lookup_insert_ne by done. intros Hid.
      destruct (Hwf _ _ Hid) as (c & Hc & HID). exists c. split; [|done].
      rewrite lookup_insert_ne; [done|]. intros ->. congruence.
  - split; [|split].
    + intros q c Hc. exists c. rewrite Hh. split; [|split; [constructor|done]].
      rewrite lookup_insert_ne; [done|]. intros ->. congruence.
    + intros id q. rewrite Hcl.
      destruct (decide (generateClientID sh = id)) as [<-|Hne].
      * rewrite lookup_insert_eq. intros [= <-]. by right.
      * rewrite lookup_insert_ne by done. by left.
    + eexists. split; [exact Hd|].
      intros d ->%list_elem_of_singleton. by right.
Qed.

Lemma HandleSSE_return_step p sh sh' :
  wf sh → HandleSSE_return p sh = Return sh' → wf sh' ∧ hub_step sh sh'.
Proof.
  intros Hwf. unfold HandleSSE_return, deref.
  destruct (heap sh !! p) as [c|]; [|done]. simpl. intros [= <-].
  assert (∀ f id q,
    clients (removeClient (ID c) (set_logger f sh)) !! id = Some q →
    clients sh !! id = Some q) as Hsub.
  { intros f id q. simpl. by intros [_ ?]%lookup_delete_Some. }
  destruct (ready (Done c)); (split; [|split; [|split]]).
  all: try (intros q cq Hq; exists cq; split; [done|]; split; [constructor|done]).
  all: try (intros id q Hid; left; by eapply Hsub).
  all: try (intros id q Hid%Hsub; by apply Hwf).
  all: exists []; rewrite app_nil_r; split; [done|]; by intros d ?%elem_of_nil.
Qed.

Lemma wf_set_logger f sh : wf sh → wf (set_logger f sh).
Proof. done. Qed.

Lemma hub_step_set_logger f sh sh' : hub_step sh sh' → hub_step sh (set_logger f sh').
Proof. done. Qed.

Lemma handler_after_inv sh r sh' :
  handler_after sh r = Return sh' →
  ∃ e ms f, r = Return (e, ms) ∧
    sh' = set_logger f (default sh (Streamer.streamHandler ms)).
Proof.
  unfold handler_after. destruct r as [[e ms]|]; [|done]. simpl.
  intros [= <-]. eauto.
Qed.

Lemma StreamMessage_step m sh sh' :
  wf sh →
  handler_after sh (Streamer.StreamMessage m (GetStreamer sh)) = Return sh' →
  wf sh' ∧ hub_step sh sh'.
Proof.
  intros Hwf (e & ms & f & Hrun & ->)%handler_after_inv.
  unfold Streamer.StreamMessage in Hrun. simpl in Hrun.
  destruct (GetConnectedClients sh =? 0).
  { injection Hrun as <- <-. simpl. split; [done|by apply hub_step_refl]. }
  destruct (Streamer.formatMessageForSSE m) as [data|err].
  - destruct (BroadcastMessage _ data sh) as [sh2|] eqn:Hb; [|done].
    simpl in Hrun. injection Hrun as <- <-. simpl.
    destruct (BroadcastMessage_step _ _ _ _ Hwf Hb).
    split; [by apply wf_set_logger|by apply hub_step_set_logger].
  - injection Hrun as <- <-. simpl. split; [done|by apply hub_step_refl].
Qed.

Lemma StreamMessageToClient_step clientID m sh sh' :
  wf sh →
  handler_after sh (Streamer.StreamMessageToClient clientID m (GetStreamer sh))
  = Return sh' →
  wf sh' ∧ hub_step sh sh'.
Proof.
  intros Hwf (e & ms & f & Hrun & ->)%handler_after_inv.
  unfold Streamer.StreamMessageToClient in Hrun. simpl in Hrun.
  destruct (Streamer.formatMessageForSSE m) as [data|err].
  - destruct (SendToClient clientID _ data sh) as [sh2|] eqn:Hb; [|done].
    simpl in Hrun. injection Hrun as <- <-. simpl.
    destruct (SendToClient_step _ _ _ _ _ Hwf Hb).
    split; [by apply wf_set_logger|by apply hub_step_set_logger].
  - injection Hrun as <- <-. simpl. split; [done|by apply hub_step_refl].
Qed.

Lemma StreamError_step code msg data sh sh' :
  wf sh →
  handler_after sh (Streamer.StreamError code msg data (GetStreamer sh))
  = Return sh' →
  wf sh' ∧ hub_step sh sh'.
Proof.
  intros Hwf (e & ms & f & Hrun & ->)%handler_after_inv.
  unfold Streamer.StreamError in Hrun. simpl in Hrun.
  destruct (BroadcastMessage "error" _ sh) as [sh2|] eqn:Hb; [|done].
  simpl in Hrun. injection Hrun as <- <-. simpl.
  destruct (BroadcastMessage_step _ _ _ _ Hwf Hb).
  split; [by apply wf_set_logger|by apply hub_step_set_logger].
Qed.

(** Every call keeps the registry well formed and moves every connection
    object by a [conn_step]. *)
Lemma run_op_step o sh sh' :
  wf sh → run_op o sh = Return sh' → wf sh' ∧ hub_step sh sh'.
Proof.
  intros Hwf. destruct o; simpl.
  - intros [= <-]. split; [done|by apply hub_step_refl].
  - by apply Stop_step.
  - destruct (HandleSSE w sh) as [[r sh2]|] eqn:Hh; simpl; [|done].
    intros [= <-]. by eapply HandleSSE_step.
  - by apply HandleSSE_return_step.
  - by apply BroadcastMessage_step.
  - by apply SendToClient_step.
  - by apply sendHeartbeat_step.
  - by apply StreamMessage_step.
  - by apply StreamMessageToClient_step.
  - by apply StreamError_step.
  - intros [= <-]. split; [done|by apply hub_step_refl].
Qed.

End Steps.

(* ===================================================================== *)
(** * Runs of calls *)
(* ===================================================================== *)

Section Runs.
Implicit Types (sh : StreamHandler) (p q : loc) (c : ClientConnection).
Implicit Types (ops : list op).

Lemma wf_NewStreamHandler l t : wf (NewStreamHandler l t).
Proof. intros id p. simpl. by rewrite lookup_empty. Qed.

Lemma run_cons o ops sh sh' :
  run (o :: ops) sh = Return sh' →
  ∃ sh1, run_op o sh = Return sh1 ∧ run ops sh1 = Return sh'.
Proof.
  unfold run. simpl. destruct (run_op o sh) as [sh1|]; [|done]. simpl. eauto.
Qed.

(** Well-formedness is an invariant of the hub. *)
Lemma run_wf ops sh sh' : wf sh → run ops sh = Return sh' → wf sh'.
Proof.
  revert sh. induction ops as [|o ops IH]; intros sh Hwf Hrun.
  - unfold run in Hrun. simpl in Hrun. by injection Hrun as <-.
  - apply run_cons in Hrun as (sh1 & Ho & Hrun).
    destruct (run_op_step o sh sh1 Hwf Ho) as [Hwf1 _]. eauto.
Qed.

(** In particular every state the hub reaches from a new handler is well
    formed. *)
Lemma new_handler_run_wf ops l t sh :
  run ops (NewStreamHandler l t) = Return sh → wf sh.
Proof. apply run_wf, wf_NewStreamHandler. Qed.

Lemma conn_step_closed c c' : Done c = Closed → conn_step c c' → c' = c.
Proof.
  intros Hd [| |Ho]; [done| |congruence]. by apply delivered_closed.
Qed.

(** Once its [Done] channel is closed a connection object never changes
    again: nothing is written to it, whatever is called. *)
Lemma run_closed ops sh sh' p c :
  wf sh → run ops sh = Return sh' →
  heap sh !! p = Some c → Done c = Closed → heap sh' !! p = Some c.
Proof.
  revert sh. induction ops as [|o ops IH]; intros sh Hwf Hrun Hc Hd.
  - unfold run in Hrun. simpl in Hrun. by injection Hrun as <-.
  - apply run_cons in Hrun as (sh1 & Ho & Hrun).
    destruct (run_op_step o sh sh1 Hwf Ho) as [Hwf1 [Hstep _]].
    destruct (Hstep p c Hc) as (c' & Hc' & Hcs & _).
    apply (conn_step_closed c c' Hd) in Hcs as ->. eauto.
Qed.

(** A connection object no id leads to stays out of the registry and never
    changes again; no later delivery goes to it. *)
Lemma run_unregistered ops sh sh' p c :
  wf sh → run ops sh = Return sh' →
  heap sh !! p = Some c → (∀ id, clients sh !! id ≠ Some p) →
  heap sh' !! p = Some c ∧ (∀ id, clients sh' !! id ≠ Some p) ∧
  ∃ ds, deliveries sh' = deliveries sh ++ ds ∧ ∀ d, d ∈ ds → d.1.1 ≠ p.
Proof.
  revert sh. induction ops as [|o ops IH]; intros sh Hwf Hrun Hc Hno.
  - unfold run in Hrun. simpl in Hrun. injection Hrun as <-.
    split; [done|]. split; [done|]. exists []. rewrite app_nil_r.
    split; [done|]. by intros d ?%elem_of_nil.
  - apply run_cons in Hrun as (sh1 & Ho & Hrun).
    destruct (run_op_step o sh sh1 Hwf Ho)
      as [Hwf1 (Hstep & Hreg & ds1 & Hds1 & Hreach)].
    destruct (Hstep p c Hc) as (c' & Hc' & _ & Hsame).
    rewrite (Hsame Hno) in Hc'.
    destruct (IH sh1 Hwf1 Hrun Hc') as (Hc2 & Hno2 & ds2 & Hds2 & Hnot).
    { intros id Hid. destruct (Hreg id p Hid) as [Hold|Hnew].
      - by apply (Hno id).
      - congruence. }
    split; [done|]. split; [done|]. exists (ds1 ++ ds2).
    split; [by rewrite Hds2, Hds1, app_assoc|].
    intros d [Hd|Hd]%elem_of_app; [|by apply Hnot].
    intros Hp. destruct (Hreach d Hd) as [[id Hid]|Hnone].
    + apply (Hno id). by rewrite <- Hp.
    + rewrite Hp in Hnone. congruence.
Qed.

(** Sequentially a second write failure does not reach [close]: the
    [select] at the head of [sendEvent] returns first. *)
Lemma sendEvent_after_failure (p : loc) eventType data sh c :
  heap sh !! p = Some c → Done c = Closed →
  ∃ sh', sendEvent p eventType data sh = Return sh' ∧ heap sh' = heap sh.
Proof.
  intros Hc Hd.
  destruct (sendEvent_spec p eventType data sh c Hc)
    as (sh' & Hrun & (_&_&_&_&_&Hh&_)).
  exists sh'. split; [done|]. rewrite Hh. apply map_eq. intros q.
  destruct (decide (p = q)) as [->|Hne].
  - rewrite lookup_alter_eq, Hc. simpl. by rewrite (delivered_closed _ _ _ c Hd).
  - by rewrite lookup_alter_ne.
Qed.

End Runs.

(* ===================================================================== *)
(** * After [Stop] *)
(* ===================================================================== *)

(** C3.  [Stop] returns exactly when the handler was not stopped before and
    no registered connection has its [Done] channel closed already.  When
    it returns, the connected count is 0 and every connection that was
    registered has its [Done] channel closed, its sink as it was.  From then
    on no call writes to such a connection: the object is the same after
    any run of later calls (broadcast, unicast, heartbeat, streaming, new
    connections), a delivery attempted directly through a retained pointer
    returns without touching it, and a broadcast, a unicast or a heartbeat
    issued right after [Stop] makes no delivery at all. *)
Theorem Stop_drains sh :
  wf sh →
  ((∃ sh', Stop sh = Return sh') ↔
   stopCh sh = Open ∧
   ∀ id p c, clients sh !! id = Some p → heap sh !! p = Some c → Done c = Open) ∧
  ∀ sh', Stop sh = Return sh' →
    GetConnectedClients sh' = 0 ∧
    (∀ id p, clients sh !! id = Some p →
       ∃ c c', heap sh !! p = Some c ∧ heap sh' !! p = Some c' ∧
         Done c' = Closed ∧ Writer c' = Writer c) ∧
    (∀ ops sh'' id p, run ops sh' = Return sh'' → clients sh !! id = Some p →
       heap sh'' !! p = heap sh' !! p) ∧
    (∀ id p eventType data, clients sh !! id = Some p →
       ∃ sh2, sendEvent p eventType data sh' = Return sh2 ∧ heap sh2 = heap sh') ∧
    (∀ eventType data,
       ∃ sh2, BroadcastMessage eventType data sh' = Return sh2 ∧
         heap sh2 = heap sh' ∧ deliveries sh2 = deliveries sh') ∧
    (∀ clientID eventType data,
       ∃ sh2, SendToClient clientID eventType data sh' = Return sh2 ∧
         heap sh2 = heap sh' ∧ deliveries sh2 = deliveries sh') ∧
    (∃ sh2, sendHeartbeat sh' = Return sh2 ∧
       heap sh2 = heap sh' ∧ deliveries sh2 = deliveries sh').
Proof.
  intros Hwf. split.
  { split.
    - intros [sh' Hrun]. destruct (Stop_inv sh sh' Hwf Hrun) as (? & ? & _). done.
    - intros [Hstop Hopen].
      destruct (Stop_returns sh Hwf Hstop Hopen) as (sh' & Hrun & _). eauto. }
  intros sh' Hrun.
  destruct (Stop_step sh sh' Hwf Hrun) as [Hwf' _].
  destruct (Stop_inv sh sh' Hwf Hrun) as (_ & Hopen & Hcl & _ & _ & Hh & _).
  assert (∀ id p, clients sh !! id = Some p →
    ∃ c c', heap sh !! p = Some c ∧ heap sh' !! p = Some c' ∧
      Done c' = Closed ∧ Writer c' = Writer c) as Hfired.
  { intros id p Hid. destruct (Hwf _ _ Hid) as (c & Hc & _).
    exists c, (fired c). split; [done|]. split; [|done].
    rewrite Hh, deliver_all_in, Hc; [done|by apply snapshot_NoDup|].
    apply elem_of_snapshot. eauto. }
  assert (snapshot sh' = []) as Hsnap.
  { apply snapshot_empty. by rewrite Hcl, map_size_empty. }
  split. { unfold GetConnectedClients. by rewrite Hcl, map_size_empty. }
  split; [done|].
  split.
  { intros ops sh'' id p Hops Hid.
    destruct (Hfired id p Hid) as (c & c' & _ & Hc' & Hd & _).
    rewrite Hc'. by eapply run_closed. }
  split.
  { intros id p eventType data Hid.
    destruct (Hfired id p Hid) as (c & c' & _ & Hc' & Hd & _).
    by apply (sendEvent_after_failure p eventType data sh' c'). }
  split.
  { intros eventType data.
    destruct (BroadcastMessage_spec eventType data sh' Hwf')
      as (sh2 & Hrun2 & (_&_&_&_&_&Hh2&Hd2)).
    exists sh2. rewrite Hsnap in Hh2, Hd2. simpl in Hd2.
    by rewrite app_nil_r in Hd2. }
  split.
  { intros clientID eventType data.
    destruct (SendToClient_missing clientID eventType data sh')
      as (sh2 & Hrun2 & (_&_&_&_&_&Hh2&Hd2) & _).
    { by rewrite Hcl, lookup_empty. }
    exists sh2. by rewrite app_nil_r in Hd2. }
  destruct (sendHeartbeat_spec sh' Hwf') as (sh2 & Hrun2 & (_&_&_&_&_&Hh2&Hd2)).
  exists sh2. rewrite Hsnap in Hh2, Hd2. simpl in Hd2.
  by rewrite app_nil_r in Hd2.
Qed.

Lemma Stop_drains_witness :
  wf two_clients ∧ Stop two_clients = Return two_clients_stopped ∧
  GetConnectedClients two_clients_stopped = 0.
Proof.
  assert (wf two_clients) as Hwf by (apply wf_check_sound; vm_compute; reflexivity).
  assert (Stop two_clients = Return two_clients_stopped) as Hrun
    by (vm_compute; reflexivity).
  split; [exact Hwf|]. split; [exact Hrun|].
  exact (proj1 (proj2 (Stop_drains two_clients Hwf) two_clients_stopped Hrun)).
Defined.

(* ===================================================================== *)
(** * Witnesses of the fan-out and unicast theorems *)
(* ===================================================================== *)



(* ===================================================================== *)
(** * Messages with none of the shapes *)
(* ===================================================================== *)

(** C4, as worded, fails: a message that is neither request, response nor
    notification is not refused.  With two clients connected,
    [StreamMessage] returns nil and delivers it to both, and
    [StreamMessageToClient] returns nil and delivers it to the client named;
    the frame on the sink carries the event type [mcp_message]. *)
Lemma malformed_is_delivered :
  malformed bare_message = true ∧
  (∃ ms' sh' c data,
     Streamer.StreamMessage bare_message (GetStreamer two_clients)
     = Return (None, ms') ∧
     Streamer.streamHandler ms' = Some sh' ∧
     length (deliveries sh') = (length (deliveries two_clients) + 2)%nat ∧
     Streamer.formatMessageForSSE bare_message = Ok data ∧
     heap sh' !! 0%nat = Some c ∧
     last (written (Writer c)) = Some (formatSSEEvent "mcp_message" data)) ∧
  (∃ ms' sh' c data,
     Streamer.StreamMessageToClient "client_1" bare_message (GetStreamer two_clients)
     = Return (None, ms') ∧
     Streamer.streamHandler ms' = Some sh' ∧
     length (deliveries sh') = (length (deliveries two_clients) + 1)%nat ∧
     Streamer.formatMessageForSSE bare_message = Ok data ∧
     heap sh' !! 0%nat = Some c ∧
     last (written (Writer c)) = Some (formatSSEEvent "mcp_message" data)).
Proof.
  split; [reflexivity|]. split.
  - eexists _, _, _, _. split; [vm_compute; reflexivity|].
    split; [reflexivity|]. split; [vm_compute; reflexivity|].
    split; [vm_compute; reflexivity|]. split; vm_compute; reflexivity.
  - eexists _, _, _, _. split; [vm_compute; reflexivity|].
    split; [reflexivity|]. split; [vm_compute; reflexivity|].
    split; [vm_compute; reflexivity|]. split; vm_compute; reflexivity.
Qed.

(** C4, amended: a message that matches none of the shapes is delivered
    like any other, under the generic event type [mcp_message] and in a
    payload without a message-type field.  If the message serializes,
    [StreamMessage] on a registry that is not empty returns nil after one
    delivery per registered connection, and [StreamMessageToClient] for a
    registered id returns nil after one delivery to that connection. *)
Theorem malformed_message_streamed sh m data :
  wf sh → malformed m = true → Streamer.formatMessageForSSE m = Ok data →
  Streamer.getEventType m = "mcp_message" ∧
  get "message_type" data = None ∧
  (size (clients sh) ≠ 0%nat →
     ∃ ms' sh',
       Streamer.StreamMessage m (GetStreamer sh) = Return (None, ms') ∧
       Streamer.streamHandler ms' = Some sh' ∧
       deliveries sh' =
         deliveries sh ++ ((λ p, (p, "mcp_message", data)) <$> snapshot sh)) ∧
  (∀ clientID p, clients sh !! clientID = Some p →
     ∃ ms' sh',
       Streamer.StreamMessageToClient clientID m (GetStreamer sh)
       = Return (None, ms') ∧
       Streamer.streamHandler ms' = Some sh' ∧
       deliveries sh' = deliveries sh ++ [(p, "mcp_message", data)]).
Proof.
  intros Hwf Hmal Hdata.
  pose proof (malformed_event_type m Hmal) as Het.
  split; [done|]. split.
  { destruct (formatMessageForSSE_inv m data Hdata) as (_ & _ & _ & _ & Hty).
    by rewrite Hty, (malformed_message_type m Hmal). }
  split.
  - intros Hnz.
    destruct (StreamMessage_broadcasts m data sh Hwf Hnz Hdata)
      as (ms' & sh' & Hrun & Hh & (_&_&_&_&_&_&Hdel)).
    exists ms', sh'. by rewrite <- Het.
  - intros clientID p Hid.
    rewrite (StreamMessageToClient_sends clientID m data sh Hdata).
    destruct (SendToClient_found clientID (Streamer.getEventType m) data sh p Hwf Hid)
      as (sh' & Hrun & (_&_&_&_&_&_&Hdel)).
    rewrite Hrun. simpl. eexists _, sh'. split; [done|]. split; [done|].
    by rewrite <- Het.
Qed.

Lemma malformed_message_streamed_witness :
  wf two_clients ∧ malformed bare_message = true ∧
  Streamer.getEventType bare_message = "mcp_message".
Proof.
  assert (wf two_clients) as Hwf by (apply wf_check_sound; vm_compute; reflexivity).
  split; [exact Hwf|]. split; [reflexivity|].
  destruct (Streamer.formatMessageForSSE bare_message) as [data|e] eqn:Hdata;
    [|discriminate Hdata].
  exact (proj1 (malformed_message_streamed two_clients bare_message data
                  Hwf eq_refl Hdata)).
Defined.

(** The only error [StreamMessage] returns is the serializer's. *)
Lemma StreamMessage_error m sh e ms' :
  wf sh →
  Streamer.StreamMessage m (GetStreamer sh) = Return (Some e, ms') →
  message_map m = Err e.
Proof.
  intros Hwf. unfold Streamer.StreamMessage. simpl.
  destruct (GetConnectedClients sh =? 0); [done|].
  destruct (Streamer.formatMessageForSSE m) as [data|err] eqn:Hd.
  - destruct (BroadcastMessage _ data sh); [|done]. done.
  - intros [= <- <-]. destruct (message_map m) as [body|e'] eqn:Hb.
    + destruct (formatMessageForSSE_Ok m body Hb) as (d & Hd' & _). congruence.
    + rewrite (formatMessageForSSE_Err m e' Hb) in Hd. congruence.
Qed.

(* ===================================================================== *)
(** * The timestamp of a payload *)
(* ===================================================================== *)

(** Whatever the message, the payload carries the original message body,
    the value of [getCurrentTimestamp] and, for a message with one of the
    shapes, its message type. *)
Lemma payload_fields m data :
  Streamer.formatMessageForSSE m = Ok data →
  (∃ body, message_map m = Ok body ∧ get "mcp_message" data = Some body) ∧
  get "timestamp" data = Some (VInt 1640995200) ∧
  (malformed m = false → ∃ ty, get "message_type" data = Some (VStr ty)).
Proof.
  intros Hd. destruct (formatMessageForSSE_inv m data Hd) as (body & Hb & ? & ? & Hty).
  split; [eauto|]. split; [done|].
  intros [ty Hm]%classified_message_type. exists ty. by rewrite Hty, Hm.
Qed.

(** C6 at a concrete delivery: a notification streamed to a client at clock
    reading 1700000000 s reaches the sink in a frame whose payload is stamped
    1640995200, the placeholder [getCurrentTimestamp] returns, while the
    connection's [LastSeen] shows the time of the delivery. *)
Theorem payload_timestamp_is_placeholder :
  now late_hub / second = 1700000000 ∧
  ∃ data ms' sh' c,
    Streamer.formatMessageForSSE progress_notification = Ok data ∧
    Streamer.StreamMessage progress_notification (GetStreamer late_hub)
    = Return (None, ms') ∧
    Streamer.streamHandler ms' = Some sh' ∧
    heap sh' !! 0%nat = Some c ∧
    last (written (Writer c)) = Some (formatSSEEvent "mcp_notification" data) ∧
    LastSeen c / second = 1700000000 ∧
    get "timestamp" data = Some (VInt 1640995200).
Proof.
  split; [reflexivity|]. eexists _, _, _, _.
  split; [vm_compute; reflexivity|]. split; [vm_compute; reflexivity|].
  split; [reflexivity|]. split; [vm_compute; reflexivity|].
  split; [vm_compute; reflexivity|]. split; vm_compute; reflexivity.
Qed.

(* ===================================================================== *)
(** * Closing [Done] twice *)
(* ===================================================================== *)

(** C7 at a concrete run: a client connects, the write of its first frame
    fails and closes [Done]; the connection is still registered when
    [Stop] runs, and [Stop] closes [Done] again: the process panics. *)
Theorem Stop_after_write_failure_panics :
  (∃ c, clients one_broken_client !! "client_1" = Some 0%nat ∧
        heap one_broken_client !! 0%nat = Some c ∧
        written (Writer c) = [] ∧ Done c = Closed) ∧
  run [Clock_ 1; HandleSSE_ brokenResponseWriter; Stop_] (NewStreamHandler [] 0)
  = Panic "close of closed channel" ∧
  Stop one_broken_client = Panic "close of closed channel".
Proof.
  split; [eexists; repeat split; vm_compute; reflexivity|].
  split; vm_compute; reflexivity.
Qed.

(* ===================================================================== *)
(** * Client ids *)
(* ===================================================================== *)

(** Ids made at different clock readings differ. *)
Lemma generateClientID_inj sh1 sh2 :
  generateClientID sh1 = generateClientID sh2 → now sh1 = now sh2.
Proof.
  unfold generateClientID. intros H.
  apply (inj (String.append "client_")) in H. by apply (inj pretty) in H.
Qed.

(** Two connections accepted at the same clock reading get the same id, and
    the second takes the place of the first in the registry. *)
Lemma HandleSSE_same_clock_collides w1 w2 sh :
  wf sh → can_flush w1 = true → can_flush w2 = true →
  ∃ p1 sh1 p2 sh2 c1 c2,
    HandleSSE w1 sh = Return (inr p1, sh1) ∧
    HandleSSE w2 sh1 = Return (inr p2, sh2) ∧
    p1 ≠ p2 ∧
    heap sh2 !! p1 = Some c1 ∧ heap sh2 !! p2 = Some c2 ∧
    ID c1 = ID c2 ∧
    clients sh2 !! ID c2 = Some p2 ∧
    GetConnectedClients sh2 = GetConnectedClients sh1.
Proof.
  intros Hwf Hw1 Hw2.
  destruct (HandleSSE_spec w1 sh Hw1)
    as (p1 & sh1 & Hrun1 & Hf1 & Hcl1 & Hh1 & Hnow1 & _).
  destruct (HandleSSE_spec w2 sh1 Hw2)
    as (p2 & sh2 & Hrun2 & Hf2 & Hcl2 & Hh2 & Hnow2 & _).
  assert (generateClientID sh1 = generateClientID sh) as Hid
    by (unfold generateClientID; by rewrite Hnow1).
  assert (p1 ≠ p2) as Hne.
  { intros <-. by rewrite Hh1, lookup_insert_eq in Hf2. }
  eexists p1, sh1, p2, sh2, _, _. split; [done|]. split; [done|]. split; [done|].
  split. { rewrite Hh2, lookup_insert_ne, Hh1, lookup_insert_eq by done. done. }
  split. { by rewrite Hh2, lookup_insert_eq. }
  rewrite !delivered_ID. simpl. split; [done|].
  split. { by rewrite Hcl2, lookup_insert_eq. }
  unfold GetConnectedClients. f_equal.
  rewrite Hcl2, Hid, Hcl1. by rewrite insert_insert_eq, !map_size_insert.
Qed.

(** C8 at a concrete run: two clients accepted at the same clock reading
    are both given the id [client_1]; the registry counts one client. *)
Theorem same_clock_same_id :
  ∃ sh c1 c2,
    run [Clock_ 1; HandleSSE_ newMockResponseWriter; HandleSSE_ newMockResponseWriter]
      (NewStreamHandler [] 0) = Return sh ∧
    heap sh !! 0%nat = Some c1 ∧ heap sh !! 1%nat = Some c2 ∧
    ID c1 = "client_1" ∧ ID c2 = "client_1" ∧
    clients sh !! "client_1" = Some 1%nat ∧
    GetConnectedClients sh = 1.
Proof.
  eexists _, _, _. split; [vm_compute; reflexivity|].
  split; [vm_compute; reflexivity|]. split; [vm_compute; reflexivity|].
  repeat split; vm_compute; reflexivity.
Qed.

(* ===================================================================== *)
(** * Connections no goroutine can get at *)
(* ===================================================================== *)

Section Reach.
Import Concurrent.
Implicit Types (cfg : config) (p : loc).

Lemma move_out_of_reach p i c at_ at' cfg cfg0 :
  out_of_reach p cfg → goroutines cfg !! i = Some (c, at_) →
  goroutines cfg0 = goroutines cfg → holds p at' = false →
  (∀ id, registry cfg0 !! id ≠ Some p) →
  out_of_reach p (move i (c, at') cfg0).
Proof.
  intros [_ Hgs] Hg Hsame Hat' Hreg. split; [done|].
  intros j c' a'. simpl. rewrite Hsame.
  destruct (decide (i = j)) as [<-|Hne].
  - rewrite list_lookup_insert_eq by (by eapply lookup_lt_Some).
    intros [= <- <-]. split; [done|]. by apply (Hgs i c at_).
  - rewrite list_lookup_insert_ne by done. apply Hgs.
Qed.

Lemma crash_out_of_reach p i c at_ cfg cfg0 :
  out_of_reach p cfg → goroutines cfg !! i = Some (c, at_) →
  goroutines cfg0 = goroutines cfg →
  (∀ id, registry cfg0 !! id ≠ Some p) →
  out_of_reach p (crash i c cfg0).
Proof.
  intros Hout Hg Hsame Hreg.
  by apply (move_out_of_reach p i c at_ Panicked cfg cfg0).
Qed.

Lemma targets_out_of_reach p c cfg :
  (∀ id, registry cfg !! id ≠ Some p) → p ∉ targets c (registry cfg).
Proof.
  intros Hreg Hin.
  assert (∃ id, registry cfg !! id = Some p) as [id Hid]; [|by apply (Hreg id)].
  destruct c; simpl in Hin.
  - apply list_elem_of_fmap in Hin as [[id q] [-> Hin]].
    exists id. by apply elem_of_map_to_list.
  - destruct (registry cfg !! clientID) as [q|] eqn:Hq.
    + apply list_elem_of_singleton in Hin as ->. eauto.
    + by apply elem_of_nil in Hin.
  - apply list_elem_of_fmap in Hin as [[id q] [-> Hin]].
    exists id. by apply elem_of_map_to_list.
  - by apply elem_of_nil in Hin.
  - by apply elem_of_nil in Hin.
Qed.

Lemma holds_cons p client (todo : list loc) :
  bool_decide (p ∈ client :: todo) = false →
  bool_decide (client = p) || bool_decide (p ∈ todo) = false.
Proof.
  intros Hin%bool_decide_eq_false. apply not_elem_of_cons in Hin as [Hne Hin].
  rewrite bool_decide_eq_false_2 by congruence.
  by rewrite bool_decide_eq_false_2.
Qed.

Lemma holds_client p client (todo : list loc) :
  bool_decide (client = p) || bool_decide (p ∈ todo) = false →
  client ≠ p ∧ bool_decide (p ∈ todo) = false.
Proof.
  intros [H1 H2]%orb_false_elim. split; [|done]. by apply bool_decide_eq_false in H1.
Qed.

(** One statement of one goroutine leaves such a connection alone and out
    of reach. *)
Lemma step_out_of_reach p i cfg cfg' :
  out_of_reach p cfg → step i cfg = Some cfg' →
  out_of_reach p cfg' ∧ objects cfg' !! p = objects cfg !! p.
Proof.
  intros Hout. pose proof Hout as [Hreg Hgs]. unfold step.
  destruct (crashed cfg); [done|].
  destruct (goroutines cfg !! i) as [[c at_]|] eqn:Hg; [|done].
  destruct (Hgs i c at_ Hg) as [Hat Hc].
  destruct at_ as [| |todo|[|client todo]|client todo|client todo|client todo
                  |client todo|client todo|client todo| | | | |];
    simpl in Hat.
  - destruct (mux_writer cfg); [done|]. intros [= <-].
    split; [by eapply move_out_of_reach|done].
  - intros [= <-]. split; [|done].
    eapply move_out_of_reach; eauto. simpl.
    apply bool_decide_eq_false_2. by apply targets_out_of_reach.
  - intros [= <-]. split; [by eapply move_out_of_reach|done].
  - intros [= <-]. split; [by eapply move_out_of_reach|done].
  - intros [= <-]. split; [|done].
    eapply move_out_of_reach; eauto. simpl. by apply holds_cons.
  - apply holds_client in Hat as [Hne Htodo].
    destruct (objects cfg !! client) as [o|].
    + destruct (ready (Done o)); intros [= <-];
        (split; [eapply move_out_of_reach; eauto|done]).
      simpl. rewrite Htodo. by rewrite bool_decide_eq_false_2.
    + intros [= <-]. split; [by eapply crash_out_of_reach|done].
  - intros [= <-]. split; [by eapply move_out_of_reach|done].
  - pose proof Hat as [Hne Htodo]%holds_client.
    destruct (objects cfg !! client) as [o|].
    + destruct (Write _ (Writer o)); intros [= <-].
      * split; [by eapply move_out_of_reach|].
        simpl. by rewrite lookup_insert_ne.
      * split; [by eapply move_out_of_reach|done].
    + intros [= <-]. split; [by eapply crash_out_of_reach|done].
  - apply holds_client in Hat as [Hne Htodo].
    destruct (objects cfg !! client) as [o|].
    + destruct (close (Done o)); intros [= <-].
      * split; [by eapply move_out_of_reach|].
        simpl. by rewrite lookup_insert_ne.
      * split; [by eapply crash_out_of_reach|done].
    + intros [= <-]. split; [by eapply crash_out_of_reach|done].
  - pose proof Hat as [Hne Htodo]%holds_client.
    destruct (objects cfg !! client) as [o|]; intros [= <-].
    + split; [by eapply move_out_of_reach|].
      simpl. by rewrite lookup_insert_ne.
    + split; [by eapply crash_out_of_reach|done].
  - apply holds_client in Hat as [Hne Htodo].
    destruct (objects cfg !! client) as [o|]; intros [= <-].
    + split; [by eapply move_out_of_reach|].
      simpl. by rewrite lookup_insert_ne.
    + split; [by eapply crash_out_of_reach|done].
  - destruct (mux_writer cfg || negb (Nat.eqb (mux_readers cfg) 0)); [done|].
    intros [= <-]. split; [by eapply move_out_of_reach|done].
  - destruct c as [| | |clientID|clientID client].
    1-3: intros [= <-]; split; [by eapply move_out_of_reach|done].
    + intros [= <-]. split; [|done].
      eapply move_out_of_reach; eauto. intros id. simpl.
      by intros [_ ?%Hreg]%lookup_delete_Some.
    + destruct (objects cfg !! client) as [o|]; intros [= <-].
      * split; [|done]. eapply move_out_of_reach; eauto. intros id. simpl.
        destruct (decide (ID o = id)) as [<-|Hne].
        -- rewrite lookup_insert_eq. intros [= ->]. by apply (Hc clientID).
        -- rewrite lookup_insert_ne by done. apply Hreg.
      * split; [by eapply crash_out_of_reach|done].
  - intros [= <-]. split; [|done].
    eapply move_out_of_reach; eauto.
    destruct c as [| | |clientID|clientID client]; try done.
    simpl. rewrite orb_false_r. apply bool_decide_eq_false_2.
    intros ->. by apply (Hc clientID).
  - done.
  - done.
Qed.

Lemma exec_out_of_reach p schedule cfg cfg' :
  out_of_reach p cfg → exec schedule cfg = Some cfg' →
  out_of_reach p cfg' ∧ objects cfg' !! p = objects cfg !! p.
Proof.
  revert cfg. induction schedule as [|i rest IH]; intros cfg Hout; simpl.
  - by intros [= <-].
  - destruct (step i cfg) as [cfg1|] eqn:Hstep; [|done]. intros Hexec.
    destruct (step_out_of_reach p i cfg cfg1 Hout Hstep) as [Hout1 Hobj1].
    destruct (IH cfg1 Hout1 Hexec) as [Hout' Hobj']. split; [done|congruence].
Qed.

(** Calls that have not started yet hold nothing. *)
Lemma spawn_out_of_reach p registry objects clock calls :
  (∀ id, registry !! id ≠ Some p) → (∀ id, Connect id p ∉ calls) →
  out_of_reach p (spawn registry objects clock calls).
Proof.
  intros Hreg Hcalls. split; [done|]. intros i c at_. simpl.
  rewrite list_lookup_fmap. destruct (calls !! i) as [c0|] eqn:Hi; [|done].
  simpl. intros [= Hstart].
  assert (c = c0 ∧ holds p at_ = false) as [-> Hat].
  { destruct c0; simpl in Hstart; by injection Hstart as <- <-. }
  split; [done|]. intros id ->. apply (Hcalls id). by eapply list_elem_of_lookup_2.
Qed.

End Reach.

(* ===================================================================== *)
(** * Registering under an id that is taken *)
(* ===================================================================== *)

(** C10, as worded, fails for deliveries in flight.  The replacement
    happens only when two [HandleSSE] calls read the same clock, and
    [HandleSSE] sends the [connected] event after [addClient], outside the
    lock.  First run: two such calls; the second has replaced the first in
    the registry when the first sends its [connected] event to its own,
    displaced, connection; the write fails and [sendEvent] closes the
    [Done] channel of the displaced connection.  Second run: a broadcast
    has copied the registry when [HandleSSE] replaces the entry; the
    broadcast then writes its frame to the displaced connection. *)
Lemma displaced_connection_is_reached :
  (∃ cfg1 cfg2 c0 c0',
     Concurrent.exec [0; 0; 0; 1; 1; 1]%nat two_connects_broken = Some cfg1 ∧
     Concurrent.registry cfg1 !! "client_1" = Some 1%nat ∧
     Concurrent.objects cfg1 !! 0%nat = Some c0 ∧
     Done c0 = Open ∧ written (Writer c0) = [] ∧
     Concurrent.exec [0; 0; 0; 0; 0]%nat cfg1 = Some cfg2 ∧
     Concurrent.crashed cfg2 = false ∧
     Concurrent.registry cfg2 !! "client_1" = Some 1%nat ∧
     Concurrent.objects cfg2 !! 0%nat = Some c0' ∧
     Done c0' = Closed) ∧
  (∃ cfg1 cfg2 c0 c0',
     Concurrent.exec [0; 0; 0; 1; 1; 1]%nat broadcast_and_connect = Some cfg1 ∧
     Concurrent.registry cfg1 !! "client_1" = Some 1%nat ∧
     Concurrent.objects cfg1 !! 0%nat = Some c0 ∧
     Done c0 = Open ∧ written (Writer c0) = [] ∧
     Concurrent.exec [0; 0; 0; 0; 0; 0; 0]%nat cfg1 = Some cfg2 ∧
     Concurrent.crashed cfg2 = false ∧
     Concurrent.registry cfg2 !! "client_1" = Some 1%nat ∧
     Concurrent.objects cfg2 !! 0%nat = Some c0' ∧
     written (Writer c0') = [formatSSEEvent "test" (VStr "a")]).
Proof.
  split.
  - eexists _, _, _, _. split; [vm_compute; reflexivity|].
    split; [vm_compute; reflexivity|]. split; [vm_compute; reflexivity|].
    split; [reflexivity|]. split; [reflexivity|].
    split; [vm_compute; reflexivity|]. split; [reflexivity|].
    split; [vm_compute; reflexivity|]. split; [vm_compute; reflexivity|].
    reflexivity.
  - eexists _, _, _, _. split; [vm_compute; reflexivity|].
    split; [vm_compute; reflexivity|]. split; [vm_compute; reflexivity|].
    split; [reflexivity|]. split; [reflexivity|].
    split; [vm_compute; reflexivity|]. split; [reflexivity|].
    split; [vm_compute; reflexivity|]. split; [vm_compute; reflexivity|].
    vm_compute. reflexivity.
Qed.

(** C10, amended.  [addClient] with a connection whose id is already in the
    registry replaces the entry: the id now leads to the new connection,
    the connected count is the same, and the replacement touches no
    connection object - it closes no [Done] channel and writes nothing.
    No call that starts after the replacement reaches the displaced
    connection: after any run of later calls, [Stop] included, and at
    every point of every interleaving of deliveries, removals and
    [HandleSSE] registrations started afterwards - each [HandleSSE] builds
    a connection of its own, so none registers the displaced one - its
    object is what it was, [Done] not closed by anyone, nothing written,
    no delivery, no id leads to it and no goroutine holds it.  Only a
    delivery that was in flight at the replacement can still reach it. *)
Theorem addClient_replaces sh id old new c :
  wf sh → clients sh !! id = Some old →
  heap sh !! new = Some c → ID c = id → new ≠ old →
  ∃ sh',
    addClient new sh = Return sh' ∧
    clients sh' !! id = Some new ∧
    GetConnectedClients sh' = GetConnectedClients sh ∧
    heap sh' = heap sh ∧
    deliveries sh' = deliveries sh ∧
    logger sh' = logger sh ∧
    (∀ ops sh'', run ops sh' = Return sh'' →
       heap sh'' !! old = heap sh !! old ∧
       (∀ id', clients sh'' !! id' ≠ Some old) ∧
       ∃ ds, deliveries sh'' = deliveries sh ++ ds ∧ ∀ d, d ∈ ds → d.1.1 ≠ old) ∧
    (∀ clock calls schedule cfg,
       (∀ clientID, Concurrent.Connect clientID old ∉ calls) →
       Concurrent.exec schedule
         (Concurrent.spawn (clients sh') (heap sh') clock calls) = Some cfg →
       Concurrent.objects cfg !! old = heap sh !! old ∧
       (∀ id', Concurrent.registry cfg !! id' ≠ Some old) ∧
       ∀ i g at_, Concurrent.goroutines cfg !! i = Some (g, at_) →
         Concurrent.holds old at_ = false).
Proof.
  intros Hwf Hold Hc HID Hne.
  unfold addClient, deref. rewrite Hc. simpl. rewrite HID.
  eexists. split; [reflexivity|]. simpl.
  split; [by rewrite lookup_insert_eq|].
  split. { unfold GetConnectedClients. simpl. f_equal.
           rewrite map_size_insert, Hold. done. }
  split; [done|]. split; [done|]. split; [done|].
  assert (∀ id', <[id:=new]> (clients sh) !! id' ≠ Some old) as Hgone.
  { intros id'. destruct (decide (id = id')) as [<-|Hneq].
    - rewrite lookup_insert_eq. congruence.
    - rewrite lookup_insert_ne by done. intros Hid'.
      destruct (Hwf _ _ Hold) as (cold & Hcold & HIDold).
      destruct (Hwf _ _ Hid') as (c' & Hc' & HID'). congruence. }
  split.
  - intros ops sh'' Hrun.
    destruct (Hwf _ _ Hold) as (cold & Hcold & HIDold).
    rewrite Hcold.
    apply (run_unregistered ops (set_clients (<[id:=new]> (clients sh)) sh)
             sh'' old cold); [|exact Hrun|done|done].
    intros id' q. simpl. destruct (decide (id = id')) as [<-|Hneq].
    + rewrite lookup_insert_eq. intros [= <-]. eauto.
    + rewrite lookup_insert_ne by done. apply Hwf.
  - intros clock calls schedule cfg Hcalls Hexec.
    destruct (exec_out_of_reach old schedule _ cfg
                (spawn_out_of_reach old (<[id:=new]> (clients sh)) (heap sh)
                   clock calls Hgone Hcalls) Hexec) as [[Hreg Hgs] Hobj].
    split; [done|]. split; [done|]. intros i g at_ Hg. by apply (Hgs i g at_).
Qed.

Lemma addClient_replaces_witness :
  wf two_clients_and_twin.2 ∧
  clients two_clients_and_twin.2 !! "client_1" = Some 0%nat ∧
  ∃ sh', addClient two_clients_and_twin.1 two_clients_and_twin.2 = Return sh' ∧
    clients sh' !! "client_1" = Some two_clients_and_twin.1 ∧
    GetConnectedClients sh' = 2.
Proof.
  assert (wf two_clients_and_twin.2) as Hwf
    by (apply wf_check_sound; vm_compute; reflexivity).
  split; [exact Hwf|]. split; [vm_compute; reflexivity|].
  destruct (addClient_replaces two_clients_and_twin.2 "client_1" 0%nat
              two_clients_and_twin.1
              {| ID := "client_1"; Writer := newMockResponseWriter;
                 Done := Open; LastSeen := 3 |} Hwf)
    as (sh' & Hadd & Hnew & Hcount & _).
  - vm_compute; reflexivity.
  - vm_compute; reflexivity.
  - reflexivity.
  - vm_compute. discriminate.
  - exists sh'. split; [exact Hadd|]. split; [exact Hnew|].
    rewrite Hcount. vm_compute. reflexivity.
Defined.

(** When the goroutine of a displaced connection returns, its deferred
    [removeClient] takes the id out of the registry - the id its successor
    is filed under. *)
Lemma displaced_return_removes_successor sh id old new c :
  clients sh !! id = Some new → heap sh !! old = Some c → ID c = id →
  ∃ sh', HandleSSE_return old sh = Return sh' ∧
    clients sh' !! id = None ∧ heap sh' = heap sh.
Proof.
  intros Hnew Hc HID. unfold HandleSSE_return, deref. rewrite Hc. simpl.
  rewrite HID. destruct (ready (Done c)); eexists; (split; [reflexivity|]);
    simpl; by rewrite lookup_delete_eq.
Qed.

(* ===================================================================== *)
(** * Concurrent deliveries *)
(* ===================================================================== *)

Section Interleavings.
Import Concurrent.
Implicit Types (cfg : config) (g : goroutine) (gs : list goroutine).

Lemma count_insert f gs i g g' :
  gs !! i = Some g →
  (count f (<[i := g']> gs) + (if f g then 1 else 0)
   = count f gs + (if f g' then 1 else 0))%nat.
Proof.
  revert i. induction gs as [|g0 gs IH]; intros i Hi; [done|].
  destruct i as [|i]; simpl in *.
  - injection Hi as ->. lia.
  - specialize (IH i Hi). lia.
Qed.

Lemma count_start f calls :
  (∀ c, f (start c) = false) → count f (start <$> calls) = 0%nat.
Proof.
  intros Hf. induction calls as [|c calls IH]; [done|].
  rewrite fmap_cons. cbn [count]. by rewrite Hf, IH.
Qed.

Lemma spawn_mux_consistent registry objects clock calls :
  mux_consistent (spawn registry objects clock calls).
Proof.
  unfold mux_consistent. simpl.
  rewrite !count_start; [done| |]; by intros [].
Qed.

Ltac step_counts Hg Hmw :=
  match goal with
  | |- mux_consistent (crash ?i ?c ?cfg) =>
      pose proof (count_insert holds_read _ i _ (c, Panicked) Hg);
      pose proof (count_insert holds_write _ i _ (c, Panicked) Hg)
  | |- mux_consistent (move ?i ?g' ?cfg) =>
      pose proof (count_insert holds_read _ i _ g' Hg);
      pose proof (count_insert holds_write _ i _ g' Hg)
  end;
  unfold mux_consistent, holds_read, holds_write in *; simpl in *;
  rewrite ?Hmw in *; simpl in *;
  repeat match goal with
         | H : _ ∧ _ |- _ => destruct H
         | H : true = true → _ |- _ => specialize (H eq_refl)
         end;
  repeat split; try lia; try (intros; lia); try (intros; discriminate).

(** The lock bookkeeping survives every statement of every goroutine. *)
Lemma step_mux_consistent i cfg cfg' :
  mux_consistent cfg → step i cfg = Some cfg' → mux_consistent cfg'.
Proof.
  intros Hinv. unfold step.
  destruct (crashed cfg); [done|].
  destruct (goroutines cfg !! i) as [[c at_]|] eqn:Hg; [|done].
  destruct (mux_writer cfg) eqn:Hmw;
  destruct at_ as [| |todo|[|client todo]|client todo|client todo|client todo
                  |client todo|client todo|client todo| | | | |];
  try done;
  repeat match goal with
         | |- context [objects cfg !! ?client] =>
             destruct (objects cfg !! client) as [?o|]
         | |- context [ready (Done ?o)] => destruct (ready (Done o))
         | |- context [Write ?e (Writer ?o)] => destruct (Write e (Writer o))
         | |- context [close (Done ?o)] => destruct (close (Done o))
         | |- context [Nat.eqb (mux_readers cfg) 0] =>
             destruct (Nat.eqb (mux_readers cfg) 0) eqn:Hr;
             [apply Nat.eqb_eq in Hr|]
         | |- context [match ?c with Broadcast _ _ => _ | _ => _ end] => destruct c
         end;
  try done; simpl; intros [= <-]; step_counts Hg Hmw.
Qed.

Lemma exec_mux_consistent schedule cfg cfg' :
  mux_consistent cfg → exec schedule cfg = Some cfg' → mux_consistent cfg'.
Proof.
  revert cfg. induction schedule as [|i rest IH]; intros cfg Hinv; simpl.
  - by intros [= <-].
  - destruct (step i cfg) as [cfg1|] eqn:Hstep; [|done].
    apply IH. by eapply step_mux_consistent.
Qed.

End Interleavings.

(** C9, as worded, fails: with one client registered, a broadcast and a
    heartbeat started together can both be inside [Writer.Write] on that
    client's sink.  Each goroutine takes the read lock, copies the clients,
    releases the lock, passes the [select] and enters the write; nothing
    makes the second wait for the first. *)
Lemma writes_overlap :
  ∃ cfg,
    Concurrent.exec [0; 0; 0; 0; 0; 0; 1; 1; 1; 1; 1; 1]%nat two_broadcasts = Some cfg ∧
    Concurrent.goroutines cfg !! 0%nat
      = Some (Concurrent.Broadcast "test" (VStr "a"), Concurrent.InWrite 0%nat []) ∧
    Concurrent.goroutines cfg !! 1%nat
      = Some (Concurrent.Heartbeat, Concurrent.InWrite 0%nat []) ∧
    Concurrent.mux_readers cfg = 0%nat ∧
    ¬ Concurrent.write_exclusive cfg.
Proof.
  eexists. split; [vm_compute; reflexivity|].
  split; [reflexivity|]. split; [reflexivity|]. split; [reflexivity|].
  intros Hex. specialize (Hex 0%nat). vm_compute in Hex. lia.
Qed.

(** With a sink that fails, the same interleaving lets both goroutines
    reach [close(client.Done)]: the second close panics. *)
Lemma concurrent_write_failures_panic :
  ∃ cfg,
    Concurrent.exec [0; 0; 0; 0; 0; 0; 1; 1; 1; 1; 1; 1; 0; 1; 0; 1]%nat
      two_broadcasts_broken = Some cfg ∧
    Concurrent.crashed cfg = true.
Proof. eexists. split; [vm_compute; reflexivity|reflexivity]. Qed.

(** C9, amended: the only lock on the delivery paths is the registry's
    [clientsMux], and it is held only while the client map is copied, looked
    up or changed - at every point of every interleaving its readers are
    the goroutines between [RLock] and [RUnlock] and its writer the one
    between [Lock] and [Unlock] - never during a write to a sink.  A
    connection has no lock of its own: a goroutine that is about to write
    to a sink enters the write at once, whatever the other goroutines are
    doing, so concurrent writes to one sink are not serialized. *)
Theorem delivery_takes_no_lock registry objects clock calls schedule cfg :
  Concurrent.exec schedule (Concurrent.spawn registry objects clock calls) = Some cfg →
  Concurrent.mux_consistent cfg ∧
  ∀ i c client todo,
    Concurrent.goroutines cfg !! i = Some (c, Concurrent.AtFprint client todo) →
    Concurrent.crashed cfg = false →
    ∃ cfg',
      Concurrent.step i cfg = Some cfg' ∧
      Concurrent.goroutines cfg' !! i = Some (c, Concurrent.InWrite client todo) ∧
      Concurrent.objects cfg' = Concurrent.objects cfg ∧
      Concurrent.mux_readers cfg' = Concurrent.mux_readers cfg ∧
      Concurrent.mux_writer cfg' = Concurrent.mux_writer cfg.
Proof.
  intros Hexec. split.
  - eapply exec_mux_consistent; [|exact Hexec]. apply spawn_mux_consistent.
  - intros i c client todo Hg Hc. unfold Concurrent.step. rewrite Hc, Hg.
    eexists. split; [reflexivity|]. simpl. split; [|done].
    apply list_lookup_insert_eq. by eapply lookup_lt_Some.
Qed.

Lemma delivery_takes_no_lock_witness :
  ∃ cfg,
    Concurrent.exec [0; 0; 0; 0; 0; 1; 1; 1; 1; 1; 1]%nat two_broadcasts = Some cfg ∧
    Concurrent.mux_consistent cfg ∧
    ∃ cfg',
      Concurrent.step 0%nat cfg = Some cfg' ∧
      Concurrent.goroutines cfg' !! 0%nat
        = Some (Concurrent.Broadcast "test" (VStr "a"), Concurrent.InWrite 0%nat []).
Proof.
  eexists. split; [vm_compute; reflexivity|].
  match goal with |- Concurrent.mux_consistent ?cfg ∧ _ =>
    destruct (delivery_takes_no_lock {["client_1" := 0%nat]}
                {[0%nat := {| Handler.ID := "client_1"; Writer := newMockResponseWriter;
                              Done := Open; LastSeen := 1 |}]} 2
                [Concurrent.Broadcast "test" (VStr "a"); Concurrent.Heartbeat]
                [0; 0; 0; 0; 0; 1; 1; 1; 1; 1; 1]%nat cfg) as [Hmux Hgo]
  end.
  { vm_compute; reflexivity. }
  split; [exact Hmux|].
  destruct (Hgo 0%nat (Concurrent.Broadcast "test" (VStr "a")) 0%nat [])
    as (cfg' & Hstep & Hat & _); [reflexivity|reflexivity|].
  exists cfg'. split; [exact Hstep|exact Hat].
Defined.

(* ===================================================================== *)
(** * Frames on the wire *)
(* ===================================================================== *)

Section Frames.
Implicit Types (s t : string) (v : value).

(** Induction on values, through the lists they nest. *)
Lemma value_nested_ind (P : value → Prop) :
  P VNil → (∀ b, P (VBool b)) → (∀ n, P (VInt n)) → (∀ s, P (VStr s)) →
  (∀ l, Forall P l → P (VList l)) →
  (∀ kvs, Forall (λ kv, P kv.2) kvs → P (VMap kvs)) →
  P VChan → ∀ v, P v.
Proof.
  intros Hnil Hbool Hint Hstr Hlist Hmap Hchan.
  fix IH 1. intros [|b|n|s|l|kvs|].
  - apply Hnil.
  - apply Hbool.
  - apply Hint.
  - apply Hstr.
  - apply Hlist. induction l as [|x l IHl]; constructor; [apply IH|apply IHl].
  - apply Hmap. induction kvs as [|[k x] kvs IHk]; constructor;
      [apply IH|apply IHk].
  - apply Hchan.
Qed.

Lemma has_newline_app s t :
  has_newline (s +:+ t) = has_newline s || has_newline t.
Proof.
  induction s as [|c s IH]; [done|]. simpl. by rewrite IH, orb_assoc.
Qed.

Lemma lines_no_newline s : has_newline s = false → lines s = [s].
Proof.
  induction s as [|c s IH]; [done|]. simpl.
  intros [Hc Hs]%orb_false_elim. rewrite Hc, (IH Hs). done.
Qed.

Lemma lines_app_newline s t :
  has_newline s = false → lines (s +:+ newline +:+ t) = s :: lines t.
Proof.
  induction s as [|c s IH]; [done|]. simpl.
  intros [Hc Hs]%orb_false_elim. rewrite Hc, (IH Hs). done.
Qed.

Lemma escape_char_no_newline c : has_newline (escape_char c) = false.
Proof. destruct c as [[] [] [] [] [] [] [] []]; reflexivity. Qed.

Lemma escape_no_newline s : has_newline (escape s) = false.
Proof.
  induction s as [|c s IH]; [done|]. simpl.
  by rewrite has_newline_app, escape_char_no_newline, IH.
Qed.

Lemma quote_no_newline s : has_newline (quote s) = false.
Proof.
  unfold quote. by rewrite !has_newline_app, escape_no_newline.
Qed.

Lemma member_no_newline k t :
  has_newline t = false → has_newline (member (k, t)) = false.
Proof.
  intros Ht. unfold member. rewrite !has_newline_app, quote_no_newline.
  simpl. exact Ht.
Qed.

Lemma pretty_N_char_no_newline x : is_newline (pretty_N_char x) = false.
Proof.
  destruct x as [|p]; [done|].
  do 4 (destruct p as [p|p|]; try reflexivity).
Qed.

Lemma pretty_N_go_no_newline x s :
  has_newline s = false → has_newline (pretty_N_go x s) = false.
Proof.
  revert s. induction (N.lt_wf_0 x) as [x _ IH]. intros s Hs.
  destruct (decide (x = 0%N)) as [->|Hne].
  - by rewrite pretty_N_go_0.
  - rewrite pretty_N_go_step by lia. apply IH.
    + apply N.div_lt; lia.
    + simpl. by rewrite pretty_N_char_no_newline.
Qed.

Lemma pretty_Z_no_newline (n : Z) : has_newline (pretty n) = false.
Proof.
  assert (∀ x : N, has_newline (pretty x) = false) as HN.
  { intros x. unfold pretty, pretty_N. destruct (decide (x = 0%N)); [done|].
    by apply pretty_N_go_no_newline. }
  destruct n as [|p|p]; [done|apply (HN (Npos p))|].
  unfold pretty, pretty_Z. simpl. apply (HN (Npos p)).
Qed.

Lemma join_no_newline sep l :
  has_newline sep = false → Forall (λ s, has_newline s = false) l →
  has_newline (join sep l) = false.
Proof.
  intros Hsep. induction 1 as [|s l Hs Hl IH]; [done|].
  destruct l as [|s' l]; [done|].
  change (join sep (s :: s' :: l)) with (s +:+ sep +:+ join sep (s' :: l)).
  by rewrite !has_newline_app, Hs, Hsep, IH.
Qed.

Lemma insert_by_key_Forall (P : string * string → Prop) kv l :
  P kv → Forall P l → Forall P (insert_by_key kv l).
Proof.
  intros Hkv. induction 1 as [|kv' l Hkv' Hl IH]; simpl.
  - by constructor.
  - destruct (String.leb kv.1 kv'.1); repeat constructor; done.
Qed.

Lemma sort_by_key_Forall (P : string * string → Prop) l :
  Forall P l → Forall P (sort_by_key l).
Proof.
  induction 1; simpl; [constructor|]. by apply insert_by_key_Forall.
Qed.

Lemma Marshal_items_cons x r :
  Marshal_items (x :: r)
  = (s ← Marshal x; ss ← Marshal_items r; Ok (s :: ss)).
Proof. reflexivity. Qed.

Lemma Marshal_members_cons k x r :
  Marshal_members ((k, x) :: r)
  = (s ← Marshal x; ss ← Marshal_members r; Ok ((k, s) :: ss)).
Proof. reflexivity. Qed.

Lemma Marshal_VList l :
  Marshal (VList l)
  = (items ← Marshal_items l; Ok ("[" +:+ join "," items +:+ "]")).
Proof. reflexivity. Qed.

Lemma Marshal_VMap kvs :
  Marshal (VMap kvs)
  = (items ← Marshal_members kvs;
     Ok ("{" +:+ join "," (member <$> sort_by_key items) +:+ "}")).
Proof. reflexivity. Qed.

(** The encoder writes one line. *)
Lemma Marshal_no_newline v : ∀ s, Marshal v = Ok s → has_newline s = false.
Proof.
  induction v as [|b|n|t|l IH|kvs IH|] using value_nested_ind; intros s.
  - by intros [= <-].
  - destruct b; by intros [= <-].
  - intros [= <-]. apply pretty_Z_no_newline.
  - intros [= <-]. apply quote_no_newline.
  - rewrite Marshal_VList.
    assert (∀ items, Marshal_items l = Ok items →
              Forall (λ s, has_newline s = false) items) as Hitems.
    { induction IH as [|x l Hx Hl IHl]; intros items.
      - by intros [= <-].
      - rewrite Marshal_items_cons.
        destruct (Marshal x) as [sx|] eqn:Hsx; [|done]. simpl.
        destruct (Marshal_items l) as [ss|]; [|done]. simpl.
        intros [= <-]. constructor; [by apply Hx|by apply IHl]. }
    destruct (Marshal_items l) as [items|]; [|done]. simpl. intros [= <-].
    rewrite !has_newline_app, join_no_newline; [done..|]. by apply Hitems.
  - rewrite Marshal_VMap.
    assert (∀ items, Marshal_members kvs = Ok items →
              Forall (λ kv, has_newline (member kv) = false) items) as Hitems.
    { induction IH as [|[k x] kvs Hx Hl IHl]; intros items.
      - by intros [= <-].
      - rewrite Marshal_members_cons.
        destruct (Marshal x) as [sx|] eqn:Hsx; [|done]. simpl.
        destruct (Marshal_members kvs) as [ss|]; [|done]. simpl.
        intros [= <-]. constructor; [|by apply IHl].
        apply member_no_newline. by apply Hx. }
    destruct (Marshal_members kvs) as [items|]; [|done]. simpl. intros [= <-].
    rewrite !has_newline_app, join_no_newline; [done..|].
    apply Forall_fmap. apply sort_by_key_Forall. by apply Hitems.
  - done.
Qed.

Lemma marshals_VList l : Forall marshals l → marshals (VList l).
Proof.
  intros Hl. unfold marshals. rewrite Marshal_VList.
  assert (∃ items, Marshal_items l = Ok items) as [items ->]; [|simpl; eauto].
  induction Hl as [|x l [sx Hx] _ [ss IH]]; [by eexists|].
  rewrite Marshal_items_cons, Hx. simpl. rewrite IH. simpl. eauto.
Qed.

Lemma marshals_VMap kvs : Forall (λ kv, marshals kv.2) kvs → marshals (VMap kvs).
Proof.
  intros Hl. unfold marshals. rewrite Marshal_VMap.
  assert (∃ items, Marshal_members kvs = Ok items) as [items ->]; [|simpl; eauto].
  induction Hl as [|[k x] l [sx Hx] _ [ss IH]]; [by eexists|].
  simpl in Hx. rewrite Marshal_members_cons, Hx. simpl. rewrite IH. simpl. eauto.
Qed.

Lemma generic_VList l :
  generic (VList l) = (l' ← generic_items l; Ok (VList l')).
Proof. reflexivity. Qed.

Lemma generic_VMap kvs :
  generic (VMap kvs) = (kvs' ← generic_members kvs; Ok (VMap kvs')).
Proof. reflexivity. Qed.

Lemma generic_items_cons x r :
  generic_items (x :: r)
  = (x' ← generic x; r' ← generic_items r; Ok (x' :: r')).
Proof. reflexivity. Qed.

Lemma generic_members_cons k x r :
  generic_members ((k, x) :: r)
  = (x' ← generic x; r' ← generic_members r; Ok ((k, x') :: r')).
Proof. reflexivity. Qed.

(** What comes back from a round trip through the encoder can be encoded. *)
Lemma generic_marshals v : ∀ v', generic v = Ok v' → marshals v'.
Proof.
  induction v as [|b|n|t|l IH|kvs IH|] using value_nested_ind; intros v'.
  - intros [= <-]. by eexists.
  - intros [= <-]. destruct b; by eexists.
  - intros [= <-]. by eexists.
  - intros [= <-]. by eexists.
  - rewrite generic_VList.
    assert (∀ l', generic_items l = Ok l' → Forall marshals l') as Hl.
    { induction IH as [|x l Hx Hl IHl]; intros l'.
      - intros [= <-]. constructor.
      - rewrite generic_items_cons.
        destruct (generic x) as [x'|] eqn:Hx'; [|done]. simpl.
        destruct (generic_items l) as [r'|]; [|done]. simpl.
        intros [= <-]. constructor; [by apply Hx|by apply IHl]. }
    destruct (generic_items l) as [l'|]; [|done]. simpl. intros [= <-].
    apply marshals_VList. by apply Hl.
  - rewrite generic_VMap.
    assert (∀ kvs', generic_members kvs = Ok kvs' →
              Forall (λ kv, marshals kv.2) kvs') as Hl.
    { induction IH as [|[k x] kvs Hx Hl IHl]; intros kvs'.
      - intros [= <-]. constructor.
      - rewrite generic_members_cons.
        destruct (generic x) as [x'|] eqn:Hx'; [|done]. simpl.
        destruct (generic_members kvs) as [r'|]; [|done]. simpl.
        intros [= <-]. constructor; [by apply Hx|by apply IHl]. }
    destruct (generic_members kvs) as [kvs'|]; [|done]. simpl. intros [= <-].
    apply marshals_VMap. by apply Hl.
  - done.
Qed.

Lemma omitempty_marshals k v :
  marshals v → Forall (λ kv, marshals kv.2) (omitempty k v).
Proof.
  intros Hv. unfold omitempty. destruct (is_nil v); repeat constructor; done.
Qed.

Lemma message_map_marshals m body : message_map m = Ok body → marshals body.
Proof.
  unfold message_map, error_object.
  destruct (generic (Types.ID m)) as [id|] eqn:Hid; [|done]. simpl.
  destruct (generic (Params m)) as [params|] eqn:Hparams; [|done]. simpl.
  destruct (generic (Result m)) as [res|] eqn:Hres; [|done]. simpl.
  assert (marshals (VStr (JSONRPC m))) as Hv by by eexists.
  assert (marshals (VStr (Method m))) as Hm by by eexists.
  apply generic_marshals in Hid, Hparams, Hres.
  destruct (Error m) as [e|]; simpl.
  - destruct (generic (Data e)) as [d|] eqn:Hd; [|done]. simpl.
    apply generic_marshals in Hd. intros [= <-].
    apply marshals_VMap. repeat first [apply Forall_app; split | apply Forall_cons; split];
      try (by apply omitempty_marshals); try done;
      try (destruct (has_method m); repeat constructor; done);
      try constructor.
    simpl. apply marshals_VMap.
    repeat first [apply Forall_app; split | apply Forall_cons; split];
      try (by apply omitempty_marshals); try (by eexists); constructor.
  - intros [= <-].
    apply marshals_VMap. repeat first [apply Forall_app; split | apply Forall_cons; split];
      try (by apply omitempty_marshals); try done;
      try (destruct (has_method m); repeat constructor; done);
      try constructor.
Qed.

Lemma formatMessageForSSE_marshals m data :
  Streamer.formatMessageForSSE m = Ok data → marshals data.
Proof.
  unfold Streamer.formatMessageForSSE.
  destruct (message_map m) as [body|] eqn:Hb; [|done]. simpl.
  apply message_map_marshals in Hb.
  assert (Forall (λ kv : string * value, marshals kv.2)
            [("mcp_message", body); ("timestamp", VInt Streamer.getCurrentTimestamp)])
    as Hbase by (repeat constructor; [done|by eexists]).
  intros [= <-]. apply marshals_VMap.
  destruct (IsRequest m), (IsResponse m), (IsNotification m);
    repeat (apply Forall_cons; split); try apply Forall_nil; try exact Hb;
    by eexists.
Qed.

Lemma getEventType_no_newline m :
  has_newline (Streamer.getEventType m) = false.
Proof.
  unfold Streamer.getEventType.
  by destruct (IsNotification m), (IsResponse m), (IsError m), (IsRequest m).
Qed.

(** The frame of a streamed message: the [event:] line with the event
    type, the [data:] line with the encoded payload, and a blank line. *)
Lemma frame_lines m data :
  Streamer.formatMessageForSSE m = Ok data →
  ∃ json, Marshal data = Ok json ∧
    formatSSEEvent (Streamer.getEventType m) data
    = "event: " +:+ Streamer.getEventType m +:+ newline +:+
      "data: " +:+ json +:+ newline +:+ newline ∧
    lines (formatSSEEvent (Streamer.getEventType m) data)
    = ["event: " +:+ Streamer.getEventType m; "data: " +:+ json; ""; ""].
Proof.
  intros Hd. destruct (formatMessageForSSE_marshals m data Hd) as [json Hjson].
  exists json. split; [done|]. unfold formatSSEEvent. rewrite Hjson.
  split; [done|].
  pose proof (Marshal_no_newline data json Hjson) as Hnl.
  pose proof (getEventType_no_newline m) as Het.
  change ("event: " +:+ Streamer.getEventType m +:+ newline +:+
          "data: " +:+ json +:+ newline +:+ newline)
    with (("event: " +:+ Streamer.getEventType m) +:+ newline +:+
          (("data: " +:+ json) +:+ newline +:+ newline)).
  rewrite lines_app_newline by (by rewrite has_newline_app, Het).
  change (("data: " +:+ json) +:+ newline +:+ newline)
    with (("data: " +:+ json) +:+ newline +:+ ("" +:+ newline +:+ "")).
  rewrite lines_app_newline by (by rewrite has_newline_app, Hnl).
  by rewrite lines_app_newline.
Qed.

End Frames.

(* ===================================================================== *)
(** * More on the envelope and its payload *)
(* ===================================================================== *)

Section Envelope.
Implicit Types (m : JSONRPCMessage) (v : value).

(** X1.  The event type each constructor's message is streamed under.  A
    request built without id is a notification; a response built with a nil
    id or a nil result, and an error response built with a nil id, have
    none of the shapes. *)
Theorem constructors_event_types id method params res code msg data :
  Streamer.getEventType (NewRequest id method params)
  = (if bool_decide (method = "") then "mcp_message"
     else if is_nil id then "mcp_notification" else "mcp_request") ∧
  Streamer.getEventType (NewNotification method params)
  = (if bool_decide (method = "") then "mcp_message" else "mcp_notification") ∧
  Streamer.getEventType (NewResponse id res)
  = (if is_nil id || is_nil res then "mcp_message" else "mcp_response") ∧
  Streamer.getEventType (NewErrorResponse id code msg data)
  = (if is_nil id then "mcp_message" else "mcp_error").
Proof.
  unfold Streamer.getEventType, IsNotification, IsResponse, IsRequest, IsError,
    has_method. simpl.
  destruct (bool_decide (method = "")), (is_nil id), (is_nil res); done.
Qed.

End Envelope.

(* ===================================================================== *)
(** * More on the streamer *)
(* ===================================================================== *)

Section StreamerMore.
Implicit Types (sh : StreamHandler) (m : JSONRPCMessage) (p q : loc).

(** X3.  A message that cannot be serialized: with somebody connected
    [StreamMessage] hands the serializer's error to its caller and leaves
    the handler alone - no delivery, no write; [StreamMessageToClient]
    does the same for every client id, known or not, also with nobody
    connected. *)
Theorem unserializable_message_is_surfaced sh m e :
  message_map m = Err e →
  (size (clients sh) ≠ 0%nat →
     ∃ ms', Streamer.StreamMessage m (GetStreamer sh) = Return (Some e, ms') ∧
       Streamer.streamHandler ms' = Some sh) ∧
  (∀ clientID,
     ∃ ms', Streamer.StreamMessageToClient clientID m (GetStreamer sh)
            = Return (Some e, ms') ∧
       Streamer.streamHandler ms' = Some sh).
Proof.
  intros He%formatMessageForSSE_Err. split.
  - intros Hnz. unfold Streamer.StreamMessage. simpl.
    destruct (GetConnectedClients sh =? 0) eqn:Hz.
    { apply Z.eqb_eq, GetConnectedClients_zero in Hz. contradiction. }
    rewrite He. eexists. split; reflexivity.
  - intros clientID. unfold Streamer.StreamMessageToClient. simpl. rewrite He.
    eexists. split; reflexivity.
Qed.

Lemma unserializable_message_is_surfaced_witness :
  ∃ e ms',
    message_map unserializable_request = Err e ∧
    Streamer.StreamMessage unserializable_request (GetStreamer two_clients)
    = Return (Some e, ms').
Proof.
  destruct (message_map unserializable_request) as [body|e] eqn:He;
    [discriminate He|].
  destruct (unserializable_message_is_surfaced two_clients
              unserializable_request e He) as [Hall _].
  destruct Hall as (ms' & Hrun & _); [vm_compute; discriminate|].
  exists e, ms'. split; [reflexivity|exact Hrun].
Defined.

(** X4.  Unicast reaches the named connection and nobody else: one delivery, to
    the connection filed under the id; every other connection object is as
    it was, and the registry too. *)
Theorem StreamMessageToClient_unicast sh clientID p c m data :
  wf sh → clients sh !! clientID = Some p → heap sh !! p = Some c →
  Streamer.formatMessageForSSE m = Ok data →
  ∃ ms' sh',
    Streamer.StreamMessageToClient clientID m (GetStreamer sh) = Return (None, ms') ∧
    Streamer.streamHandler ms' = Some sh' ∧
    clients sh' = clients sh ∧
    deliveries sh' = deliveries sh ++ [(p, Streamer.getEventType m, data)] ∧
    heap sh' !! p = Some (delivered (Streamer.getEventType m) data (now sh) c) ∧
    (live c = true →
       ∃ c', heap sh' !! p = Some c' ∧
         written (Writer c') =
           written (Writer c) ++ [formatSSEEvent (Streamer.getEventType m) data]) ∧
    (∀ q, q ≠ p → heap sh' !! q = heap sh !! q).
Proof.
  intros Hwf Hid Hc Hdata.
  rewrite (StreamMessageToClient_sends clientID m data sh Hdata).
  destruct (SendToClient_found clientID (Streamer.getEventType m) data sh p Hwf Hid)
    as (sh' & Hrun & (Hcl&_&_&_&_&Hh&Hdel)).
  rewrite Hrun. simpl. eexists _, sh'. split; [done|]. split; [done|].
  split; [done|]. split; [done|].
  assert (heap sh' !! p
          = Some (delivered (Streamer.getEventType m) data (now sh) c)) as Hp.
  { by rewrite Hh, lookup_alter_eq, Hc. }
  split; [done|]. split.
  - intros Hlive. eexists. split; [exact Hp|]. by apply delivered_live.
  - intros q Hq. by rewrite Hh, lookup_alter_ne.
Qed.

Lemma StreamMessageToClient_unicast_witness :
  ∃ ms', Streamer.StreamMessageToClient "client_1" progress_notification
           (GetStreamer two_clients) = Return (None, ms').
Proof.
  assert (wf two_clients) as Hwf by (apply wf_check_sound; vm_compute; reflexivity).
  destruct (heap two_clients !! 0%nat) as [c|] eqn:Hc; [|vm_compute in Hc; discriminate].
  destruct (Streamer.formatMessageForSSE progress_notification) as [data|] eqn:Hd;
    [|discriminate Hd].
  destruct (StreamMessageToClient_unicast two_clients "client_1" 0%nat c
              progress_notification data Hwf) as (ms' & sh' & Hrun & _).
  - vm_compute. reflexivity.
  - exact Hc.
  - exact Hd.
  - exists ms'. exact Hrun.
Defined.

(** What [StreamNotification] builds is a notification only when the
    method name is not empty. *)
Lemma formatMessageForSSE_notification method params params' :
  generic params = Ok params' →
  Streamer.formatMessageForSSE (NewNotification method params)
  = Ok (VMap ([("mcp_message",
                VMap ([("jsonrpc", VStr "2.0")]
                      ++ (if bool_decide (method = "") then []
                          else [("method", VStr method)])
                      ++ omitempty "params" params'));
               ("timestamp", VInt Streamer.getCurrentTimestamp)]
              ++ (if bool_decide (method = "") then []
                  else [("message_type", VStr "notification")]))).
Proof.
  intros Hp. unfold Streamer.formatMessageForSSE, message_map, IsRequest,
    IsResponse, IsNotification, has_method. simpl. rewrite Hp. simpl.
  destruct (bool_decide (method = "")); simpl; by rewrite app_nil_r.
Qed.

(** X5.  [StreamNotification] with parameters that serialize and somebody
    connected: one delivery per registered connection, under
    [mcp_notification] with the message type restated - unless the method
    name is empty, when the message goes out under [mcp_message] with no
    message type. *)
Theorem StreamNotification_deliveries sh method params params' :
  wf sh → size (clients sh) ≠ 0%nat → generic params = Ok params' →
  ∃ data ms' sh',
    Streamer.StreamNotification method params (GetStreamer sh) = Return (None, ms') ∧
    Streamer.streamHandler ms' = Some sh' ∧
    deliveries sh' =
      deliveries sh ++
      ((λ p, (p, if bool_decide (method = "") then "mcp_message"
                 else "mcp_notification", data)) <$> snapshot sh) ∧
    get "message_type" data
    = (if bool_decide (method = "") then None else Some (VStr "notification")) ∧
    get "mcp_message" data
    = Some (VMap ([("jsonrpc", VStr "2.0")]
                  ++ (if bool_decide (method = "") then []
                      else [("method", VStr method)])
                  ++ omitempty "params" params')).
Proof.
  intros Hwf Hnz Hp. unfold Streamer.StreamNotification.
  pose proof (formatMessageForSSE_notification method params params' Hp) as Hd.
  destruct (StreamMessage_broadcasts _ _ sh Hwf Hnz Hd)
    as (ms' & sh' & Hrun & Hh & (_&_&_&_&_&_&Hdel)).
  eexists _, ms', sh'. split; [done|]. split; [done|].
  destruct (constructors_event_types VNil method params VNil 0 "" VNil)
    as (_ & Het & _).
  rewrite Het in Hdel. split; [exact Hdel|].
  by destruct (bool_decide (method = "")).
Qed.

Lemma StreamNotification_deliveries_witness :
  ∃ ms', Streamer.StreamNotification "test/notification" (VMap [("data", VStr "test")])
           (GetStreamer two_clients) = Return (None, ms').
Proof.
  assert (wf two_clients) as Hwf by (apply wf_check_sound; vm_compute; reflexivity).
  destruct (StreamNotification_deliveries two_clients "test/notification"
              (VMap [("data", VStr "test")]) (VMap [("data", VStr "test")]) Hwf)
    as (data & ms' & sh' & Hrun & _).
  - vm_compute. discriminate.
  - reflexivity.
  - exists ms'. exact Hrun.
Defined.

(** X6.  [StreamToolProgress]: with somebody connected and a progress value that
    serializes, every registered connection gets one delivery under
    [mcp_notification] whose body is the [tools/progress] notification with
    the tool name and the progress as parameters. *)
Theorem StreamToolProgress_deliveries sh toolName progress progress' :
  wf sh → size (clients sh) ≠ 0%nat → generic progress = Ok progress' →
  ∃ data ms' sh',
    Streamer.StreamToolProgress toolName progress (GetStreamer sh)
    = Return (None, ms') ∧
    Streamer.streamHandler ms' = Some sh' ∧
    deliveries sh' =
      deliveries sh ++ ((λ p, (p, "mcp_notification", data)) <$> snapshot sh) ∧
    get "message_type" data = Some (VStr "notification") ∧
    get "mcp_message" data
    = Some (VMap [("jsonrpc", VStr "2.0"); ("method", VStr "tools/progress");
                  ("params", VMap [("tool", VStr toolName);
                                   ("progress", progress')])]).
Proof.
  intros Hwf Hnz Hp. unfold Streamer.StreamToolProgress.
  destruct (StreamNotification_deliveries sh "tools/progress"
              (VMap [("tool", VStr toolName); ("progress", progress)])
              (VMap [("tool", VStr toolName); ("progress", progress')]) Hwf Hnz)
    as (data & ms' & sh' & Hrun & Hh & Hdel & Hty & Hbody).
  { rewrite generic_VMap, !generic_members_cons. simpl. rewrite Hp. done. }
  exists data, ms', sh'. done.
Qed.

Lemma StreamToolProgress_deliveries_witness :
  ∃ ms', Streamer.StreamToolProgress "test-tool" (VMap [("percent", VInt 50)])
           (GetStreamer two_clients) = Return (None, ms').
Proof.
  assert (wf two_clients) as Hwf by (apply wf_check_sound; vm_compute; reflexivity).
  destruct (StreamToolProgress_deliveries two_clients "test-tool"
              (VMap [("percent", VInt 50)]) (VMap [("percent", VInt 50)]) Hwf)
    as (data & ms' & sh' & Hrun & _).
  - vm_compute. discriminate.
  - reflexivity.
  - exists ms'. exact Hrun.
Defined.

End StreamerMore.

(* ===================================================================== *)
(** * Frames for any event *)
(* ===================================================================== *)

Section AnyFrame.
Implicit Types (s t : string) (v : value).

Lemma newlines_app s t : newlines (s +:+ t) = (newlines s + newlines t)%nat.
Proof. induction s as [|c s IH]; [done|]. simpl. rewrite IH. lia. Qed.

Lemma newlines_zero s : newlines s = 0%nat ↔ has_newline s = false.
Proof.
  induction s as [|c s IH]; [done|]. simpl.
  destruct (is_newline c); simpl; [split; (lia || done)|exact IH].
Qed.

Lemma length_lines s : length (lines s) = S (newlines s).
Proof.
  induction s as [|c s IH]; [done|]. simpl.
  destruct (is_newline c); simpl; [by rewrite IH|].
  destruct (lines s); simpl in *; [done|lia].
Qed.

Lemma formatSSEEvent_unfold eventType data :
  formatSSEEvent eventType data
  = "event: " +:+ eventType +:+ newline +:+ "data: " +:+
    match Marshal data with
    | Ok json => json
    | Err err => marshal_failure err
    end +:+ newline +:+ newline.
Proof. reflexivity. Qed.

Lemma newlines_marshal_failure err : newlines (marshal_failure err) = newlines err.
Proof. unfold marshal_failure. rewrite !newlines_app. simpl. lia. Qed.

(** X7.  [formatSSEEvent] escapes nothing itself.  The frame is the event
    type and the payload as they come, between the fixed pieces: the
    payload is the encoding of the data or, when the encoder fails, the
    substitute object with the text of the encoder's error copied in.  So
    the frame has four line ends plus one for every newline of the event
    type and of the payload; an encoding has none, a substitute has those
    of the error text.  The frame is the [event:] line, the [data:] line
    and a blank line when neither the event type nor the payload has a
    newline in it. *)
Theorem formatSSEEvent_frame eventType data :
  let payload :=
    match Marshal data with
    | Ok json => json
    | Err err => marshal_failure err
    end in
  formatSSEEvent eventType data
  = "event: " +:+ eventType +:+ newline +:+ "data: " +:+ payload +:+
    newline +:+ newline ∧
  length (lines (formatSSEEvent eventType data))
  = (4 + newlines eventType + newlines payload)%nat ∧
  (∀ json, Marshal data = Ok json → newlines payload = 0%nat) ∧
  (∀ err, Marshal data = Err err → newlines payload = newlines err) ∧
  (has_newline eventType = false → has_newline payload = false →
     lines (formatSSEEvent eventType data)
     = ["event: " +:+ eventType; "data: " +:+ payload; ""; ""]).
Proof.
  intros payload. rewrite formatSSEEvent_unfold. fold payload.
  split; [done|]. split; [|split; [|split]].
  - rewrite length_lines, !newlines_app. simpl. lia.
  - intros json Hm. unfold payload. rewrite Hm.
    apply newlines_zero. by apply (Marshal_no_newline data).
  - intros err Hm. unfold payload. rewrite Hm. apply newlines_marshal_failure.
  - intros Het Hnl.
    change ("event: " +:+ eventType +:+ newline +:+ "data: " +:+ payload +:+
            newline +:+ newline)
      with (("event: " +:+ eventType) +:+ newline +:+
            (("data: " +:+ payload) +:+ newline +:+ ("" +:+ newline +:+ ""))).
    rewrite lines_app_newline by (by rewrite has_newline_app, Het).
    rewrite lines_app_newline by (by rewrite has_newline_app, Hnl).
    by rewrite lines_app_newline.
Qed.

End AnyFrame.

(* ===================================================================== *)
(** * [StreamError] *)
(* ===================================================================== *)

(** X8.  [StreamError] never fails and never looks at the shape of anything: it
    returns nil after one delivery per registered connection under the
    event type [error] - none when nobody is connected - and without a
    handler it returns nil at once.  Data that cannot be serialized does not
    stop it: the frames then carry the substitute error object. *)
Theorem StreamError_broadcasts sh errorCode message data :
  wf sh →
  let errorData :=
    VMap [("code", VInt errorCode); ("message", VStr message); ("data", data)] in
  (∃ ms' sh',
     Streamer.StreamError errorCode message data (GetStreamer sh)
     = Return (None, ms') ∧
     Streamer.streamHandler ms' = Some sh' ∧
     clients sh' = clients sh ∧
     deliveries sh' =
       deliveries sh ++ ((λ p, (p, "error", errorData)) <$> snapshot sh) ∧
     (∀ p c, p ∈ snapshot sh → heap sh !! p = Some c → live c = true →
        ∃ c', heap sh' !! p = Some c' ∧
          written (Writer c') =
            written (Writer c) ++ [formatSSEEvent "error" errorData])) ∧
  (∀ e, Marshal data = Err e →
     formatSSEEvent "error" errorData
     = "event: error" +:+ newline +:+ "data: " +:+ marshal_failure e +:+
       newline +:+ newline) ∧
  (∀ l, Streamer.StreamError errorCode message data
          (Streamer.NewMCPStreamer l (None : option StreamHandler))
        = Return (None, Streamer.NewMCPStreamer l None)).
Proof.
  intros Hwf errorData. split; [|split].
  - unfold Streamer.StreamError. simpl.
    destruct (BroadcastMessage_spec "error" errorData sh Hwf)
      as (sh' & Hrun & (Hcl&_&_&_&_&Hh&Hdel)).
    fold errorData. rewrite Hrun. simpl. eexists _, sh'.
    split; [done|]. split; [done|]. split; [done|]. split; [done|].
    intros p c Hp Hc Hlive. eexists. split.
    + rewrite Hh, deliver_all_in, Hc; [done|by apply snapshot_NoDup|done].
    + by apply delivered_live.
  - intros e He. rewrite formatSSEEvent_unfold. unfold errorData.
    rewrite Marshal_VMap, !Marshal_members_cons. simpl. by rewrite He.
  - done.
Qed.

Lemma StreamError_broadcasts_witness :
  ∃ ms', Streamer.StreamError (-32601) "Method not found" VChan
           (GetStreamer two_clients) = Return (None, ms').
Proof.
  assert (wf two_clients) as Hwf by (apply wf_check_sound; vm_compute; reflexivity).
  destruct (StreamError_broadcasts two_clients (-32601) "Method not found" VChan Hwf)
    as [(ms' & sh' & Hrun & _) _].
  exists ms'. exact Hrun.
Defined.

(* ===================================================================== *)
(** * More on the registry *)
(* ===================================================================== *)

Section RegistryMore.
Implicit Types (sh : StreamHandler) (p q : loc) (c : ClientConnection).
Implicit Types (ops : list op).

Lemma delivered_open_broken eventType data t c :
  Done c = Open → broken (Writer c) = true → delivered eventType data t c = fired c.
Proof. intros Hd Hb. unfold delivered, Write. by rewrite Hd, Hb. Qed.

Lemma delivered_stays_live eventType data t c :
  live c = true → live (delivered eventType data t c) = true.
Proof.
  unfold live, delivered, Write.
  by destruct (Done c), (broken (Writer c)).
Qed.

(** X9.  A write failure stays with its connection.  When a broadcast meets a
    registered connection whose sink rejects the write, the call still
    returns; that connection has its [Done] channel closed and nothing
    written, it stays in the registry, every connection that can take a
    frame gets its frame, and the failed connection is never written to
    again, whatever is called later. *)
Theorem write_failure_is_contained sh eventType data clientID p c :
  wf sh → clients sh !! clientID = Some p → heap sh !! p = Some c →
  Done c = Open → broken (Writer c) = true →
  ∃ sh',
    BroadcastMessage eventType data sh = Return sh' ∧
    clients sh' = clients sh ∧
    heap sh' !! p = Some (fired c) ∧
    (∀ id q cq, clients sh !! id = Some q → heap sh !! q = Some cq →
       live cq = true →
       ∃ cq', heap sh' !! q = Some cq' ∧
         written (Writer cq') = written (Writer cq) ++ [formatSSEEvent eventType data]) ∧
    (∀ ops sh'', run ops sh' = Return sh'' → heap sh'' !! p = Some (fired c)).
Proof.
  intros Hwf Hid Hc Hd Hb.
  destruct (BroadcastMessage_spec eventType data sh Hwf)
    as (sh' & Hrun & (Hcl&_&_&_&_&Hh&_)).
  destruct (BroadcastMessage_step eventType data sh sh' Hwf Hrun) as [Hwf' _].
  pose proof (snapshot_NoDup sh Hwf) as Hnd.
  assert (heap sh' !! p = Some (fired c)) as Hp.
  { rewrite Hh, deliver_all_in, Hc; [|done|apply elem_of_snapshot; eauto].
    simpl. by rewrite delivered_open_broken. }
  exists sh'. split; [done|]. split; [done|]. split; [done|]. split.
  - intros id q cq Hq Hcq Hlive. eexists. split.
    + rewrite Hh, deliver_all_in, Hcq; [done|done|apply elem_of_snapshot; eauto].
    + by apply delivered_live.
  - intros ops sh'' Hops. by eapply run_closed.
Qed.

Lemma write_failure_is_contained_witness :
  ∃ sh', BroadcastMessage "test" (VStr "a")
           (store 0%nat {| ID := "client_1"; Writer := brokenResponseWriter;
                           Done := Open; LastSeen := 1 |} two_clients)
         = Return sh'.
Proof.
  destruct (write_failure_is_contained
              (store 0%nat {| ID := "client_1"; Writer := brokenResponseWriter;
                              Done := Open; LastSeen := 1 |} two_clients)
              "test" (VStr "a") "client_1" 0%nat
              {| ID := "client_1"; Writer := brokenResponseWriter;
                 Done := Open; LastSeen := 1 |})
    as (sh' & Hrun & _).
  - apply wf_check_sound. vm_compute. reflexivity.
  - vm_compute. reflexivity.
  - vm_compute. reflexivity.
  - reflexivity.
  - reflexivity.
  - exists sh'. exact Hrun.
Defined.

(** X10.  Frames reach a connection in the order of the calls: after two
    broadcasts in a row, a connection that could take a frame has the frame
    of the first followed by the frame of the second at the end of what
    was written to it. *)
Theorem broadcasts_in_order sh eventType1 data1 eventType2 data2 :
  wf sh →
  ∃ sh1 sh2,
    BroadcastMessage eventType1 data1 sh = Return sh1 ∧
    BroadcastMessage eventType2 data2 sh1 = Return sh2 ∧
    ∀ id p c, clients sh !! id = Some p → heap sh !! p = Some c → live c = true →
      ∃ c2, heap sh2 !! p = Some c2 ∧
        written (Writer c2)
        = written (Writer c) ++ [formatSSEEvent eventType1 data1;
                                 formatSSEEvent eventType2 data2].
Proof.
  intros Hwf.
  destruct (BroadcastMessage_spec eventType1 data1 sh Hwf)
    as (sh1 & Hrun1 & (Hcl1&_&_&_&_&Hh1&_)).
  destruct (BroadcastMessage_step eventType1 data1 sh sh1 Hwf Hrun1) as [Hwf1 _].
  destruct (BroadcastMessage_spec eventType2 data2 sh1 Hwf1)
    as (sh2 & Hrun2 & (Hcl2&_&_&_&_&Hh2&_)).
  exists sh1, sh2. split; [done|]. split; [done|].
  intros id p c Hid Hc Hlive.
  assert (snapshot sh1 = snapshot sh) as Hsnap by (unfold snapshot; by rewrite Hcl1).
  pose proof (snapshot_NoDup sh Hwf) as Hnd.
  assert (p ∈ snapshot sh) as Hp by (apply elem_of_snapshot; eauto).
  assert (heap sh1 !! p = Some (delivered eventType1 data1 (now sh) c)) as Hc1.
  { by rewrite Hh1, deliver_all_in, Hc. }
  eexists. split.
  - rewrite Hh2, Hsnap, deliver_all_in, Hc1; done.
  - destruct (delivered_live eventType2 data2 (now sh1) _
                (delivered_stays_live eventType1 data1 (now sh) c Hlive)) as [-> _].
    destruct (delivered_live eventType1 data1 (now sh) c Hlive) as [-> _].
    by rewrite <- app_assoc.
Qed.

Lemma broadcasts_in_order_witness :
  ∃ sh1 sh2,
    BroadcastMessage "test" (VStr "a") two_clients = Return sh1 ∧
    BroadcastMessage "test" (VStr "b") sh1 = Return sh2.
Proof.
  destruct (broadcasts_in_order two_clients "test" (VStr "a") "test" (VStr "b"))
    as (sh1 & sh2 & H1 & H2 & _).
  - apply wf_check_sound. vm_compute. reflexivity.
  - exists sh1, sh2. split; [exact H1|exact H2].
Defined.

Lemma conn_step_extends c c' :
  conn_step c c' →
  ID c' = ID c ∧
  written (Writer c) `prefix_of` written (Writer c') ∧
  (Done c = Closed → Done c' = Closed).
Proof.
  intros [|eventType data t|Hd].
  - done.
  - unfold delivered, Write.
    destruct (Done c) eqn:Hd, (broken (Writer c)); simpl; repeat split;
      try done; try (by apply prefix_app_r).
  - done.
Qed.

Lemma run_keeps_ID ops sh sh' p c :
  wf sh → run ops sh = Return sh' → heap sh !! p = Some c →
  ∃ c', heap sh' !! p = Some c' ∧ ID c' = ID c.
Proof.
  revert sh c. induction ops as [|o ops IH]; intros sh c Hwf Hrun Hc.
  - unfold run in Hrun. simpl in Hrun. injection Hrun as <-. by exists c.
  - apply run_cons in Hrun as (sh1 & Ho & Hrun).
    destruct (run_op_step o sh sh1 Hwf Ho) as [Hwf1 (Hstep & _)].
    destruct (Hstep p c Hc) as (c1 & Hc1 & Hcs & _).
    destruct (conn_step_extends c c1 Hcs) as (HID1 & _).
    destruct (IH sh1 c1 Hwf1 Hrun Hc1) as (c' & Hc' & HID).
    exists c'. split; [done|congruence].
Qed.

(** X11.  Sinks are append-only.  Over any run of calls a connection object stays
    in place under the same id, what was written to it is only ever
    extended at the end, and a closed [Done] channel stays closed. *)
Theorem sinks_are_append_only ops sh sh' p c :
  wf sh → run ops sh = Return sh' → heap sh !! p = Some c →
  ∃ c', heap sh' !! p = Some c' ∧
    ID c' = ID c ∧
    written (Writer c) `prefix_of` written (Writer c') ∧
    (Done c = Closed → Done c' = Closed).
Proof.
  revert sh c. induction ops as [|o ops IH]; intros sh c Hwf Hrun Hc.
  - unfold run in Hrun. simpl in Hrun. injection Hrun as <-. by exists c.
  - apply run_cons in Hrun as (sh1 & Ho & Hrun).
    destruct (run_op_step o sh sh1 Hwf Ho) as [Hwf1 (Hstep & _)].
    destruct (Hstep p c Hc) as (c1 & Hc1 & Hcs & _).
    destruct (conn_step_extends c c1 Hcs) as (HID1 & Hpre1 & Hd1).
    destruct (IH sh1 c1 Hwf1 Hrun Hc1) as (c' & Hc' & HID & Hpre & Hd).
    exists c'. split; [done|]. split; [congruence|].
    split; [by etrans|]. auto.
Qed.

Lemma sinks_are_append_only_witness :
  ∃ c', heap two_clients_stopped !! 0%nat = Some c'.
Proof.
  destruct (heap two_clients !! 0%nat) as [c|] eqn:Hc; [|vm_compute in Hc; discriminate].
  destruct (sinks_are_append_only [Stop_] two_clients two_clients_stopped 0%nat c)
    as (c' & Hc' & _).
  - apply wf_check_sound. vm_compute. reflexivity.
  - vm_compute. reflexivity.
  - exact Hc.
  - exists c'. exact Hc'.
Defined.

End RegistryMore.

(* ===================================================================== *)
(** * Connecting and disconnecting *)
(* ===================================================================== *)

Section Connections.
Implicit Types (sh : StreamHandler) (p q : loc) (c : ClientConnection).
Implicit Types (w : ResponseWriter) (ops : list op).

Lemma sse_content_type w c eventType data t :
  Writer c = sse_headers w →
  header (Writer (delivered eventType data t c)) !! "Content-Type"
  = Some "text/event-stream".
Proof.
  intros Hw. unfold delivered, Write.
  destruct (Done c), (broken (Writer c)); simpl; rewrite Hw; simpl;
    do 4 (rewrite lookup_insert_ne by done); by rewrite lookup_insert_eq.
Qed.

(** X12.  [HandleSSE] from its entry to its [select], and the two ways it
    gets through without waiting.  A writer that cannot flush is refused:
    the call is over at once, with status 500 and nothing registered,
    allocated or delivered.  For a writer that can flush the call reaches
    its [select] with a new connection object filed under the id made from
    the clock, the SSE content type set, and the [connected] event
    delivered: the first frame of the sink when the sink takes it, the
    [Done] channel open, so that the call waits.  When the sink rejects
    the event the connection is registered all the same, with nothing
    written and [Done] closed: the [select] is ready at once, and the
    return takes the id out of the registry again. *)
Theorem HandleSSE_up_to_select w sh :
  let clientID := generateClientID sh in
  let data := VMap [("clientId", VStr clientID);
                    ("message", VStr "Connected to MCP stream")] in
  (can_flush w = false →
     ∃ sh', HandleSSE w sh = Return (inl (http_Error "SSE not supported" 500 w), sh') ∧
       clients sh' = clients sh ∧ heap sh' = heap sh ∧
       deliveries sh' = deliveries sh) ∧
  (can_flush w = true →
     ∃ p sh' c', HandleSSE w sh = Return (inr p, sh') ∧
       heap sh !! p = None ∧
       clients sh' = <[clientID := p]> (clients sh) ∧
       heap sh' = <[p := c']> (heap sh) ∧
       ID c' = clientID ∧
       header (Writer c') !! "Content-Type" = Some "text/event-stream" ∧
       deliveries sh' = deliveries sh ++ [(p, "connected", data)] ∧
       (broken w = false →
          ready (Done c') = false ∧ LastSeen c' = now sh ∧
          written (Writer c') = written w ++ [formatSSEEvent "connected" data]) ∧
       (broken w = true →
          ready (Done c') = true ∧ written (Writer c') = written w ∧
          ∃ sh'', HandleSSE_return p sh' = Return sh'' ∧
            clients sh'' = delete clientID (clients sh) ∧
            heap sh'' = heap sh' ∧ deliveries sh'' = deliveries sh')).
Proof.
  intros clientID data. split; intros Hw.
  { rewrite (HandleSSE_refused w sh Hw). eexists. split; [done|]. done. }
  destruct (HandleSSE_spec w sh Hw) as (p & sh' & Hrun & Hf & Hcl & Hh & _ & _ & Hd).
  eexists p, sh', _. split; [done|]. split; [done|]. split; [done|].
  split; [exact Hh|]. split; [by rewrite delivered_ID|].
  split; [by apply (sse_content_type w)|]. split; [done|]. split.
  - intros Hb.
    match goal with |- context [delivered ?et ?d ?t ?c] =>
      destruct (delivered_live et d t c) as (Hwr & _ & Hdone & Hls)
    end.
    { unfold live. simpl. by rewrite Hb. }
    by rewrite Hwr, Hdone, Hls.
  - intros Hb.
    match goal with |- context [delivered ?et ?d ?t ?c] =>
      destruct (delivered_broken et d t c) as (Hwr & Hdone); [done|];
      pose proof (delivered_ID et d t c) as HID
    end.
    rewrite Hwr, Hdone. split; [done|]. split; [done|].
    unfold HandleSSE_return, deref. rewrite Hh, lookup_insert_eq. simpl.
    rewrite Hdone, HID. simpl. eexists. split; [reflexivity|]. simpl.
    by rewrite Hcl, delete_insert_eq.
Qed.

Lemma run_nil sh : run [] sh = Return sh.
Proof. done. Qed.

(** X13.  A connection's way through the registry.  Once [HandleSSE] has
    registered a connection, whatever is called in between, the return of
    its goroutine takes exactly its own id out of the registry and touches
    no connection object and no delivery; when the id was free before the
    connection came and nothing happened in between, the registry is back
    to what it was. *)
Theorem connect_then_disconnect w sh :
  wf sh → can_flush w = true →
  ∃ p sh1,
    HandleSSE w sh = Return (inr p, sh1) ∧
    clients sh1 !! generateClientID sh = Some p ∧
    (∀ ops sh2, run ops sh1 = Return sh2 →
       ∃ sh3, HandleSSE_return p sh2 = Return sh3 ∧
         clients sh3 = delete (generateClientID sh) (clients sh2) ∧
         heap sh3 = heap sh2 ∧ deliveries sh3 = deliveries sh2) ∧
    (clients sh !! generateClientID sh = None →
       ∃ sh3, HandleSSE_return p sh1 = Return sh3 ∧ clients sh3 = clients sh).
Proof.
  intros Hwf Hw.
  destruct (HandleSSE_spec w sh Hw) as (p & sh1 & Hrun & Hf & Hcl & Hh & _).
  destruct (HandleSSE_step w sh sh1 (inr p) Hwf Hrun) as [Hwf1 _].
  assert (∀ ops sh2, run ops sh1 = Return sh2 →
     ∃ sh3, HandleSSE_return p sh2 = Return sh3 ∧
       clients sh3 = delete (generateClientID sh) (clients sh2) ∧
       heap sh3 = heap sh2 ∧ deliveries sh3 = deliveries sh2) as Hret.
  { intros ops sh2 Hops.
    assert (∃ c1, heap sh1 !! p = Some c1 ∧ ID c1 = generateClientID sh)
      as (c1 & Hc1 & HID1).
    { eexists. rewrite Hh, lookup_insert_eq. split; [done|]. by rewrite delivered_ID. }
    destruct (run_keeps_ID ops sh1 sh2 p c1 Hwf1 Hops Hc1) as (c2 & Hc2 & HID).
    rewrite HID1 in HID.
    unfold HandleSSE_return, deref. rewrite Hc2. simpl. rewrite HID.
    destruct (ready (Done c2)); eexists; (split; [reflexivity|]); done. }
  exists p, sh1. split; [done|]. split; [by rewrite Hcl, lookup_insert_eq|].
  split; [exact Hret|]. intros Hfree.
  destruct (Hret [] sh1 (run_nil sh1)) as (sh3 & Hrun3 & Hcl3 & _).
  exists sh3. split; [done|].
  by rewrite Hcl3, Hcl, delete_insert_eq, delete_id.
Qed.

Lemma connect_then_disconnect_witness :
  ∃ p sh1, HandleSSE newMockResponseWriter two_clients = Return (inr p, sh1).
Proof.
  destruct (connect_then_disconnect newMockResponseWriter two_clients)
    as (p & sh1 & Hrun & _).
  - apply wf_check_sound. vm_compute. reflexivity.
  - reflexivity.
  - exists p, sh1. exact Hrun.
Defined.

(** X14.  What an id collision costs.  Two connections accepted at the same clock
    reading share an id.  When the goroutine of the first returns, its
    deferred [removeClient] takes that id out of the registry: the second
    connection, still open, is no longer registered, and whatever is called
    afterwards nothing is delivered to it, nothing is written to it and
    nobody closes its [Done] channel. *)
Theorem collision_orphans_successor w1 w2 sh :
  wf sh → can_flush w1 = true → can_flush w2 = true → broken w2 = false →
  ∃ p1 sh1 p2 sh2 sh3 c2,
    HandleSSE w1 sh = Return (inr p1, sh1) ∧
    HandleSSE w2 sh1 = Return (inr p2, sh2) ∧
    HandleSSE_return p1 sh2 = Return sh3 ∧
    heap sh3 !! p2 = Some c2 ∧ Done c2 = Open ∧
    (∀ id, clients sh3 !! id ≠ Some p2) ∧
    ∀ ops sh4, run ops sh3 = Return sh4 →
      heap sh4 !! p2 = Some c2 ∧
      (∀ id, clients sh4 !! id ≠ Some p2) ∧
      ∃ ds, deliveries sh4 = deliveries sh3 ++ ds ∧ ∀ d, d ∈ ds → d.1.1 ≠ p2.
Proof.
  intros Hwf Hw1 Hw2 Hb2.
  destruct (HandleSSE_spec w1 sh Hw1)
    as (p1 & sh1 & Hrun1 & Hf1 & Hcl1 & Hh1 & Hnow1 & _).
  destruct (HandleSSE_step w1 sh sh1 (inr p1) Hwf Hrun1) as [Hwf1 _].
  destruct (HandleSSE_spec w2 sh1 Hw2)
    as (p2 & sh2 & Hrun2 & Hf2 & Hcl2 & Hh2 & Hnow2 & _).
  destruct (HandleSSE_step w2 sh1 sh2 (inr p2) Hwf1 Hrun2) as [Hwf2 _].
  assert (generateClientID sh1 = generateClientID sh) as Hid
    by (unfold generateClientID; by rewrite Hnow1).
  assert (p1 ≠ p2) as Hne.
  { intros <-. by rewrite Hh1, lookup_insert_eq in Hf2. }
  assert (heap sh !! p2 = None) as Hf2'.
  { rewrite Hh1, lookup_insert_ne in Hf2; done. }
  destruct (displaced_return_removes_successor sh2 (generateClientID sh) p1 p2
              (delivered "connected"
                 (VMap [("clientId", VStr (generateClientID sh));
                        ("message", VStr "Connected to MCP stream")]) (now sh)
                 {| ID := generateClientID sh; Writer := sse_headers w1;
                    Done := Open; LastSeen := now sh |}))
    as (sh3 & Hrun3 & Hgone & Hh3).
  { by rewrite Hcl2, Hid, lookup_insert_eq. }
  { by rewrite Hh2, lookup_insert_ne, Hh1, lookup_insert_eq. }
  { by rewrite delivered_ID. }
  destruct (HandleSSE_return_step p1 sh2 sh3 Hwf2 Hrun3) as [Hwf3 (_ & Hreg3 & _)].
  assert (∀ id, clients sh3 !! id ≠ Some p2) as Hno.
  { intros id Hid3. destruct (Hreg3 id p2 Hid3) as [Hold|Hnone].
    - rewrite Hcl2, Hid, Hcl1, insert_insert_eq in Hold.
      destruct (decide (generateClientID sh = id)) as [<-|Hneq];
        [congruence|].
      rewrite lookup_insert_ne in Hold by done.
      destruct (Hwf _ _ Hold) as (c & Hc & _). congruence.
    - by rewrite Hh2, lookup_insert_eq in Hnone. }
  eexists p1, sh1, p2, sh2, sh3, _. split; [done|]. split; [done|].
  split; [done|]. split; [by rewrite Hh3, Hh2, lookup_insert_eq|]. split.
  { apply delivered_live. unfold live. simpl. by rewrite Hb2. }
  split; [done|]. intros ops sh4 Hops.
  eapply run_unregistered; [exact Hwf3|exact Hops| |exact Hno].
  by rewrite Hh3, Hh2, lookup_insert_eq.
Qed.

Lemma collision_orphans_successor_witness :
  ∃ p1 sh1 p2 sh2 sh3,
    HandleSSE newMockResponseWriter (NewStreamHandler [] 1) = Return (inr p1, sh1) ∧
    HandleSSE newMockResponseWriter sh1 = Return (inr p2, sh2) ∧
    HandleSSE_return p1 sh2 = Return sh3.
Proof.
  destruct (collision_orphans_successor newMockResponseWriter newMockResponseWriter
              (NewStreamHandler [] 1))
    as (p1 & sh1 & p2 & sh2 & sh3 & c2 & H1 & H2 & H3 & _).
  - apply wf_NewStreamHandler.
  - reflexivity.
  - reflexivity.
  - reflexivity.
  - exists p1, sh1, p2, sh2, sh3. split; [exact H1|]. split; [exact H2|exact H3].
Defined.

(** X15.  Ids made at different clock readings differ, so two clients accepted at
    different clock readings, under ids that were free, are both
    registered, each under its own id with its own connection object: the
    connected count grows by two. *)
Theorem distinct_clocks_both_registered w1 w2 t sh :
  wf sh → can_flush w1 = true → can_flush w2 = true → t ≠ now sh →
  clients sh !! generateClientID sh = None →
  clients sh !! generateClientID (set_now t sh) = None →
  ∃ sh' p1 p2,
    run [HandleSSE_ w1; Clock_ t; HandleSSE_ w2] sh = Return sh' ∧
    generateClientID sh ≠ generateClientID (set_now t sh) ∧
    clients sh' !! generateClientID sh = Some p1 ∧
    clients sh' !! generateClientID (set_now t sh) = Some p2 ∧
    p1 ≠ p2 ∧
    GetConnectedClients sh' = GetConnectedClients sh + 2.
Proof.
  intros Hwf Hw1 Hw2 Ht Hfree1 Hfree2.
  destruct (HandleSSE_spec w1 sh Hw1)
    as (p1 & sh1 & Hrun1 & Hf1 & Hcl1 & Hh1 & Hnow1 & _).
  destruct (HandleSSE_spec w2 (set_now t sh1) Hw2)
    as (p2 & sh2 & Hrun2 & Hf2 & Hcl2 & Hh2 & _).
  assert (generateClientID (set_now t sh1) = generateClientID (set_now t sh)) as Hid
    by done.
  assert (generateClientID sh ≠ generateClientID (set_now t sh)) as Hids.
  { intros Heq%generateClientID_inj. simpl in Heq. congruence. }
  assert (p1 ≠ p2) as Hne.
  { intros <-. simpl in Hf2. by rewrite Hh1, lookup_insert_eq in Hf2. }
  exists sh2, p1, p2. split.
  { unfold run. simpl. rewrite Hrun1. simpl. by rewrite Hrun2. }
  split; [done|]. simpl in Hcl2. rewrite Hid in Hcl2.
  split; [by rewrite Hcl2, lookup_insert_ne, Hcl1, lookup_insert_eq|].
  split; [by rewrite Hcl2, lookup_insert_eq|]. split; [done|].
  unfold GetConnectedClients. rewrite Hcl2, Hcl1.
  rewrite map_size_insert_None by (by rewrite lookup_insert_ne).
  rewrite map_size_insert_None by done. lia.
Qed.

Lemma distinct_clocks_both_registered_witness :
  ∃ sh', run [HandleSSE_ newMockResponseWriter; Clock_ 2;
              HandleSSE_ newMockResponseWriter] (NewStreamHandler [] 1)
         = Return sh' ∧
    GetConnectedClients sh' = 2.
Proof.
  destruct (distinct_clocks_both_registered newMockResponseWriter
              newMockResponseWriter 2 (NewStreamHandler [] 1))
    as (sh' & p1 & p2 & Hrun & _ & _ & _ & _ & Hcount).
  - apply wf_NewStreamHandler.
  - reflexivity.
  - reflexivity.
  - simpl. lia.
  - reflexivity.
  - reflexivity.
  - exists sh'. split; [exact Hrun|]. rewrite Hcount. reflexivity.
Defined.

End Connections.

(* ===================================================================== *)
(** * Shutdown, heartbeat, and the states the hub can reach *)
(* ===================================================================== *)

Section Lifetime.
Implicit Types (sh : StreamHandler) (p q : loc) (c : ClientConnection).
Implicit Types (ops : list op).

Lemma default_streamHandler_stopCh f sh sh2 :
  stopCh sh2 = stopCh sh → stopCh (set_logger f sh2) = stopCh sh.
Proof. done. Qed.

(** No call but [Stop] touches [stopCh]. *)
Lemma run_op_stopCh o sh sh' :
  wf sh → run_op o sh = Return sh' → o ≠ Stop_ → stopCh sh' = stopCh sh.
Proof.
  intros Hwf Hrun Ho. destruct o; simpl in Hrun; try done.
  - by injection Hrun as <-.
  - destruct (can_flush w) eqn:Hw.
    + destruct (HandleSSE_spec w sh Hw) as (p & sh2 & Hrun2 & _ & _ & _ & _ & Hst & _).
      rewrite Hrun2 in Hrun. simpl in Hrun. by injection Hrun as <-.
    + rewrite (HandleSSE_refused w sh Hw) in Hrun. simpl in Hrun.
      by injection Hrun as <-.
  - unfold HandleSSE_return, deref in Hrun.
    destruct (heap sh !! client) as [c|]; [|done]. simpl in Hrun.
    injection Hrun as <-. by destruct (ready (Done c)).
  - destruct (BroadcastMessage_spec eventType data sh Hwf) as (sh2 & Hrun2 & Hd).
    rewrite Hrun in Hrun2. injection Hrun2 as <-. apply Hd.
  - destruct (clients sh !! clientID) as [p|] eqn:Hid.
    + destruct (SendToClient_found clientID eventType data sh p Hwf Hid)
        as (sh2 & Hrun2 & Hd).
      rewrite Hrun in Hrun2. injection Hrun2 as <-. apply Hd.
    + destruct (SendToClient_missing clientID eventType data sh Hid)
        as (sh2 & Hrun2 & Hd & _).
      rewrite Hrun in Hrun2. injection Hrun2 as <-. apply Hd.
  - destruct (sendHeartbeat_spec sh Hwf) as (sh2 & Hrun2 & Hd).
    rewrite Hrun in Hrun2. injection Hrun2 as <-. apply Hd.
  - apply handler_after_inv in Hrun as (e & ms & f & Hrun & ->).
    unfold Streamer.StreamMessage in Hrun. simpl in Hrun.
    destruct (GetConnectedClients sh =? 0); [by injection Hrun as <- <-|].
    destruct (Streamer.formatMessageForSSE message) as [d|err];
      [|by injection Hrun as <- <-].
    destruct (BroadcastMessage_spec (Streamer.getEventType message) d sh Hwf)
      as (sh2 & Hrun2 & Hd).
    simpl in Hrun2. rewrite Hrun2 in Hrun. simpl in Hrun.
    injection Hrun as <- <-. simpl. apply Hd.
  - apply handler_after_inv in Hrun as (e & ms & f & Hrun & ->).
    unfold Streamer.StreamMessageToClient in Hrun. simpl in Hrun.
    destruct (Streamer.formatMessageForSSE message) as [d|err];
      [|by injection Hrun as <- <-].
    destruct (SendToClient clientID _ d sh) as [sh2|] eqn:Hsend; [|done].
    simpl in Hrun. injection Hrun as <- <-. simpl.
    destruct (clients sh !! clientID) as [p|] eqn:Hid.
    + destruct (SendToClient_found clientID (Streamer.getEventType message) d sh p
                  Hwf Hid) as (sh3 & Hrun3 & Hd).
      rewrite Hsend in Hrun3. injection Hrun3 as <-. apply Hd.
    + destruct (SendToClient_missing clientID (Streamer.getEventType message) d sh
                  Hid) as (sh3 & Hrun3 & Hd & _).
      rewrite Hsend in Hrun3. injection Hrun3 as <-. apply Hd.
  - apply handler_after_inv in Hrun as (e & ms & f & Hrun & ->).
    unfold Streamer.StreamError in Hrun. simpl in Hrun.
    match type of Hrun with context [BroadcastMessage ?et ?d sh] =>
      destruct (BroadcastMessage_spec et d sh Hwf) as (sh2 & Hrun2 & Hd)
    end.
    rewrite Hrun2 in Hrun. simpl in Hrun. injection Hrun as <- <-. simpl. apply Hd.
  - by injection Hrun as <-.
Qed.

Lemma run_after_Stop ops sh sh' :
  wf sh → stopCh sh = Closed → run ops sh = Return sh' →
  stopCh sh' = Closed ∧ Stop_ ∉ ops.
Proof.
  revert sh. induction ops as [|o ops IH]; intros sh Hwf Hst Hrun.
  - unfold run in Hrun. simpl in Hrun. injection Hrun as <-.
    split; [done|]. by intros ?%elem_of_nil.
  - apply run_cons in Hrun as (sh1 & Ho & Hrun).
    assert (o ≠ Stop_) as Hne.
    { intros ->. simpl in Ho. by rewrite (Stop_twice_panics sh Hst) in Ho. }
    destruct (run_op_step o sh sh1 Hwf Ho) as [Hwf1 _].
    pose proof (run_op_stopCh o sh sh1 Hwf Ho Hne) as Hst1. rewrite Hst in Hst1.
    destruct (IH sh1 Hwf1 Hst1 Hrun) as [Hst' Hnot].
    split; [done|]. intros [Heq|Hin]%elem_of_cons; [by apply Hne|]. by apply Hnot.
Qed.

(** X16.  [Stop] is for once.  After a [Stop] that returned, nothing reopens
    [stopCh]: whatever is called afterwards, a second [Stop] panics on the
    closed channel, so no run that returns contains one. *)
Theorem Stop_only_once sh sh' ops sh'' :
  wf sh → Stop sh = Return sh' → run ops sh' = Return sh'' →
  Stop sh'' = Panic "close of closed channel" ∧ Stop_ ∉ ops.
Proof.
  intros Hwf Hstop Hrun.
  destruct (Stop_inv sh sh' Hwf Hstop) as (_ & _ & _ & Hst & _).
  destruct (Stop_step sh sh' Hwf Hstop) as [Hwf' _].
  destruct (run_after_Stop ops sh' sh'' Hwf' Hst Hrun) as [Hst'' Hnot].
  split; [by apply Stop_twice_panics|done].
Qed.

Lemma Stop_only_once_witness :
  Stop two_clients_stopped = Panic "close of closed channel".
Proof.
  destruct (Stop two_clients) as [sh'|] eqn:Hstop; [|vm_compute in Hstop; discriminate].
  destruct (Stop_only_once two_clients sh' [] sh') as [Hpanic _].
  - apply wf_check_sound. vm_compute. reflexivity.
  - exact Hstop.
  - reflexivity.
  - vm_compute in Hstop. injection Hstop as <-. exact Hpanic.
Defined.

Lemma Marshal_timestamp t :
  Marshal (VMap [("timestamp", VInt t)])
  = Ok ("{" +:+ dquote +:+ "timestamp" +:+ dquote +:+ ":" +:+ pretty t +:+ "}").
Proof. reflexivity. Qed.

(** X17.  A heartbeat returns after one delivery per registered connection, each
    under the event type [heartbeat] with the clock reading in whole
    seconds as its only field.  A connection that can take a frame gets
    that frame appended and its [LastSeen] set to the clock reading; the
    registry is left as it was. *)
Theorem sendHeartbeat_deliveries sh :
  wf sh →
  let data := VMap [("timestamp", VInt (now sh / second))] in
  ∃ sh', sendHeartbeat sh = Return sh' ∧
    clients sh' = clients sh ∧
    deliveries sh' = deliveries sh ++ ((λ p, (p, "heartbeat", data)) <$> snapshot sh) ∧
    formatSSEEvent "heartbeat" data
    = "event: heartbeat" +:+ newline +:+ "data: " +:+
      ("{" +:+ dquote +:+ "timestamp" +:+ dquote +:+ ":" +:+
       pretty (now sh / second) +:+ "}") +:+ newline +:+ newline ∧
    ∀ id p c, clients sh !! id = Some p → heap sh !! p = Some c →
      ∃ c', heap sh' !! p = Some c' ∧
        (live c = true →
           written (Writer c') = written (Writer c) ++ [formatSSEEvent "heartbeat" data] ∧
           LastSeen c' = now sh) ∧
        (Done c = Closed → c' = c).
Proof.
  intros Hwf data.
  destruct (sendHeartbeat_spec sh Hwf) as (sh' & Hrun & (Hcl&_&_&_&_&Hh&Hd)).
  exists sh'. split; [done|]. split; [done|]. split; [done|]. split.
  { rewrite formatSSEEvent_unfold. unfold data. by rewrite Marshal_timestamp. }
  intros id p c Hid Hc. eexists. split.
  - rewrite Hh, deliver_all_in, Hc; [done|by apply snapshot_NoDup|].
    apply elem_of_snapshot. eauto.
  - split.
    + intros Hlive.
      by destruct (delivered_live "heartbeat" data (now sh) c Hlive) as (?&_&_&?).
    + apply delivered_closed.
Qed.

Lemma sendHeartbeat_deliveries_witness :
  ∃ sh', sendHeartbeat late_hub = Return sh' ∧
    deliveries sh' =
      deliveries late_hub ++ [(0%nat, "heartbeat", VMap [("timestamp", VInt 1700000000)])].
Proof.
  destruct (sendHeartbeat_deliveries late_hub) as (sh' & Hrun & _ & Hd & _).
  - apply wf_check_sound. vm_compute. reflexivity.
  - exists sh'. split; [exact Hrun|]. rewrite Hd. reflexivity.
Defined.

(** X18.  The states the hub reaches.  In every state reached from a new handler
    by calls that returned, each registered id leads to a connection object
    carrying that id, so no two ids share a connection and the connected
    count is the number of connections a broadcast delivers to; and a
    broadcast, a unicast or a heartbeat started there returns - a delivery
    never dereferences a pointer that is not there. *)
Theorem reachable_states_deliver ops l t sh :
  run ops (NewStreamHandler l t) = Return sh →
  wf sh ∧ NoDup (snapshot sh) ∧
  Z.of_nat (length (snapshot sh)) = GetConnectedClients sh ∧
  (∀ eventType data, ∃ sh', BroadcastMessage eventType data sh = Return sh') ∧
  (∀ clientID eventType data,
     ∃ sh', SendToClient clientID eventType data sh = Return sh') ∧
  (∃ sh', sendHeartbeat sh = Return sh').
Proof.
  intros Hrun. pose proof (new_handler_run_wf ops l t sh Hrun) as Hwf.
  split; [done|]. split; [by apply snapshot_NoDup|].
  split; [unfold GetConnectedClients; by rewrite snapshot_length|].
  split; [|split].
  - intros eventType data.
    destruct (BroadcastMessage_spec eventType data sh Hwf) as (sh' & Hb & _). eauto.
  - intros clientID eventType data.
    destruct (clients sh !! clientID) as [p|] eqn:Hid.
    + destruct (SendToClient_found clientID eventType data sh p Hwf Hid)
        as (sh' & Hs & _). eauto.
    + destruct (SendToClient_missing clientID eventType data sh Hid)
        as (sh' & Hs & _). eauto.
  - destruct (sendHeartbeat_spec sh Hwf) as (sh' & Hs & _). eauto.
Qed.

Lemma reachable_states_deliver_witness :
  wf two_clients ∧ GetConnectedClients two_clients = 2.
Proof.
  destruct (reachable_states_deliver
              [Clock_ 1; HandleSSE_ newMockResponseWriter;
               Clock_ 2; HandleSSE_ newMockResponseWriter] [] 0 two_clients)
    as (Hwf & _ & Hcount & _).
  - vm_compute. reflexivity.
  - split; [exact Hwf|]. rewrite <- Hcount. vm_compute. reflexivity.
Defined.

End Lifetime.

(* ===================================================================== *)
(** * More on interleavings: what [clientsMux] does protect *)
(* ===================================================================== *)

Section Exclusion.
Import Concurrent.
Implicit Types (cfg : config) (g : goroutine) (gs : list goroutine).

Lemma count_zero f gs j g :
  count f gs = 0%nat → gs !! j = Some g → f g = false.
Proof.
  revert j. induction gs as [|g0 gs IH]; intros j Hc Hj; [done|].
  simpl in Hc. destruct j as [|j]; simpl in Hj.
  - injection Hj as ->. destruct (f g); [lia|done].
  - apply (IH j); [lia|done].
Qed.

Lemma count_one f gs i j gi gj :
  count f gs = 1%nat → gs !! i = Some gi → f gi = true →
  gs !! j = Some gj → i ≠ j → f gj = false.
Proof.
  revert i j. induction gs as [|g0 gs IH]; intros i j Hc Hi Hfi Hj Hne; [done|].
  simpl in Hc. destruct i as [|i], j as [|j]; simpl in Hi, Hj; try done.
  - injection Hi as ->. rewrite Hfi in Hc. apply (count_zero f gs j); [lia|done].
  - injection Hj as ->. destruct (f gj) eqn:Hfj; [|done].
    assert (count f gs = 0%nat) as H0 by lia.
    by rewrite (count_zero f gs i gi H0 Hi) in Hfi.
  - apply (IH i j); try done; [|congruence].
    destruct (f g0); [|lia].
    assert (count f gs = 0%nat) as H0 by lia.
    by rewrite (count_zero f gs i gi H0 Hi) in Hfi.
Qed.

(** X19.  The registry lock does its work.  At every point of every interleaving
    of deliveries, removals and registrations, while one goroutine is
    between [Lock] and [Unlock] in [removeClient] or [addClient], no other
    goroutine is between [RLock] and
    [RUnlock] copying or looking up the client map, and no other is between
    [Lock] and [Unlock]: the map is never changed while it is read. *)
Theorem registry_changes_are_exclusive
  registry objects clock calls schedule cfg i j gi gj :
  exec schedule (spawn registry objects clock calls) = Some cfg →
  goroutines cfg !! i = Some gi → goroutines cfg !! j = Some gj → i ≠ j →
  holds_write gi = true →
  holds_read gj = false ∧ holds_write gj = false.
Proof.
  intros Hexec Hi Hj Hne Hw.
  assert (mux_consistent cfg) as (Hr & Hwc & Hex).
  { eapply exec_mux_consistent; [|exact Hexec]. apply spawn_mux_consistent. }
  destruct (mux_writer cfg) eqn:Hmw.
  - split.
    + apply (count_zero holds_read (goroutines cfg) j); [|done].
      rewrite <- Hr. by apply Hex.
    + by apply (count_one holds_write (goroutines cfg) i j gi gj).
  - by rewrite (count_zero holds_write (goroutines cfg) i gi Hwc Hi) in Hw.
Qed.

Lemma registry_changes_are_exclusive_witness :
  ∃ cfg,
    exec [0; 0; 0; 0; 1]%nat
      (spawn {["client_1" := 0%nat]}
         {[0%nat := {| Handler.ID := "client_1"; Writer := newMockResponseWriter;
                       Done := Open; LastSeen := 1 |}]} 2
         [Broadcast "test" (VStr "a"); Remove "client_1"]) = Some cfg ∧
    holds_read (Broadcast "test" (VStr "a"), AtSelect 0%nat []) = false.
Proof.
  pose (cfg := default two_broadcasts
                 (exec [0; 0; 0; 0; 1]%nat
                    (spawn {["client_1" := 0%nat]}
                       {[0%nat := {| Handler.ID := "client_1";
                                     Writer := newMockResponseWriter;
                                     Done := Open; LastSeen := 1 |}]} 2
                       [Broadcast "test" (VStr "a"); Remove "client_1"]))).
  destruct (registry_changes_are_exclusive {["client_1" := 0%nat]}
              {[0%nat := {| Handler.ID := "client_1"; Writer := newMockResponseWriter;
                            Done := Open; LastSeen := 1 |}]} 2
              [Broadcast "test" (VStr "a"); Remove "client_1"]
              [0; 0; 0; 0; 1]%nat
              cfg 1%nat 0%nat (Remove "client_1", AtDelete)
              (Broadcast "test" (VStr "a"), AtSelect 0%nat [])) as [Hread _].
  - vm_compute. reflexivity.
  - vm_compute. reflexivity.
  - vm_compute. reflexivity.
  - lia.
  - reflexivity.
  - exists cfg. split; [vm_compute; reflexivity|exact Hread].
Defined.

(** X20.  Two failed writes to one connection take the process down.  When two
    goroutines have each seen their write to the same connection fail and
    stand before [close(client.Done)] with the channel still open, the one
    that runs first closes it and the other panics on the closed channel:
    nothing between the [select] at the head of [sendEvent] and the [close]
    keeps the second one out. *)
Theorem second_close_panics cfg i j ci cj client todoi todoj o :
  crashed cfg = false →
  goroutines cfg !! i = Some (ci, AtClose client todoi) →
  goroutines cfg !! j = Some (cj, AtClose client todoj) →
  i ≠ j → objects cfg !! client = Some o → Done o = Open →
  ∃ cfg1 cfg2,
    step i cfg = Some cfg1 ∧ crashed cfg1 = false ∧
    objects cfg1 !! client = Some (fired o) ∧
    step j cfg1 = Some cfg2 ∧ crashed cfg2 = true ∧
    goroutines cfg2 !! j = Some (cj, Panicked).
Proof.
  intros Hc Hi Hj Hne Ho Hd.
  eexists _, _. split.
  { unfold step. rewrite Hc, Hi, Ho, Hd. simpl. reflexivity. }
  split; [done|]. split; [simpl; by rewrite lookup_insert_eq|]. split.
  { unfold step, move, set_object. cbn [crashed goroutines objects].
    unfold goroutine in *. rewrite Hc, list_lookup_insert_ne, Hj by done.
    rewrite lookup_insert_eq. simpl. reflexivity. }
  split; [done|]. simpl.
  apply list_lookup_insert_eq. rewrite length_insert. by eapply lookup_lt_Some.
Qed.

Lemma second_close_panics_witness :
  ∃ cfg cfg1 cfg2,
    exec [0; 0; 0; 0; 0; 0; 1; 1; 1; 1; 1; 1; 0; 1]%nat two_broadcasts_broken
    = Some cfg ∧
    step 0%nat cfg = Some cfg1 ∧ step 1%nat cfg1 = Some cfg2 ∧
    crashed cfg2 = true.
Proof.
  pose (cfg := default two_broadcasts_broken
                 (exec [0; 0; 0; 0; 0; 0; 1; 1; 1; 1; 1; 1; 0; 1]%nat
                    two_broadcasts_broken)).
  destruct (second_close_panics cfg 0%nat 1%nat
              (Broadcast "test" (VStr "a")) Heartbeat 0%nat [] []
              {| Handler.ID := "client_1"; Writer := brokenResponseWriter;
                 Done := Open; LastSeen := 1 |})
    as (cfg1 & cfg2 & H1 & _ & _ & H2 & Hcr & _).
  - vm_compute. reflexivity.
  - vm_compute. reflexivity.
  - vm_compute. reflexivity.
  - lia.
  - vm_compute. reflexivity.
  - reflexivity.
  - exists cfg, cfg1, cfg2. split; [vm_compute; reflexivity|].
    split; [exact H1|]. split; [exact H2|exact Hcr].
Defined.

End Exclusion.

(* ===================================================================== *)
(** * Deliveries and what is written *)
(* ===================================================================== *)

Section Received.
Implicit Types (sh : StreamHandler) (p q : loc) (c : ClientConnection).
Implicit Types (ps : list loc) (ds : list (loc * string * value)).
Implicit Types (ops : list op).

Lemma frames_for_app p ds1 ds2 :
  frames_for p (ds1 ++ ds2) = frames_for p ds1 ++ frames_for p ds2.
Proof. unfold frames_for. by rewrite filter_app, fmap_app. Qed.

Lemma frames_for_other p eventType data ps :
  p ∉ ps → frames_for p ((λ q, (q, eventType, data)) <$> ps) = [].
Proof.
  induction ps as [|q ps IH]; intros Hp; [done|].
  apply not_elem_of_cons in Hp as [Hne Hp].
  rewrite fmap_cons. unfold frames_for. rewrite filter_cons_False by (simpl; congruence).
  by apply IH.
Qed.

Lemma frames_for_broadcast p eventType data ps :
  NoDup ps → p ∈ ps →
  frames_for p ((λ q, (q, eventType, data)) <$> ps) = [formatSSEEvent eventType data].
Proof.
  induction ps as [|q ps IH]; intros Hnd Hp; [by apply elem_of_nil in Hp|].
  apply NoDup_cons in Hnd as [Hq Hnd]. rewrite fmap_cons.
  change ((q, eventType, data) :: ((λ q0, (q0, eventType, data)) <$> ps))
    with ([(q, eventType, data)] ++ ((λ q0, (q0, eventType, data)) <$> ps)).
  rewrite frames_for_app.
  apply elem_of_cons in Hp as [->|Hp].
  - rewrite frames_for_other by done. unfold frames_for.
    by rewrite filter_cons_True, filter_nil by done.
  - rewrite IH by done. unfold frames_for.
    rewrite filter_cons_False; [done|]. simpl. intros ->. contradiction.
Qed.

Lemma receives_refl sh sh' :
  heap sh' = heap sh → deliveries sh' = deliveries sh → receives sh sh' [].
Proof.
  intros Hh Hd. split; [by rewrite app_nil_r|].
  intros p c Hc. exists c. rewrite Hh. split; [done|]. intros Hl.
  split; [done|]. unfold frames_for. by rewrite filter_nil, app_nil_r.
Qed.

Lemma receives_trans sh sh1 sh2 ds1 ds2 :
  receives sh sh1 ds1 → receives sh1 sh2 ds2 → receives sh sh2 (ds1 ++ ds2).
Proof.
  intros [Hd1 H1] [Hd2 H2]. split; [by rewrite Hd2, Hd1, app_assoc|].
  intros p c Hc. destruct (H1 p c Hc) as (c1 & Hc1 & Hl1).
  destruct (H2 p c1 Hc1) as (c2 & Hc2 & Hl2).
  exists c2. split; [done|]. intros Hlive.
  destruct (Hl2 Hlive) as [Hlive1 Hw2]. destruct (Hl1 Hlive1) as [Hlive0 Hw1].
  split; [done|]. by rewrite Hw2, Hw1, frames_for_app, app_assoc.
Qed.

Lemma receives_set_logger f sh sh' ds :
  receives sh sh' ds → receives sh (set_logger f sh') ds.
Proof. done. Qed.

Lemma delivered_live_inv eventType data t c :
  live (delivered eventType data t c) = true → live c = true.
Proof.
  unfold live, delivered, Write.
  destruct (Done c) eqn:Hd, (broken (Writer c)) eqn:Hb; simpl;
    rewrite ?Hd, ?Hb; done.
Qed.

Lemma fired_not_live c : live (fired c) = false.
Proof. done. Qed.

Lemma deliver_all_receives eventType data t ps sh sh' :
  NoDup ps →
  heap sh' = deliver_all (delivered eventType data t) ps (heap sh) →
  deliveries sh' = deliveries sh ++ ((λ p, (p, eventType, data)) <$> ps) →
  receives sh sh' ((λ p, (p, eventType, data)) <$> ps).
Proof.
  intros Hnd Hh Hd. split; [done|]. intros p c Hc.
  rewrite Hh, deliver_all_lookup, Hc by done. case_decide as Hp.
  - eexists. split; [done|]. intros Hlive.
    pose proof (delivered_live_inv _ _ _ _ Hlive) as Hlive0. split; [done|].
    rewrite frames_for_broadcast by done.
    by destruct (delivered_live eventType data t c Hlive0) as [-> _].
  - exists c. split; [done|]. intros Hlive. split; [done|].
    by rewrite frames_for_other, app_nil_r.
Qed.

Lemma BroadcastMessage_receives eventType data sh sh' :
  wf sh → BroadcastMessage eventType data sh = Return sh' →
  receives sh sh' ((λ p, (p, eventType, data)) <$> snapshot sh).
Proof.
  intros Hwf Hrun.
  destruct (BroadcastMessage_spec eventType data sh Hwf)
    as (sh2 & Hrun2 & (_&_&_&_&_&Hh&Hd)).
  rewrite Hrun in Hrun2. injection Hrun2 as <-.
  eapply deliver_all_receives; eauto using snapshot_NoDup.
Qed.

Lemma SendToClient_receives clientID eventType data sh sh' :
  wf sh → SendToClient clientID eventType data sh = Return sh' →
  ∃ ds, receives sh sh' ds.
Proof.
  intros Hwf Hrun. destruct (clients sh !! clientID) as [p|] eqn:Hid.
  - destruct (SendToClient_found clientID eventType data sh p Hwf Hid)
      as (sh2 & Hrun2 & (_&_&_&_&_&Hh&Hd)).
    rewrite Hrun in Hrun2. injection Hrun2 as <-.
    exists ((λ p, (p, eventType, data)) <$> [p]).
    apply (deliver_all_receives eventType data (now sh) [p]);
      [apply NoDup_singleton|done|done].
  - destruct (SendToClient_missing clientID eventType data sh Hid)
      as (sh2 & Hrun2 & (_&_&_&_&_&Hh&Hd) & _).
    rewrite Hrun in Hrun2. injection Hrun2 as <-. rewrite app_nil_r in Hd.
    exists []. by apply receives_refl.
Qed.

Lemma run_op_receives o sh sh' :
  wf sh → run_op o sh = Return sh' → ∃ ds, receives sh sh' ds.
Proof.
  intros Hwf Hrun. destruct o; simpl in Hrun.
  - injection Hrun as <-. exists []. by apply receives_refl.
  - destruct (Stop_inv sh sh' Hwf Hrun) as (_ & _ & _ & _ & _ & Hh & Hd).
    exists []. split; [by rewrite app_nil_r|]. intros p c Hc.
    rewrite Hh, deliver_all_lookup, Hc by (by apply snapshot_NoDup).
    case_decide.
    + eexists. split; [done|]. by rewrite fired_not_live.
    + exists c. split; [done|]. intros Hl. split; [done|].
      unfold frames_for. by rewrite filter_nil, app_nil_r.
  - destruct (can_flush w) eqn:Hw.
    + destruct (HandleSSE_spec w sh Hw)
        as (q & sh2 & Hrun2 & Hfresh & _ & Hh & _ & _ & Hd).
      rewrite Hrun2 in Hrun. simpl in Hrun. injection Hrun as <-.
      eexists. split; [exact Hd|]. intros p c Hc. exists c.
      assert (q ≠ p) as Hne by (intros ->; congruence).
      rewrite Hh, lookup_insert_ne by done. split; [done|]. intros Hl.
      split; [done|]. unfold frames_for.
      rewrite filter_cons_False by (simpl; congruence).
      by rewrite filter_nil, app_nil_r.
    + rewrite (HandleSSE_refused w sh Hw) in Hrun. simpl in Hrun.
      injection Hrun as <-. exists []. by apply receives_refl.
  - unfold HandleSSE_return, deref in Hrun.
    destruct (heap sh !! client) as [c|]; [|done]. simpl in Hrun.
    injection Hrun as <-. exists [].
    destruct (ready (Done c)); by apply receives_refl.
  - eexists. by apply BroadcastMessage_receives.
  - by eapply SendToClient_receives.
  - destruct (sendHeartbeat_spec sh Hwf) as (sh2 & Hrun2 & (_&_&_&_&_&Hh&Hd)).
    rewrite Hrun in Hrun2. injection Hrun2 as <-. eexists.
    eapply deliver_all_receives; eauto using snapshot_NoDup.
  - apply handler_after_inv in Hrun as (e & ms & f & Hrun & ->).
    unfold Streamer.StreamMessage in Hrun. simpl in Hrun.
    destruct (GetConnectedClients sh =? 0).
    { injection Hrun as <- <-. exists []. by apply receives_refl. }
    destruct (Streamer.formatMessageForSSE message) as [d|err].
    + destruct (BroadcastMessage _ d sh) as [sh2|] eqn:Hb; [|done].
      simpl in Hrun. injection Hrun as <- <-. simpl. eexists.
      apply receives_set_logger. by apply BroadcastMessage_receives.
    + injection Hrun as <- <-. exists []. by apply receives_refl.
  - apply handler_after_inv in Hrun as (e & ms & f & Hrun & ->).
    unfold Streamer.StreamMessageToClient in Hrun. simpl in Hrun.
    destruct (Streamer.formatMessageForSSE message) as [d|err].
    + destruct (SendToClient clientID _ d sh) as [sh2|] eqn:Hb; [|done].
      simpl in Hrun. injection Hrun as <- <-. simpl.
      destruct (SendToClient_receives _ _ _ _ _ Hwf Hb) as [ds Hds].
      exists ds. by apply receives_set_logger.
    + injection Hrun as <- <-. exists []. by apply receives_refl.
  - apply handler_after_inv in Hrun as (e & ms & f & Hrun & ->).
    unfold Streamer.StreamError in Hrun. simpl in Hrun.
    destruct (BroadcastMessage "error" _ sh) as [sh2|] eqn:Hb; [|done].
    simpl in Hrun. injection Hrun as <- <-. simpl. eexists.
    apply receives_set_logger. by apply BroadcastMessage_receives.
  - injection Hrun as <-. exists []. by apply receives_refl.
Qed.

(** X21.  What a client has received is what was delivered to it.  Over any run
    of calls, a connection that can still take a frame at the end has been
    written exactly the frames of the deliveries addressed to it during
    the run, each once, in the order of the calls, and nothing else. *)
Theorem live_client_received_its_deliveries ops sh sh' p c :
  wf sh → run ops sh = Return sh' → heap sh !! p = Some c →
  ∃ c' ds,
    heap sh' !! p = Some c' ∧
    deliveries sh' = deliveries sh ++ ds ∧
    (live c' = true →
       written (Writer c') = written (Writer c) ++ frames_for p ds).
Proof.
  intros Hwf Hrun Hc.
  assert (∃ ds, receives sh sh' ds) as (ds & Hd & Hall).
  { clear Hc. revert sh Hwf Hrun.
    induction ops as [|o ops IH]; intros sh Hwf Hrun.
    - unfold run in Hrun. simpl in Hrun. injection Hrun as <-.
      exists []. by apply receives_refl.
    - apply run_cons in Hrun as (sh1 & Ho & Hrun).
      destruct (run_op_step o sh sh1 Hwf Ho) as [Hwf1 _].
      destruct (run_op_receives o sh sh1 Hwf Ho) as [ds1 H1].
      destruct (IH sh1 Hwf1 Hrun) as [ds2 H2].
      exists (ds1 ++ ds2). by eapply receives_trans. }
  destruct (Hall p c Hc) as (c' & Hc' & Hlive).
  exists c', ds. split; [done|]. split; [done|]. intros Hl. by apply Hlive.
Qed.

Lemma live_client_received_its_deliveries_witness :
  ∃ c' ds,
    heap (hub_after [Clock_ 1; HandleSSE_ newMockResponseWriter;
                     BroadcastMessage_ "test" (VStr "a"); sendHeartbeat_]) !! 0%nat
    = Some c' ∧
    written (Writer c')
    = [formatSSEEvent "connected"
         (VMap [("clientId", VStr "client_1");
                ("message", VStr "Connected to MCP stream")])] ++ frames_for 0%nat ds.
Proof.
  destruct (heap one_client !! 0%nat) as [c|] eqn:Hc.
  2: { vm_compute in Hc. discriminate. }
  destruct (live_client_received_its_deliveries
              [BroadcastMessage_ "test" (VStr "a"); sendHeartbeat_]
              one_client
              (hub_after [Clock_ 1; HandleSSE_ newMockResponseWriter;
                          BroadcastMessage_ "test" (VStr "a"); sendHeartbeat_])
              0%nat c) as (c' & ds & Hc' & _ & Hw).
  - apply wf_check_sound. vm_compute. reflexivity.
  - vm_compute. reflexivity.
  - exact Hc.
  - exists c', ds. split; [exact Hc'|]. rewrite Hw.
    + vm_compute in Hc. injection Hc as <-. reflexivity.
    + revert Hc'. vm_compute. intros [= <-]. reflexivity.
Defined.

End Received.

(* ===================================================================== *)
(** * The MCP handler: requests, answers and what is streamed *)
(* ===================================================================== *)

Section Answers.
Import Protocol.
Context `{!Backend}.
Implicit Types (h : Protocol.Handler) (msg m : JSONRPCMessage).
Implicit Types (sh : StreamHandler) (ms : Streamer.MCPStreamer StreamHandler).

Lemma streamed_nil m sh : size (clients sh) = 0%nat → streamed m sh = [].
Proof.
  intros Hz. unfold streamed. destruct (Streamer.formatMessageForSSE m); [|done].
  by rewrite snapshot_empty.
Qed.

Lemma streamed_same_clients m sh sh' :
  clients sh' = clients sh → streamed m sh' = streamed m sh.
Proof. intros Hcl. unfold streamed, snapshot. by rewrite Hcl. Qed.

Lemma frames_for_streamed p m sh :
  NoDup (snapshot sh) → p ∈ snapshot sh → frames_for p (streamed m sh) = frame_of m.
Proof.
  intros Hnd Hp. unfold streamed, frame_of.
  destruct (Streamer.formatMessageForSSE m); [|done].
  by apply frames_for_broadcast.
Qed.

Lemma frames_for_trace p trace sh :
  NoDup (snapshot sh) → p ∈ snapshot sh →
  frames_for p (concat ((λ m, streamed m sh) <$> trace)) = concat (frame_of <$> trace).
Proof.
  intros Hnd Hp. induction trace as [|m trace IH]; [done|].
  rewrite !fmap_cons. simpl. rewrite frames_for_app, IH.
  by rewrite frames_for_streamed.
Qed.

(** [StreamMessage] on a streamer whose handler is well formed. *)
Lemma StreamMessage_receives m ms sh :
  Streamer.streamHandler ms = Some sh → wf sh →
  ∃ e ms' sh',
    Streamer.StreamMessage m ms = Return (e, ms') ∧
    Streamer.streamHandler ms' = Some sh' ∧ wf sh' ∧
    clients sh' = clients sh ∧ receives sh sh' (streamed m sh).
Proof.
  intros Hsh Hwf. unfold Streamer.StreamMessage. rewrite Hsh. simpl.
  destruct (GetConnectedClients sh =? 0) eqn:Hz.
  { eexists _, _, sh. split; [done|]. split; [done|]. split; [done|].
    split; [done|]. rewrite streamed_nil; [by apply receives_refl|].
    apply Z.eqb_eq in Hz. unfold GetConnectedClients in Hz. lia. }
  unfold streamed. destruct (Streamer.formatMessageForSSE m) as [d|err].
  - destruct (BroadcastMessage_spec (Streamer.getEventType m) d sh Hwf)
      as (sh' & Hrun & (Hcl&_)).
    rewrite Hrun. simpl. eexists _, _, sh'. split; [done|]. split; [done|].
    split; [by eapply BroadcastMessage_step|]. split; [done|].
    by apply BroadcastMessage_receives.
  - eexists _, _, sh. split; [done|]. split; [done|]. split; [done|].
    split; [done|]. by apply receives_refl.
Qed.

Lemma streams_to_log f h : streamer_wf h → streams_to h (log f h) [].
Proof.
  intros Hwf. split; [done|]. split; [done|]. split; [done|]. split; [done|].
  intros ms sh Hms Hsh. exists ms, sh. split; [done|]. split; [done|].
  split; [done|]. by apply receives_refl.
Qed.

Lemma streams_to_refl h : streamer_wf h → streams_to h h [].
Proof.
  intros Hwf. split; [done|]. split; [done|]. split; [done|]. split; [done|].
  intros ms sh Hms Hsh. exists ms, sh. split; [done|]. split; [done|].
  split; [done|]. by apply receives_refl.
Qed.

Lemma streams_to_trans h h1 h2 t1 t2 :
  streams_to h h1 t1 → streams_to h1 h2 t2 → streams_to h h2 (t1 ++ t2).
Proof.
  intros (Hi1 & Ht1 & Hr1 & Hw1 & H1) (Hi2 & Ht2 & Hr2 & Hw2 & H2).
  split; [congruence|]. split; [congruence|]. split; [congruence|].
  split; [done|]. intros ms sh Hms Hsh.
  destruct (H1 ms sh Hms Hsh) as (ms1 & sh1 & Hms1 & Hsh1 & Hcl1 & Hrec1).
  destruct (H2 ms1 sh1 Hms1 Hsh1) as (ms2 & sh2 & Hms2 & Hsh2 & Hcl2 & Hrec2).
  exists ms2, sh2. split; [done|]. split; [done|]. split; [congruence|].
  rewrite fmap_app, concat_app.
  eapply receives_trans; [exact Hrec1|].
  replace ((λ m, streamed m sh) <$> t2) with ((λ m, streamed m sh1) <$> t2);
    [done|].
  apply list_fmap_ext. intros _ m _. by apply streamed_same_clients.
Qed.

(** Streaming from the handler: the call returns, and the message went to
    the connections of the hub - to nobody when there is no streamer, no
    stream handler, or nobody connected. *)
Lemma when_streaming_streams m h :
  streamer_wf h →
  ∃ h', when_streaming (Streamer.StreamMessage m) h = Return h' ∧
    streams_to h h' [m].
Proof.
  intros Hwf. unfold when_streaming.
  destruct (streamer h) as [ms|] eqn:Hms.
  2: { exists h. split; [done|]. split; [done|]. split; [done|]. split; [done|].
       split; [done|]. intros ms sh Hms'. congruence. }
  unfold Streamer.IsStreamingEnabled.
  destruct (Streamer.streamHandler ms) as [sh|] eqn:Hsh.
  2: { exists h. split; [done|]. split; [done|]. split; [done|]. split; [done|].
       split; [done|]. intros ms' sh Hms'. rewrite Hms in Hms'.
       injection Hms' as <-. congruence. }
  simpl. pose proof (Hwf ms sh Hms Hsh) as Hwfsh.
  destruct (0 <? GetConnectedClients sh) eqn:Hz.
  - destruct (StreamMessage_receives m ms sh Hsh Hwfsh)
      as (e & ms' & sh' & Hrun & Hsh' & Hwf' & Hcl & Hrec).
    rewrite Hrun. simpl. eexists. split; [done|].
    split; [done|]. split; [done|]. split; [done|]. split.
    { intros ms0 sh0. simpl. intros [= <-] Hsh0.
      rewrite Hsh' in Hsh0. by injection Hsh0 as <-. }
    intros ms0 sh0 Hms0 Hsh0. rewrite Hms in Hms0. injection Hms0 as <-.
    rewrite Hsh in Hsh0. injection Hsh0 as <-.
    exists ms', sh'. split; [done|]. split; [done|]. split; [done|].
    simpl. by rewrite app_nil_r.
  - exists h. split; [done|]. split; [done|]. split; [done|]. split; [done|].
    split; [done|]. intros ms0 sh0 Hms0 Hsh0. rewrite Hms in Hms0.
    injection Hms0 as <-. rewrite Hsh in Hsh0. injection Hsh0 as <-.
    exists ms, sh. split; [done|]. split; [done|]. split; [done|].
    simpl. rewrite app_nil_r, streamed_nil; [by apply receives_refl|].
    apply Z.ltb_ge in Hz. unfold GetConnectedClients in Hz. lia.
Qed.

Lemma streamer_wf_log f h : streamer_wf h → streamer_wf (log f h).
Proof. done. Qed.

Lemma when_streaming_progress toolName status id h :
  when_streaming
    (Streamer.StreamToolProgress toolName
       (VMap [("status", VStr status); ("toolId", id)])) h
  = when_streaming (Streamer.StreamMessage (progress_message toolName status id)) h.
Proof. reflexivity. Qed.

Lemma answers_NewResponse msg res :
  is_nil res = false → answers msg (NewResponse (Types.ID msg) res).
Proof. intros Hres. repeat split; try done. Qed.

Lemma answers_NewErrorResponse msg code message :
  answers msg (NewErrorResponse (Types.ID msg) code message VNil).
Proof. repeat split; try done. Qed.

Lemma answers_IsResponse msg response :
  answers msg response → IsRequest msg = true → IsResponse response = true.
Proof.
  intros (_ & HID & Hm & Hres) Hreq. unfold IsRequest in Hreq.
  apply andb_prop in Hreq as [_ Hid]. unfold IsResponse, has_method.
  rewrite Hm, HID, Hid. simpl. destruct (Error response) as [e|] eqn:He.
  - rewrite orb_true_iff. right. by apply bool_decide_eq_true_2.
  - destruct Hres as [Hres _]. by rewrite (Hres eq_refl).
Qed.

(** [handleCallTool], branch by branch, with what it streams. *)
Lemma handleCallTool_cases msg h :
  streamer_wf h →
  ∃ response h' trace,
    handleCallTool msg h = Return (response, h') ∧
    streams_to h h' trace ∧
    if negb (initialized h) then
      response = NewErrorResponse (Types.ID msg) ErrorCodeInternalError
                   "Server not initialized" VNil ∧ trace = [] ∧ h' = h
    else
      match GetParams Unmarshal_CallToolRequest msg with
      | Err _ =>
          response = NewErrorResponse (Types.ID msg) ErrorCodeInvalidParams
                       "Invalid params" VNil ∧ trace = []
      | Ok req =>
          let name := CallToolRequest_Name req in
          let started := progress_message name "started" (Types.ID msg) in
          let completed := progress_message name "completed" (Types.ID msg) in
          match find (λ t, bool_decide (Name t = name)) (tools h) with
          | None =>
              response = NewErrorResponse (Types.ID msg) ErrorCodeToolNotFound
                           ("Tool not found: " +:+ name) VNil ∧
              trace = [started; response]
          | Some _ =>
              match executeTool name (Arguments req) with
              | Err err =>
                  response = NewErrorResponse (Types.ID msg) ErrorCodeInvalidTool
                               ("Tool execution failed: " +:+ err) VNil ∧
                  trace = [started; response]
              | Ok result =>
                  response = NewResponse (Types.ID msg) (CallToolResult_object result) ∧
                  trace = [started; completed; response]
              end
          end
      end.
Proof.
  intros Hwf. unfold handleCallTool.
  destruct (initialized h) eqn:Hinit; simpl.
  2: { eexists _, h, []. split; [done|]. split; [by apply streams_to_refl|done]. }
  destruct (GetParams Unmarshal_CallToolRequest msg) as [req|err] eqn:Hreq.
  2: { eexists _, _, []. split; [done|]. split; [by apply streams_to_log|done]. }
  rewrite when_streaming_progress.
  pose proof (streams_to_log (Logger.Info "Calling tool") h Hwf) as Hs0.
  destruct (when_streaming_streams
              (progress_message (CallToolRequest_Name req) "started" (Types.ID msg))
              (log (Logger.Info "Calling tool") h)) as (h1 & Hrun1 & Hs1); [done|].
  rewrite Hrun1. simpl.
  pose proof (streams_to_trans _ _ _ _ _ Hs0 Hs1) as Hs01. simpl in Hs01.
  pose proof Hs01 as (_ & Htools & _ & Hwf1 & _). rewrite Htools.
  destruct (find _ (tools h)) as [tool|] eqn:Hfind.
  - destruct (executeTool (CallToolRequest_Name req) (Arguments req))
      as [result|err] eqn:Hexec.
    + rewrite when_streaming_progress.
      destruct (when_streaming_streams
                  (progress_message (CallToolRequest_Name req) "completed"
                     (Types.ID msg)) h1 Hwf1) as (h2 & Hrun2 & Hs2).
      rewrite Hrun2. simpl.
      pose proof Hs2 as (_ & _ & _ & Hwf2 & _).
      destruct (when_streaming_streams
                  (NewResponse (Types.ID msg) (CallToolResult_object result)) h2 Hwf2)
        as (h3 & Hrun3 & Hs3).
      rewrite Hrun3. simpl. eexists _, h3, _. split; [done|]. split; [|done].
      apply (streams_to_trans _ _ _ [_] [_; _] Hs01).
      by apply (streams_to_trans _ _ _ [_] [_] Hs2).
    + pose proof (streams_to_log (Logger.Error "Tool execution failed") h1 Hwf1)
        as Hs2.
      destruct (when_streaming_streams
                  (NewErrorResponse (Types.ID msg) ErrorCodeInvalidTool
                     ("Tool execution failed: " +:+ err) VNil)
                  (log (Logger.Error "Tool execution failed") h1)) as (h3 & Hrun3 & Hs3);
        [done|].
      rewrite Hrun3. simpl. eexists _, h3, _. split; [done|]. split; [|done].
      apply (streams_to_trans _ _ _ [_] [_] Hs01).
      by apply (streams_to_trans _ _ _ [] [_] Hs2).
  - destruct (when_streaming_streams
                (NewErrorResponse (Types.ID msg) ErrorCodeToolNotFound
                   ("Tool not found: " +:+ CallToolRequest_Name req) VNil) h1 Hwf1)
      as (h3 & Hrun3 & Hs3).
    rewrite Hrun3. simpl. eexists _, h3, _. split; [done|]. split; [|done].
    by apply (streams_to_trans _ _ _ [_] [_] Hs01).
Qed.

Lemma handleCallTool_answers msg h :
  streamer_wf h →
  ∃ response h',
    handleCallTool msg h = Return (response, h') ∧ answers msg response ∧
    initialized h' = initialized h ∧ tools h' = tools h ∧ streamer_wf h'.
Proof.
  intros Hwf.
  destruct (handleCallTool_cases msg h Hwf)
    as (response & h' & trace & Hrun & (Hi & Ht & _ & Hwf' & _) & Hcases).
  exists response, h'. split; [done|]. split; [|done].
  destruct (negb (initialized h)).
  { destruct Hcases as (-> & _). apply answers_NewErrorResponse. }
  destruct (GetParams Unmarshal_CallToolRequest msg) as [req|err].
  2: { destruct Hcases as (-> & _). apply answers_NewErrorResponse. }
  simpl in Hcases. destruct (find _ (tools h)).
  2: { destruct Hcases as (-> & _). apply answers_NewErrorResponse. }
  destruct (executeTool _ _).
  - destruct Hcases as (-> & _). by apply answers_NewResponse.
  - destruct Hcases as (-> & _). apply answers_NewErrorResponse.
Qed.

Ltac answered :=
  eexists _, _; (split; [reflexivity|]);
  (split; [first [apply answers_NewErrorResponse|by apply answers_NewResponse]
          |split; [done|split; [done|first [done|by apply streamer_wf_log]]]]).

Lemma handleRequest_answers msg h :
  streamer_wf h →
  ∃ response h',
    handleRequest msg h = Return (bytes (ToJSON response), h') ∧
    answers msg response ∧
    initialized h' = initialized h ∧ tools h' = tools h ∧ streamer_wf h'.
Proof.
  intros Hwf. unfold handleRequest.
  repeat case_decide.
  - unfold handleInitialize.
    destruct (GetParams Unmarshal_InitializeRequest msg); simpl;
      answered.
  - unfold handleListTools. destruct (initialized h) eqn:Hinit; simpl;
      answered.
  - destruct (handleCallTool_answers msg h Hwf) as (response & h' & Hrun & Hrest).
    rewrite Hrun. simpl. by exists response, h'.
  - unfold handleListResources. destruct (initialized h) eqn:Hinit; simpl;
      answered.
  - unfold handleReadResource. destruct (initialized h) eqn:Hinit; simpl.
    + destruct (GetParams Unmarshal_ReadResourceRequest msg); simpl;
        answered.
    + answered.
  - unfold handleListResourceTemplates. destruct (initialized h) eqn:Hinit; simpl;
      answered.
  - simpl. answered.
  - simpl. answered.
Qed.

Lemma bytes_not_None r : bytes r ≠ Ok None.
Proof. by destruct r. Qed.

Lemma request_not_notification msg :
  IsRequest msg = true → IsNotification msg = false.
Proof.
  unfold IsRequest, IsNotification.
  by destruct (has_method msg), (is_nil (Types.ID msg)).
Qed.

(** [HandleMessage] returns; only a parsed notification gets no answer,
    and only the [initialized] notification changes [initialized]. *)
Lemma HandleMessage_spec data h :
  streamer_wf h →
  ∃ r h',
    HandleMessage data h = Return (r, h') ∧
    streamer_wf h' ∧ tools h' = tools h ∧
    (r = Ok None ↔ ∃ msg, FromJSON data = Ok msg ∧ IsNotification msg = true) ∧
    (initialized h' = initialized h ∨
     initialized h' = true ∧
     ∃ msg, FromJSON data = Ok msg ∧ IsNotification msg = true ∧
       Method msg = MethodInitialized).
Proof.
  intros Hwf. unfold HandleMessage.
  destruct (FromJSON data) as [msg|err] eqn:Hparse.
  2: { eexists _, _. split; [done|]. split; [done|]. split; [done|]. split.
       - split; [by intros ?%bytes_not_None|]. by intros (msg & ? & _).
       - by left. }
  destruct (IsRequest msg) eqn:Hreq.
  { destruct (handleRequest_answers msg (log (Logger.Debug "Received MCP message") h))
      as (response & h' & Hrun & _ & Hi & Ht & Hwf'); [done|].
    rewrite Hrun. eexists _, h'. split; [done|]. split; [done|]. split; [done|].
    split; [|by left]. split; [by intros ?%bytes_not_None|].
    intros (msg' & [= <-] & Hn). by rewrite request_not_notification in Hn. }
  destruct (IsNotification msg) eqn:Hnot.
  - unfold handleNotification. eexists _, _. split; [done|].
    case_decide as Hm; (split; [done|]); (split; [done|]);
      (split; [split; [intros _; by exists msg|done]|]).
    + right. split; [done|]. by exists msg.
    + by left.
  - eexists _, _. split; [done|]. split; [done|]. split; [done|]. split.
    + split; [by intros ?%bytes_not_None|].
      intros (msg' & [= <-] & Hn). congruence.
    + by left.
Qed.

Lemma find_is_Some_Name toolName (l : list Tool) :
  is_Some (find (λ t, bool_decide (Name t = toolName)) l) ↔ toolName ∈ Name <$> l.
Proof.
  induction l as [|t l IH].
  - split; [by intros [? ?]|by intros ?%elem_of_nil].
  - rewrite fmap_cons, elem_of_cons. simpl. case_bool_decide as Ht.
    + split; [by left|eauto].
    + rewrite IH. split; [by right|]. intros [->|?]; [done|done].
Qed.

(** X22.  Every request is answered, once.  Whatever the method, the state of the
    handler and of the hub behind it, [handleRequest] returns the encoding
    of a message that carries the id of the request, has no method and has
    either a result or an error - a response, when the request had an id -
    and it leaves [initialized] and the tools as they were. *)
Theorem every_request_is_answered msg h :
  streamer_wf h →
  ∃ response h',
    handleRequest msg h = Return (bytes (ToJSON response), h') ∧
    JSONRPC response = "2.0" ∧
    Types.ID response = Types.ID msg ∧
    Method response = "" ∧
    (Error response = None ↔ is_nil (Result response) = false) ∧
    (IsRequest msg = true → IsResponse response = true) ∧
    initialized h' = initialized h ∧ tools h' = tools h ∧ streamer_wf h'.
Proof.
  intros Hwf.
  destruct (handleRequest_answers msg h Hwf)
    as (response & h' & Hrun & Hans & Hi & Ht & Hwf').
  exists response, h'. split; [done|].
  pose proof Hans as (H1 & H2 & H3 & H4).
  split; [done|]. split; [done|]. split; [done|]. split; [done|].
  split; [by apply answers_IsResponse|done].
Qed.

(** X23.  What a tool call streams.  On an initialized handler a [tools/call]
    whose parameters decode streams, through the hub behind the streamer,
    the [tools/progress] notification with status [started], then - when
    the tool is listed and its run succeeds - the notification with status
    [completed] and the response, and otherwise the error response alone.
    Each message is one delivery per registered connection, in that order;
    a connection that can still take a frame afterwards has been written
    the frames of these messages and nothing else, and the registry is left
    as it was.  With nobody connected nothing is delivered. *)
Theorem tools_call_is_streamed msg h ms sh req :
  initialized h = true → streamer h = Some ms →
  Streamer.streamHandler ms = Some sh → wf sh →
  GetParams Unmarshal_CallToolRequest msg = Ok req →
  let name := CallToolRequest_Name req in
  let started := progress_message name "started" (Types.ID msg) in
  let completed := progress_message name "completed" (Types.ID msg) in
  ∃ response h' ms' sh' trace,
    handleCallTool msg h = Return (response, h') ∧
    streamer h' = Some ms' ∧ Streamer.streamHandler ms' = Some sh' ∧
    clients sh' = clients sh ∧
    match find (λ t, bool_decide (Name t = name)) (tools h) with
    | None =>
        response = NewErrorResponse (Types.ID msg) ErrorCodeToolNotFound
                     ("Tool not found: " +:+ name) VNil ∧
        trace = [started; response]
    | Some _ =>
        match executeTool name (Arguments req) with
        | Err err =>
            response = NewErrorResponse (Types.ID msg) ErrorCodeInvalidTool
                         ("Tool execution failed: " +:+ err) VNil ∧
            trace = [started; response]
        | Ok result =>
            response = NewResponse (Types.ID msg) (CallToolResult_object result) ∧
            trace = [started; completed; response]
        end
    end ∧
    deliveries sh' = deliveries sh ++ concat ((λ m, streamed m sh) <$> trace) ∧
    (∀ id p c, clients sh !! id = Some p → heap sh !! p = Some c →
       ∃ c', heap sh' !! p = Some c' ∧
         (live c' = true →
            written (Writer c') = written (Writer c) ++ concat (frame_of <$> trace))) ∧
    (is_nil (Types.ID msg) = false →
       Streamer.getEventType started = "mcp_notification" ∧
       Streamer.getEventType completed = "mcp_notification" ∧
       Streamer.getEventType response
       = if IsError response then "mcp_error" else "mcp_response").
Proof.
  intros Hinit Hms Hsh Hwf Hreq name started completed.
  assert (streamer_wf h) as Hswf.
  { intros ms0 sh0 Hms0 Hsh0. rewrite Hms in Hms0. injection Hms0 as <-.
    rewrite Hsh in Hsh0. by injection Hsh0 as <-. }
  destruct (handleCallTool_cases msg h Hswf)
    as (response & h' & trace & Hrun & (_ & _ & _ & _ & Hstream) & Hcases).
  rewrite Hinit, Hreq in Hcases. simpl in Hcases.
  destruct (Hstream ms sh Hms Hsh) as (ms' & sh' & Hms' & Hsh' & Hcl & Hd & Hrec).
  exists response, h', ms', sh', trace.
  split; [done|]. split; [done|]. split; [done|]. split; [done|].
  split; [exact Hcases|]. split; [done|]. split.
  - intros id p c Hid Hc. destruct (Hrec p c Hc) as (c' & Hc' & Hlive).
    exists c'. split; [done|]. intros Hl. destruct (Hlive Hl) as [_ ->].
    rewrite frames_for_trace; [done|by apply snapshot_NoDup|].
    apply elem_of_snapshot. eauto.
  - intros Hid. split; [done|]. split; [done|].
    fold name in Hcases. destruct (find _ (tools h)).
    + destruct (executeTool name (Arguments req)); destruct Hcases as [-> _];
        unfold Streamer.getEventType, IsNotification, IsResponse, IsRequest, IsError,
          has_method; simpl; by rewrite Hid.
    + destruct Hcases as [-> _].
      unfold Streamer.getEventType, IsNotification, IsResponse, IsRequest, IsError,
        has_method; simpl; by rewrite Hid.
Qed.

(** X24.  The tools the handler lists are the tools it can run.  The names of
    the tools of a new handler are the case labels of [executeTool], in the
    same order and without repetition: a call finds its tool in the list
    exactly when [executeTool] has a case for it, so a listed tool never
    meets the [unknown tool] error, and an unlisted one never runs. *)
Theorem advertised_tools_are_executable toolName args :
  Name <$> tools (NewHandler []) = executeTool_cases ∧
  NoDup executeTool_cases ∧
  (is_Some (find (λ t, bool_decide (Name t = toolName)) (tools (NewHandler [])))
   ↔ toolName ∈ executeTool_cases) ∧
  (toolName ∈ executeTool_cases →
     executeTool toolName args = execute toolName args) ∧
  (toolName ∉ executeTool_cases →
     executeTool toolName args = Err ("unknown tool: " +:+ toolName)).
Proof.
  assert (Name <$> tools (NewHandler []) = executeTool_cases) as Hnames
    by reflexivity.
  split; [done|]. split.
  { apply (bool_decide_unpack (NoDup executeTool_cases)). vm_compute. exact I. }
  split; [by rewrite find_is_Some_Name, Hnames|]. split.
  - intros Hin. unfold executeTool. by rewrite bool_decide_eq_true_2.
  - intros Hnot. unfold executeTool. by rewrite bool_decide_eq_false_2.
Qed.

(** X25.  Before the [initialized] notification the handler answers
    [tools/list], [tools/call], [resources/list], [resources/read] and
    [resources/templates/list] with the same error, [Server not
    initialized] under the internal-error code and the id of the request,
    and does nothing else: no tool runs, nothing is streamed, nothing is
    logged. *)
Theorem uninitialized_handler_refuses msg h :
  initialized h = false → Method msg ∈ gated_methods →
  handleRequest msg h
  = Return (bytes (ToJSON (NewErrorResponse (Types.ID msg) ErrorCodeInternalError
                             "Server not initialized" VNil)), h).
Proof.
  intros Hinit Hm. unfold handleRequest, handleListTools, handleCallTool,
    handleListResources, handleReadResource, handleListResourceTemplates.
  rewrite Hinit. simpl.
  unfold gated_methods in Hm. rewrite !elem_of_cons in Hm.
  destruct Hm as [->|[->|[->|[->|[->|Hm]]]]]; [done..|].
  by apply elem_of_nil in Hm.
Qed.

(** X26.  An answer for everything but notifications.  [HandleMessage] returns
    for every input.  It returns no bytes and no error exactly when the
    input parses as a notification, whatever its method; input that does
    not parse is answered with the parse error under a nil id, and a
    message that is neither request nor notification with the
    invalid-request error under its own id. *)
Theorem notifications_get_no_answer data h :
  streamer_wf h →
  ∃ r h',
    HandleMessage data h = Return (r, h') ∧
    (r = Ok None ↔ ∃ msg, FromJSON data = Ok msg ∧ IsNotification msg = true) ∧
    (∀ err, FromJSON data = Err err →
       r = bytes (ToJSON (NewErrorResponse VNil ErrorCodeParseError
                            "Parse error" VNil))) ∧
    (∀ msg, FromJSON data = Ok msg →
       IsRequest msg = false → IsNotification msg = false →
       r = bytes (ToJSON (NewErrorResponse (Types.ID msg) ErrorCodeInvalidRequest
                            "Invalid request" VNil))).
Proof.
  intros Hwf.
  destruct (HandleMessage_spec data h Hwf) as (r & h' & Hrun & _ & _ & Hnone & _).
  exists r, h'. split; [done|]. split; [done|].
  unfold HandleMessage in Hrun. split.
  - intros err Herr. rewrite Herr in Hrun. by injection Hrun as <- _.
  - intros msg Hmsg Hreq Hnot. rewrite Hmsg, Hreq, Hnot in Hrun.
    by injection Hrun as <- _.
Qed.

(** X27.  Only the [initialized] notification opens the gate.  Over any run of
    inputs the handler returns an answer slot for each input and keeps its
    tools; once [initialized] is set it stays set; and if it is set at the
    end but was not at the start, one of the inputs parsed as a
    notification with method [initialized] - no request, not even
    [initialize], sets it. *)
Theorem initialized_only_by_notification inbox h :
  streamer_wf h →
  ∃ rs h',
    serve inbox h = Return (rs, h') ∧
    length rs = length inbox ∧
    tools h' = tools h ∧
    (initialized h = true → initialized h' = true) ∧
    (initialized h = false → initialized h' = true →
       ∃ data msg, data ∈ inbox ∧ FromJSON data = Ok msg ∧
         IsNotification msg = true ∧ Method msg = MethodInitialized).
Proof.
  intros Hwf.
  assert (∃ rs h',
    serve inbox h = Return (rs, h') ∧
    length rs = length inbox ∧ tools h' = tools h ∧ streamer_wf h' ∧
    (initialized h = true → initialized h' = true) ∧
    (initialized h = false → initialized h' = true →
       ∃ data msg, data ∈ inbox ∧ FromJSON data = Ok msg ∧
         IsNotification msg = true ∧ Method msg = MethodInitialized))
    as (rs & h' & Hrun & Hlen & Ht & _ & Hup & Hdown).
  { revert h Hwf. induction inbox as [|data inbox IH]; intros h Hwf.
    - exists [], h. split; [done|]. split; [done|]. split; [done|].
      split; [done|]. split; [done|]. congruence.
    - destruct (HandleMessage_spec data h Hwf)
        as (r & h1 & Hrun & Hwf1 & Ht1 & _ & Hi1).
      destruct (IH h1 Hwf1) as (rs & h' & Hrun' & Hlen & Ht & Hwf' & Hup & Hdown).
      exists (r :: rs), h'.
      split; [simpl; by rewrite Hrun; simpl; rewrite Hrun'|].
      split; [simpl; by rewrite Hlen|]. split; [congruence|]. split; [done|].
      split.
      + intros Hi. apply Hup. destruct Hi1 as [->|[-> _]]; done.
      + intros Hi Hi'. destruct Hi1 as [Hsame|[_ (msg & Hp & Hn & Hm)]].
        * destruct (Hdown) as (data' & msg & Hin & Hrest); [congruence|done|].
          exists data', msg. split; [by right|done].
        * exists data, msg. split; [by left|done]. }
  exists rs, h'. by repeat split.
Qed.

End Answers.

Section AnswersExamples.
Import Protocol.

Lemma uninitialized_handler_refuses_witness :
  handleRequest list_tools_request (NewHandler [])
  = Return (bytes (ToJSON (NewErrorResponse (VInt 1) ErrorCodeInternalError
                             "Server not initialized" VNil)), NewHandler []).
Proof.
  apply (uninitialized_handler_refuses list_tools_request (NewHandler [])).
  - reflexivity.
  - left.
Defined.

Lemma notifications_get_no_answer_witness :
  ∃ h', HandleMessage (Requests.text (Requests.encode Requests.initialized_notification))
          (NewHandler []) = Return (Ok None, h').
Proof.
  destruct (notifications_get_no_answer
              (Requests.text (Requests.encode Requests.initialized_notification))
              (NewHandler [])) as (r & h' & Hrun & Hnone & _).
  - intros ms sh Hms. discriminate Hms.
  - exists h'. rewrite Hrun. f_equal. f_equal. apply Hnone.
    exists Requests.initialized_notification. split; vm_compute; reflexivity.
Defined.

Lemma initialized_only_by_notification_witness :
  ∃ rs h',
    serve [Requests.text (Requests.encode list_tools_request);
           Requests.text (Requests.encode Requests.initialized_notification);
           Requests.text (Requests.encode list_tools_request)] (NewHandler [])
    = Return (rs, h') ∧
    length rs = 3%nat.
Proof.
  destruct (initialized_only_by_notification
              [Requests.text (Requests.encode list_tools_request);
               Requests.text (Requests.encode Requests.initialized_notification);
               Requests.text (Requests.encode list_tools_request)] (NewHandler []))
    as (rs & h' & Hrun & Hlen & _).
  - intros ms sh Hms. discriminate Hms.
  - exists rs, h'. split; [exact Hrun|exact Hlen].
Defined.

Lemma every_request_is_answered_witness :
  ∃ response h',
    handleRequest Requests.get_user_request Requests.ready_handler
    = Return (bytes (ToJSON response), h') ∧
    IsResponse response = true.
Proof.
  destruct (every_request_is_answered Requests.get_user_request
              Requests.ready_handler)
    as (response & h' & Hrun & _ & _ & _ & _ & Hresp & _).
  - intros ms sh [= <-] [= <-]. apply wf_check_sound. vm_compute. reflexivity.
  - exists response, h'. split; [exact Hrun|]. apply Hresp. reflexivity.
Defined.

Lemma tools_call_is_streamed_witness :
  ∃ response h',
    handleCallTool Requests.get_user_request Requests.ready_handler
    = Return (response, h') ∧
    Streamer.getEventType response = "mcp_response".
Proof.
  destruct (tools_call_is_streamed Requests.get_user_request Requests.ready_handler
              (GetStreamer two_clients) two_clients
              {| CallToolRequest_Name := "get_user";
                 Arguments := VMap [("username", VStr "octocat")] |})
    as (response & h' & ms' & sh' & trace & Hrun & _ & _ & _ & Hcases & _).
  - reflexivity.
  - reflexivity.
  - reflexivity.
  - apply wf_check_sound. vm_compute. reflexivity.
  - vm_compute. reflexivity.
  - exists response, h'. split; [exact Hrun|].
    vm_compute in Hcases. destruct Hcases as [-> _]. reflexivity.
Defined.

End AnswersExamples.
